(** * dreye: Signal and MeasuredSpectraContainer

    A shallow embedding of [dreye/core/signal.py] and
    [dreye/core/spectral_measurement.py].

    Magnitudes are exact rationals ([Q]): rounding of binary floating point
    is not modelled, so "equal within floating tolerance" reads as [Qeq].
    NaN appears only where the source tests for it ([np.isnan] on the
    boundary arrays).  Python objects that are mutated in place are records
    threaded through a state monad in which an exception keeps the state
    reached so far. *)

From Stdlib Require Import String List ZArith QArith Qminmax Qfield Bool Arith Lia Lqa.
Import ListNotations.

Local Open Scope Q_scope.

(** ** Exceptions and results *)

Inductive exn : Type :=
| DreyeError (msg : string)
| AssertionError (msg : string)
| AttributeError (msg : string)
| TypeError (msg : string)
| ValueError (msg : string)
| IndexError (msg : string)
| KeyError (msg : string)
| DimensionalityError.

Inductive result (A : Type) : Type :=
| Ok (a : A)
| Raise (e : exn).
Arguments Ok {A} a.
Arguments Raise {A} e.

Definition rbind {A B} (r : result A) (k : A -> result B) : result B :=
  match r with
  | Ok a => k a
  | Raise e => Raise e
  end.

Definition is_ok {A} (r : result A) : bool :=
  match r with Ok _ => true | Raise _ => false end.


Definition is_AssertionError {A} (r : result A) : bool :=
  match r with Raise (AssertionError _) => true | _ => false end.

Declare Scope result_scope.
Delimit Scope result_scope with result.
Notation "x <- c ;; k" := (rbind c (fun x => k))
  (at level 61, c at next level, right associativity) : result_scope.

(** Traversal of a list with a fallible function, left to right. *)
Fixpoint mapM {A B} (f : A -> result B) (l : list A) : result (list B) :=
  match l with
  | [] => Ok []
  | a :: l' =>
      match f a with
      | Raise e => Raise e
      | Ok b =>
          match mapM f l' with
          | Raise e => Raise e
          | Ok bs => Ok (b :: bs)
          end
      end
  end.

(** ** Methods of a mutable object

    A method of a receiver of type [S]: it returns the receiver's state
    after the call together with the value returned or the exception raised.
    An exception does not undo writes made before it. *)

Definition M (S A : Type) : Type := S -> S * result A.

Definition ret {S A} (a : A) : M S A := fun s => (s, Ok a).
Definition raise {S A} (e : exn) : M S A := fun s => (s, Raise e).
Definition bind {S A B} (c : M S A) (k : A -> M S B) : M S B :=
  fun s =>
    match c s with
    | (s', Ok a) => k a s'
    | (s', Raise e) => (s', Raise e)
    end.
Definition get {S} : M S S := fun s => (s, Ok s).
Definition modify {S} (f : S -> S) : M S unit := fun s => (f s, Ok tt).
Definition lift {S A} (r : result A) : M S A := fun s => (s, r).

(** [try: c except Exception: handler] *)
Definition try_except {S A} (c : M S A) (handler : exn -> M S A) : M S A :=
  fun s =>
    match c s with
    | (s', Ok a) => (s', Ok a)
    | (s', Raise e) => handler e s'
    end.

Declare Scope method_scope.
Delimit Scope method_scope with method.
Notation "x <- c ;; k" := (bind c (fun x => k))
  (at level 61, c at next level, right associativity) : method_scope.
Notation "c ;;; k" := (bind c (fun _ => k))
  (at level 61, right associativity) : method_scope.

(** ** Rational helpers *)

Definition Qlt_bool (a b : Q) : bool := negb (Qle_bool b a).

(** Pointwise [Qeq] on lists and on lists of lists. *)
Definition Qeq_list : list Q -> list Q -> Prop := Forall2 Qeq.
Definition Qeq_rows : list (list Q) -> list (list Q) -> Prop := Forall2 Qeq_list.

Fixpoint Qeq_list_bool (a b : list Q) : bool :=
  match a, b with
  | [], [] => true
  | x :: a', y :: b' => Qeq_bool x y && Qeq_list_bool a' b'
  | _, _ => false
  end.

Fixpoint Qeq_rows_bool (a b : list (list Q)) : bool :=
  match a, b with
  | [], [] => true
  | x :: a', y :: b' => Qeq_list_bool x y && Qeq_rows_bool a' b'
  | _, _ => false
  end.

(** ** numpy

    The part of numpy the two source files call.  An array is 0-, 1- or
    2-dimensional; a 2-dimensional array is a list of rows of equal
    length. *)

Module np.

Inductive ndarray : Type :=
| Arr0 (x : Q)
| Arr1 (xs : list Q)
| Arr2 (rows : list (list Q)).

Definition ndim (a : ndarray) : nat :=
  match a with
  | Arr0 _ => 0
  | Arr1 _ => 1
  | Arr2 _ => 2
  end.

Definition ncols {A} (rows : list (list A)) : nat := length (hd [] rows).

Definition shape (a : ndarray) : list nat :=
  match a with
  | Arr0 _ => []
  | Arr1 xs => [length xs]
  | Arr2 rows => [length rows; ncols rows]
  end.

Fixpoint shape_eqb (a b : list nat) : bool :=
  match a, b with
  | [], [] => true
  | x :: a', y :: b' => Nat.eqb x y && shape_eqb a' b'
  | _, _ => false
  end.

(** Every row has the length of the first one. *)
Definition rectangular {A} (rows : list (list A)) : Prop :=
  Forall (fun r => length r = ncols rows) rows.

Definition column (j : nat) (rows : list (list Q)) : list Q :=
  List.map (fun r => nth j r 0) rows.

Definition columns (rows : list (list Q)) : list (list Q) :=
  List.map (fun j => column j rows) (seq 0 (ncols rows)).

(** [a.T] *)
Definition T (a : ndarray) : ndarray :=
  match a with
  | Arr2 rows => Arr2 (columns rows)
  | _ => a
  end.

Definition amap (f : Q -> Q) (a : ndarray) : ndarray :=
  match a with
  | Arr0 x => Arr0 (f x)
  | Arr1 xs => Arr1 (List.map f xs)
  | Arr2 rows => Arr2 (List.map (List.map f) rows)
  end.

Definition flatten (a : ndarray) : list Q :=
  match a with
  | Arr0 x => [x]
  | Arr1 xs => xs
  | Arr2 rows => concat rows
  end.

Definition minimum (a b : Q) : Q := if Qle_bool a b then a else b.
Definition maximum (a b : Q) : Q := if Qle_bool a b then b else a.

(** [np.min] and [np.max] of all elements; an empty array has none. *)
Definition min (a : ndarray) : result Q :=
  match flatten a with
  | [] => Raise (ValueError "zero-size array to reduction operation minimum which has no identity")
  | x :: l => Ok (fold_left minimum l x)
  end.

Definition max (a : ndarray) : result Q :=
  match flatten a with
  | [] => Raise (ValueError "zero-size array to reduction operation maximum which has no identity")
  | x :: l => Ok (fold_left maximum l x)
  end.

Fixpoint zip_with {A B C} (f : A -> B -> C) (a : list A) (b : list B) : list C :=
  match a, b with
  | x :: a', y :: b' => f x y :: zip_with f a' b'
  | _, _ => []
  end.

(** Broadcasting of two 1-dimensional operands: equal lengths combine
    element by element, a length of one is stretched, anything else is an
    error. *)
Definition broadcast1 {A B C} (f : A -> B -> C) (a : list A) (b : list B)
  : result (list C) :=
  match a, b with
  | [x], _ => Ok (List.map (f x) b)
  | _, [y] => Ok (List.map (fun x => f x y) a)
  | _, _ =>
      if Nat.eqb (length a) (length b) then Ok (zip_with f a b)
      else Raise (ValueError "operands could not be broadcast together")
  end.

(** A 2-dimensional array against a [(1, C)] row: each row broadcasts
    against it along the last axis. *)
Definition broadcast_rows {A B C} (f : A -> B -> C)
    (rows : list (list A)) (b : list B) : result (list (list C)) :=
  mapM (fun r => broadcast1 f r b) rows.

(** [np.all] of a 2-dimensional boolean array. *)
Definition all (rows : list (list bool)) : bool :=
  forallb (forallb (fun b => b)) rows.

Definition atleast_2d (a : ndarray) : list (list Q) :=
  match a with
  | Arr0 x => [[x]]
  | Arr1 xs => [xs]
  | Arr2 rows => rows
  end.

(** An operand of [np.clip]: a scalar, or a 1-dimensional sequence that
    broadcasts along the last axis. *)
Inductive bound : Type :=
| BScalar (q : Q)
| BList (l : list Q).

Definition broadcast_bound (f : Q -> Q -> Q) (a : ndarray) (b : bound)
  : result ndarray :=
  match b with
  | BScalar q => Ok (amap (fun x => f x q) a)
  | BList l =>
      match a with
      | Arr0 x => Ok (Arr1 (List.map (f x) l))
      | Arr1 xs => (r <- broadcast1 f xs l ;; Ok (Arr1 r))%result
      | Arr2 rows => (r <- broadcast_rows f rows l ;; Ok (Arr2 r))%result
      end
  end.

(** [np.clip(values, a_min, a_max)] is
    [minimum(maximum(values, a_min), a_max)]; a bound that is [None] is
    left out. *)
Definition clip (values : ndarray) (a_min a_max : option bound)
  : result ndarray :=
  (lo <- match a_min with
         | None => Ok values
         | Some b => broadcast_bound maximum values b
         end ;;
   match a_max with
   | None => Ok lo
   | Some b => broadcast_bound minimum lo b
   end)%result.

(** [np.diff] *)
Fixpoint diff (x : list Q) : list Q :=
  match x with
  | x0 :: ((x1 :: _) as x') => (x1 - x0) :: diff x'
  | _ => []
  end.

Fixpoint diffZ (x : list Z) : list Z :=
  match x with
  | x0 :: ((x1 :: _) as x') => (x1 - x0)%Z :: diffZ x'
  | _ => []
  end.

Definition sum (l : list Q) : Q := fold_right Qplus 0 l.

(** [y[1:] + y[:-1]] *)
Fixpoint pair_sums (y : list Q) : list Q :=
  match y with
  | y0 :: ((y1 :: _) as y') => (y1 + y0) :: pair_sums y'
  | _ => []
  end.

(** [np.trapz(y, x)] for 1-dimensional [y]:
    [(diff(x) * (y[1:] + y[:-1]) / 2.0).sum()]. *)
Definition trapz1 (y x : list Q) : result Q :=
  (p <- broadcast1 (fun d s => d * s / 2) (diff x) (pair_sums y) ;;
   Ok (sum p))%result.

(** The 1-dimensional slices of [a] along [axis]: the rows for [axis = 1],
    the columns for [axis = 0]. *)
Definition slices (rows : list (list Q)) (axis : nat) : list (list Q) :=
  match axis with
  | O => columns rows
  | _ => rows
  end.

(** [np.trapz(y, x, axis=axis)] *)
Definition trapz (y : ndarray) (x : list Q) (axis : nat) : result ndarray :=
  match y with
  | Arr0 _ => Raise (IndexError "list assignment index out of range")
  | Arr1 ys => (v <- trapz1 ys x ;; Ok (Arr0 v))%result
  | Arr2 rows =>
      (v <- mapM (fun ch => trapz1 ch x) (slices rows axis) ;; Ok (Arr1 v))%result
  end.

(** Insertion sort by key, stable.  ([np.argsort] uses an unstable sort by
    default; the two differ only in the order of equal keys.) *)
Fixpoint insert_by {A} (key : A -> Q) (a : A) (l : list A) : list A :=
  match l with
  | [] => [a]
  | b :: l' =>
      if Qle_bool (key a) (key b) then a :: l else b :: insert_by key a l'
  end.

Definition sort_by {A} (key : A -> Q) (l : list A) : list A :=
  fold_right (insert_by key) [] l.

(** [np.sort] *)
Definition sort (l : list Q) : list Q := sort_by (fun x => x) l.

(** [np.argsort] of a 1-dimensional array. *)
Definition argsort (l : list Q) : list nat :=
  List.map snd (sort_by fst (combine l (seq 0 (length l)))).

(** An integer index array. *)
Inductive intarray : Type :=
| IArr1 (idx : list nat)
| IArr2 (idx : list (list nat)).

Definition nth_row (rows : list (list Q)) (i : nat) : result (list Q) :=
  match nth_error rows i with
  | Some r => Ok r
  | None => Raise (IndexError "index out of bounds")
  end.

Definition nth_elt (r : list Q) (j : nat) : result Q :=
  match nth_error r j with
  | Some v => Ok v
  | None => Raise (IndexError "index out of bounds")
  end.

(** [np.take_along_axis(arr, indices, axis)] for 2-dimensional [arr]:
    [indices] must have as many dimensions as [arr]. *)
Definition take_along_axis (arr : list (list Q)) (indices : intarray)
    (axis : nat) : result (list (list Q)) :=
  match indices with
  | IArr1 _ =>
      Raise (ValueError "`indices` and `arr` must have the same number of dimensions")
  | IArr2 idx =>
      match axis with
      | O =>
          mapM (fun irow =>
                  mapM (fun ij => (r <- nth_row arr (snd ij) ;; nth_elt r (fst ij))%result)
                       (combine (seq 0 (length irow)) irow))
               idx
      | _ =>
          mapM (fun p => mapM (nth_elt (fst p)) (snd p)) (combine arr idx)
      end
  end.

(** [np.concatenate] of two 1-dimensional arrays. *)
Definition concatenate (a b : list Q) : list Q := a ++ b.

(** A float that may be NaN, for the arrays the source passes to
    [np.isnan]. *)
Inductive float : Type :=
| nan
| fin (q : Q).

Definition isnan (x : float) : bool :=
  match x with
  | nan => true
  | fin _ => false
  end.

(** Conversion of an object-array entry to float: [None] becomes NaN. *)
Definition float_of_object (o : option float) : float :=
  match o with
  | None => nan
  | Some x => x
  end.

(** [dst[mask] = src[mask]] for arrays of one length. *)
Fixpoint mask_assign {A} (dst : list A) (mask : list bool) (src : list A) : list A :=
  match dst, mask, src with
  | d :: dst', m :: mask', v :: src' =>
      (if m then v else d) :: mask_assign dst' mask' src'
  | _, _, _ => dst
  end.

(** [np.min(a, axis=axis)] and [np.max(a, axis=axis)]: the reduction [f]
    ([min] or [max]) of every 1-dimensional slice along [axis].  An axis
    the array does not have raises [numpy.AxisError], a subclass of
    [ValueError]. *)
Definition reduce_axis (f : ndarray -> result Q) (a : ndarray) (axis : nat)
  : result ndarray :=
  match a with
  | Arr0 _ => Raise (ValueError "axis is out of bounds for array of dimension 0")
  | Arr1 xs =>
      match axis with
      | O => (m <- f (Arr1 xs) ;; Ok (Arr0 m))%result
      | _ => Raise (ValueError "axis is out of bounds for array of dimension 1")
      end
  | Arr2 rows =>
      if Nat.ltb axis 2 then
        (v <- mapM (fun ch => f (Arr1 ch)) (slices rows axis) ;; Ok (Arr1 v))%result
      else Raise (ValueError "axis is out of bounds for array of dimension 2")
  end.

Definition min_axis : ndarray -> nat -> result ndarray := reduce_axis min.
Definition max_axis : ndarray -> nat -> result ndarray := reduce_axis max.

End np.

(** ** Keyword arguments

    A Python [dict] with string keys, as an association list without
    duplicate keys: assignment replaces an existing entry in place. *)

Inductive pyval : Type :=
| PInt (z : Z)
| PFloat (q : Q)
| PBool (b : bool)
| PStr (s : string).

Definition kwargs : Type := list (string * pyval).

Fixpoint kwargs_get (k : string) (d : kwargs) : option pyval :=
  match d with
  | [] => None
  | (k', v) :: d' => if String.eqb k k' then Some v else kwargs_get k d'
  end.

Fixpoint kwargs_set (k : string) (v : pyval) (d : kwargs) : kwargs :=
  match d with
  | [] => [(k, v)]
  | (k', v') :: d' =>
      if String.eqb k k' then (k, v) :: d' else (k', v') :: kwargs_set k v d'
  end.

(** ** scipy.interpolate.interp1d

    The default interpolator of a signal (kind ['linear']), for abscissae
    given in ascending order, evaluated at a scalar or at a 1-dimensional
    array of coordinates. *)

Module scipy.

Import np.

(** Query coordinates: [asarray(domain)] is a scalar or a vector. *)
Inductive coords : Type :=
| C0 (q : Q)
| C1 (qs : list Q).

Definition coords_array (c : coords) : ndarray :=
  match c with
  | C0 q => Arr0 q
  | C1 qs => Arr1 qs
  end.

Definition coords_map (f : Q -> Q) (c : coords) : coords :=
  match c with
  | C0 q => C0 (f q)
  | C1 qs => C1 (List.map f qs)
  end.

(** The callable an interpolator constructor returns. *)
Definition interpolant : Type := coords -> result ndarray.

(** [np.searchsorted(x, q)] (side ['left']) on ascending [x]: the number
    of leading elements below [q]. *)
Fixpoint searchsorted (x : list Q) (q : Q) : nat :=
  match x with
  | [] => 0
  | x0 :: x' => if Qlt_bool x0 q then S (searchsorted x' q) else 0
  end.

(** [interp1d._call_linear] at one coordinate. *)
Definition call_linear (x y : list Q) (q : Q) : Q :=
  let hi := Nat.min (Nat.max (searchsorted x q) 1) (length x - 1) in
  let lo := (hi - 1)%nat in
  let x_lo := nth lo x 0 in
  let x_hi := nth hi x 0 in
  let y_lo := nth lo y 0 in
  let y_hi := nth hi y 0 in
  let slope := (y_hi - y_lo) / (x_hi - x_lo) in
  slope * (q - x_lo) + y_lo.

(** [interp1d._check_bounds]: outside [x[0], x[-1]] is an error unless
    [fill_value='extrapolate']. *)
Definition out_of_bounds (x : list Q) (q : Q) : bool :=
  Qlt_bool q (hd 0 x) || Qlt_bool (last x 0) q.

Definition evaluate (x y : list Q) (extrapolate : bool) (q : Q) : result Q :=
  if negb extrapolate && out_of_bounds x q
  then Raise (ValueError "A value in x_new is outside the interpolation range.")
  else Ok (call_linear x y q).

Definition wants_extrapolate (kw : kwargs) : bool :=
  match kwargs_get "fill_value" kw with
  | Some (PStr s) => String.eqb s "extrapolate"
  | _ => false
  end.

(** The interpolation axis: keyword [axis], by default the last one. *)
Definition axis_of (kw : kwargs) (y : ndarray) : nat :=
  match kwargs_get "axis" kw with
  | Some (PInt z) => if (z <? 0)%Z then (ndim y - 1)%nat else Z.to_nat z
  | _ => (ndim y - 1)%nat
  end.

Definition same_length (x : list Q) (chs : list (list Q)) : bool :=
  forallb (fun ch => Nat.eqb (length ch) (length x)) chs.

(** The keyword arguments under which scipy's [interp1d] is the linear
    interpolation embedded below: [kind] absent or ['linear'], and
    [bounds_error] absent or [True].  The other kinds (nearest, splines)
    and the filling of out-of-range values ([bounds_error=False]) are not
    embedded. *)
Definition linear_options (kw : kwargs) : bool :=
  match kwargs_get "kind" kw with
  | None => true
  | Some (PStr kind) => String.eqb kind "linear"
  | Some _ => false
  end
  && match kwargs_get "bounds_error" kw with
     | None | Some (PBool true) => true
     | Some _ => false
     end.

(** [interp1d(x, y, **kwargs)], linear interpolation: the embedding reads
    the keywords [axis] and [fill_value='extrapolate'] and is scipy's
    routine for the keyword arguments that [linear_options] accepts;
    properties of interpolated values between the nodes are stated for
    these only. *)
Definition interp1d (x : list Q) (y : ndarray) (kw : kwargs) : result interpolant :=
  let ex := wants_extrapolate kw in
  match y with
  | Arr0 _ => Raise (ValueError "the y array must have at least one dimension.")
  | Arr1 ys =>
      if negb (Nat.eqb (length ys) (length x)) then
        Raise (ValueError "x and y arrays must be equal in length along interpolation axis.")
      else if Nat.ltb (length x) 2 then
        Raise (ValueError "x and y arrays must have at least 2 entries")
      else
        Ok (fun c =>
              match c with
              | C0 q => (v <- evaluate x ys ex q ;; Ok (Arr0 v))%result
              | C1 qs => (v <- mapM (evaluate x ys ex) qs ;; Ok (Arr1 v))%result
              end)
  | Arr2 rows =>
      let axis := axis_of kw y in
      let chs := slices rows axis in
      if negb (same_length x chs) then
        Raise (ValueError "x and y arrays must be equal in length along interpolation axis.")
      else if Nat.ltb (length x) 2 then
        Raise (ValueError "x and y arrays must have at least 2 entries")
      else
        Ok (fun c =>
              match c with
              | C0 q =>
                  (v <- mapM (fun ch => evaluate x ch ex q) chs ;; Ok (Arr1 v))%result
              | C1 qs =>
                  match axis with
                  | O =>
                      (v <- mapM (fun q => mapM (fun ch => evaluate x ch ex q) chs) qs ;;
                       Ok (Arr2 v))%result
                  | _ =>
                      (v <- mapM (fun ch => mapM (evaluate x ch ex) qs) chs ;;
                       Ok (Arr2 v))%result
                  end
              end)
  end.

End scipy.

(** ** Units

    The quantity capability the source relies on (pint): equality of
    units, conversion of a magnitude, products and quotients of units, and the
    units of a plain number ([unit_none]).
    Conversion between incompatible units raises
    [DimensionalityError]; conversion to the same units returns the
    magnitude as it is. *)

Class UnitSystem (U : Type) : Type := {
  unit_eqb : U -> U -> bool;
  unit_eqb_eq : forall u v, unit_eqb u v = true <-> u = v;
  convert : U -> U -> Q -> result Q;
  convert_same : forall u x, convert u u x = Ok x;
  convert_raises : forall u v x e,
    convert u v x = Raise e -> e = DimensionalityError;
  unit_mul : U -> U -> U;
  unit_div : U -> U -> U;
  unit_none : U
}.

(** A magnitude tagged with units. *)
Record Quantity (U A : Type) : Type := mkQuantity {
  q_magnitude : A;
  q_units : U
}.
Arguments mkQuantity {U A} _ _.
Arguments q_magnitude {U A} _.
Arguments q_units {U A} _.

(** A concrete unit system with one base dimension: a unit is
    [10 ^ scale10 * metre ^ dim]. *)
Record metric : Type := mkMetric {
  scale10 : Z;
  dim : Z
}.

Definition metric_eqb (u v : metric) : bool :=
  Z.eqb (scale10 u) (scale10 v) && Z.eqb (dim u) (dim v).

Definition metric_convert (src dst : metric) (x : Q) : result Q :=
  if metric_eqb src dst then Ok x
  else if Z.eqb (dim src) (dim dst)
       then Ok (x * Qpower 10 (scale10 src - scale10 dst))
       else Raise DimensionalityError.

#[export] Instance metric_units : UnitSystem metric.
Proof.
  refine {| unit_eqb := metric_eqb;
            convert := metric_convert;
            unit_mul := fun u v => mkMetric (scale10 u + scale10 v) (dim u + dim v);
            unit_div := fun u v => mkMetric (scale10 u - scale10 v) (dim u - dim v);
            unit_none := mkMetric 0 0 |}.
  - intros [s1 d1] [s2 d2]. unfold metric_eqb. simpl.
    rewrite andb_true_iff, !Z.eqb_eq.
    split; [intros [-> ->]; reflexivity | intro H; inversion H; auto].
  - intros [s d] x. unfold metric_convert, metric_eqb. simpl.
    rewrite !Z.eqb_refl. reflexivity.
  - intros u v x e. unfold metric_convert.
    destruct (metric_eqb u v); [discriminate|].
    destruct (Z.eqb (dim u) (dim v)); [discriminate|].
    intro E. inversion E. reflexivity.
Defined.

Definition nanometre : metric := mkMetric (-9) 1.
Definition micrometre : metric := mkMetric (-6) 1.
Definition volt : metric := mkMetric 0 0.
Definition irradiance : metric := mkMetric 0 (-3).

(** ** dreye.utilities.common

    The duck-typing predicates, on the Python values they are applied
    to. *)

Module common.

(** A value without units.  [NumpyInt] is a numpy integer scalar or a
    0-dimensional integer array and [NumpyArray] a float array (a numpy
    float scalar when 0-dimensional): the values with the attributes
    [item] and [ndim]. *)
#[local] Unset Elimination Schemes.
Inductive plain : Type :=
| PyNone
| PyBool (b : bool)
| PyInt (z : Z)
| PyFloat (x : np.float)
| PyStr (s : string)
| PyList (items : list plain)
| PyTuple (items : list plain)
| PyDict (items : list (string * plain))
| PyFunction (name : string)
| NumpyInt (z : Z)
| NumpyArray (a : np.ndarray).
#[local] Set Elimination Schemes.

(** A value: plain, a pint quantity (the only values with the attributes
    [units], [to] and [magnitude]), or a pint unit. *)
Inductive pyobj (U : Type) : Type :=
| Plain (p : plain)
| PyQuantity (magnitude : plain) (units : U)
| PyUnit (units : U).
Arguments Plain {U} _.
Arguments PyQuantity {U} _ _.
Arguments PyUnit {U} _.

(** [isinstance(value, numbers.Integral)]: [bool] is a subclass of
    [int]. *)
Definition is_Integral (value : plain) : bool :=
  match value with
  | PyBool _ | PyInt _ => true
  | _ => false
  end.

(** [isinstance(value, numbers.Number)] *)
Definition is_Number (value : plain) : bool :=
  match value with
  | PyBool _ | PyInt _ | PyFloat _ => true
  | _ => false
  end.

(** [hasattr(value, 'item') and hasattr(value, 'ndim')] with [value.ndim]
    and [value.item()]. *)
Definition ndim_item (value : plain) : option (nat * plain) :=
  match value with
  | NumpyInt z => Some (0%nat, PyInt z)
  | NumpyArray a =>
      Some (np.ndim a,
            match a with
            | np.Arr0 x => PyFloat (np.fin x)
            | _ => PyNone
            end)
  | _ => None
  end.

Section WithUnits.

Context {U : Type} `{UnitSystem U}.

(** [has_units] *)
Definition has_units (value : pyobj U) : bool :=
  match value with
  | PyQuantity _ _ => true
  | _ => false
  end.

(** [get_value]: the magnitude of a quantity, [1.0] for a unit. *)
Definition get_value (obj : pyobj U) : plain :=
  match obj with
  | PyQuantity m _ => m
  | PyUnit _ => NumpyArray (np.Arr0 1)
  | Plain p => p
  end.

(** [is_string] *)
Definition is_string (obj : pyobj U) : bool :=
  match obj with
  | Plain (PyStr _) => true
  | _ => false
  end.

(** [is_integer] *)
Definition is_integer (obj : pyobj U) : bool :=
  let value := get_value obj in
  match ndim_item value with
  | Some (ndim, item) =>
      if negb (Nat.eqb ndim 0) then false else is_Integral item
  | None => is_Integral value
  end.

(** [is_numeric] *)
Definition is_numeric (obj : pyobj U) : bool :=
  let value := get_value obj in
  match ndim_item value with
  | Some (ndim, item) =>
      if negb (Nat.eqb ndim 0) then false else is_Number item
  | None => is_Number value
  end.

(** [is_listlike] *)
Definition is_listlike (obj : pyobj U) : bool :=
  let value := get_value obj in
  match ndim_item value with
  | Some (ndim, _) => negb (Nat.eqb ndim 0)
  | None =>
      match value with
      | PyList _ | PyTuple _ => true
      | _ => false
      end
  end.

(** [is_hashable] *)
Definition is_hashable (obj : pyobj U) : bool :=
  is_integer obj
  || is_string obj
  || match obj with Plain (PyTuple _) => true | _ => false end
  || match obj with Plain PyNone => true | _ => false end.

(** [is_dictlike] *)
Definition is_dictlike (obj : pyobj U) : bool :=
  match obj with
  | Plain (PyDict _) => true
  | _ => false
  end.

(** [is_callable] *)
Definition is_callable (obj : pyobj U) : bool :=
  match obj with
  | Plain (PyFunction _) => true
  | _ => false
  end.

(** [get_units]; [ureg s] parses a unit expression. *)
Definition get_units (ureg : string -> result U) (obj : pyobj U) : result U :=
  match obj with
  | PyQuantity _ u => Ok u
  | PyUnit u => Ok u
  | Plain (PyStr s) => ureg s
  | Plain _ => Ok unit_none
  end.

(** The magnitude of [quantity.to(units)]: the magnitude as it is for
    the same units; otherwise the dimensions are checked and numbers and
    arrays are converted entry by entry, which turns integers into
    floats. *)
Definition magnitude_to (src dst : U) (m : plain) : result plain :=
  if unit_eqb src dst then Ok m
  else
    match m with
    | PyBool b =>
        (v <- convert src dst (if b then 1 else 0) ;; Ok (PyFloat (np.fin v)))%result
    | PyInt z =>
        (v <- convert src dst (inject_Z z) ;; Ok (PyFloat (np.fin v)))%result
    | NumpyInt z =>
        (v <- convert src dst (inject_Z z) ;; Ok (NumpyArray (np.Arr0 v)))%result
    | PyFloat (np.fin x) =>
        (v <- convert src dst x ;; Ok (PyFloat (np.fin v)))%result
    | PyFloat np.nan => (_ <- convert src dst 1 ;; Ok (PyFloat np.nan))%result
    | NumpyArray a =>
        (v <- match a with
              | np.Arr0 x => (v <- convert src dst x ;; Ok (np.Arr0 v))
              | np.Arr1 xs => (v <- mapM (convert src dst) xs ;; Ok (np.Arr1 v))
              | np.Arr2 rows =>
                  (v <- mapM (mapM (convert src dst)) rows ;; Ok (np.Arr2 v))
              end ;;
         Ok (NumpyArray v))%result
    | _ =>
        (_ <- convert src dst 1 ;;
         Raise (TypeError "unsupported operand type(s) for *"))%result
    end.

(** [optional_to]; [units] is [None] or the target units, and
    [np_asarray] is [np.asarray] on what is list-like. *)
Definition optional_to (np_asarray : plain -> plain) (obj : pyobj U)
    (units : option U) : result (pyobj U) :=
  (obj <- match obj with
          | PyQuantity m u =>
              match units with
              | None => Ok (Plain m)
              | Some units => (m' <- magnitude_to u units m ;; Ok (Plain m'))
              end
          | _ => Ok obj
          end ;;
   if is_numeric obj then Ok obj
   else if is_listlike obj then
     Ok (match obj with
         | Plain p => Plain (np_asarray p)
         | _ => obj
         end)
   else Raise (TypeError "Object is not unit convertible"))%result.

End WithUnits.

End common.

(** ** dreye.utilities.abstract: _AbstractContainer

    The container base class.  [Obj] are the Python objects that may be
    offered as elements and [Attr] the values of the cached attributes. *)

Module _AbstractContainer.

(** What a concrete subclass fixes: the abstract property
    [_allowed_instances], as the test
    [isinstance(ele, cls._allowed_instances)], and the class attribute
    [_init_keys], the names of the cached attributes. *)
Class Subclass (Obj : Type) : Type := {
  isinstance_allowed : Obj -> bool;
  _init_keys : list string
}.

(** The instance: the list [_container] and the attributes set with
    [setattr], each [None] or a value. *)
Record Container (Obj Attr : Type) : Type := mkContainer {
  _container : list Obj;
  attributes : list (string * option Attr)
}.
Arguments mkContainer {Obj Attr} _ _.
Arguments _container {Obj Attr} _.
Arguments attributes {Obj Attr} _.

(** What a caller passes as [container]: something [is_listlike] accepts
    (a list, a tuple or an array, with its items), or anything else. *)
Inductive container_arg (Obj : Type) : Type :=
| ListLike (items : list Obj)
| NotListLike.
Arguments ListLike {Obj} _.
Arguments NotListLike {Obj}.

(** What [__call__] and [__getattr__] return: a container of the same
    class, or a [CallableList] of the results. *)
Inductive collected (Obj Attr : Type) : Type :=
| SameClass (c : Container Obj Attr)
| CallableList (items : list Obj).
Arguments SameClass {Obj Attr} _.
Arguments CallableList {Obj Attr} _.

Section Methods.

Context {Obj Attr : Type} `{Subclass Obj}.

Fixpoint getattr (key : string) (d : list (string * option Attr))
  : option (option Attr) :=
  match d with
  | [] => None
  | (k, v) :: d' => if String.eqb key k then Some v else getattr key d'
  end.

Fixpoint setattr (key : string) (v : option Attr)
    (d : list (string * option Attr)) : list (string * option Attr) :=
  match d with
  | [] => [(key, v)]
  | (k, v') :: d' =>
      if String.eqb key k then (key, v) :: d' else (k, v') :: setattr key v d'
  end.

(** [_init_attrs] *)
Definition _init_attrs : M (Container Obj Attr) unit :=
  modify (fun self =>
            mkContainer (_container self)
              (fold_left (fun d key => setattr key None d) _init_keys
                 (attributes self))).

(** [_are_instances] *)
Definition _are_instances (container : list Obj) : bool :=
  forallb isinstance_allowed container.

(** [_check_list]  (the messages of the source name the classes) *)
Definition _check_list (container : container_arg Obj) : result (list Obj) :=
  match container with
  | NotListLike => Raise (DreyeError "container must be a list-like.")
  | ListLike items =>
      if negb (_are_instances items)
      then Raise (DreyeError "not all elements of container are of an allowed instance.")
      else Ok items
  end.

(** [_check_ele] *)
Definition _check_ele (ele : Obj) : result unit :=
  if negb (isinstance_allowed ele)
  then Raise (DreyeError "New element is not of an allowed instance.")
  else Ok tt.

(** [__init__], on a new object without attributes. *)
Definition __init__ (container : container_arg Obj)
  : result (Container Obj Attr) :=
  (items <- _check_list container ;;
   Ok (fst (_init_attrs (mkContainer items []))))%result.

(** [container], [__len__] and [len] *)
Definition container (self : Container Obj Attr) : list Obj := _container self.
Definition __len__ (self : Container Obj Attr) : nat := length (container self).

(** A Python index into a sequence of [n] items: a negative index counts
    from the end. *)
Definition position (n : nat) (index : Z) : option nat :=
  let i := if (index <? 0)%Z then (index + Z.of_nat n)%Z else index in
  if ((0 <=? i) && (i <? Z.of_nat n))%Z then Some (Z.to_nat i) else None.

(** [__getitem__], for an integer key. *)
Definition __getitem__ (self : Container Obj Attr) (key : Z) : result Obj :=
  match position (length (container self)) key with
  | Some i =>
      match nth_error (container self) i with
      | Some v => Ok v
      | None => Raise (IndexError "list index out of range")
      end
  | None => Raise (IndexError "list index out of range")
  end.

(** [list.pop(index)]: the item and the list without it. *)
Definition list_pop (l : list Obj) (index : Z) : result (Obj * list Obj) :=
  match l with
  | [] => Raise (IndexError "pop from empty list")
  | _ =>
      match position (length l) index with
      | Some i =>
          match nth_error l i with
          | Some v => Ok (v, firstn i l ++ skipn (S i) l)
          | None => Raise (IndexError "pop index out of range")
          end
      | None => Raise (IndexError "pop index out of range")
      end
  end.

(** [append] *)
Definition append (value : Obj) : M (Container Obj Attr) unit :=
  (lift (_check_ele value) ;;;
   modify (fun self => mkContainer (_container self ++ [value]) (attributes self)) ;;;
   _init_attrs)%method.

(** [extend] *)
Definition extend (value : container_arg Obj) : M (Container Obj Attr) unit :=
  (value <- lift (_check_list value) ;;
   modify (fun self => mkContainer (_container self ++ value) (attributes self)) ;;;
   _init_attrs)%method.

(** [pop] *)
Definition pop (index : Z) : M (Container Obj Attr) Obj :=
  (self <- get ;;
   p <- lift (list_pop (_container self) index) ;;
   modify (fun self => mkContainer (snd p) (attributes self)) ;;;
   _init_attrs ;;;
   ret (fst p))%method.

(** [to_dict] and [from_dict] *)
Definition to_dict (self : Container Obj Attr) : list Obj := _container self.
Definition from_dict (data : container_arg Obj) : result (Container Obj Attr) :=
  __init__ data.

(** The last lines of [__call__] and of [__getattr__], on the list of
    results: a container of the same class when every result is an
    allowed instance, otherwise a [CallableList]. *)
Definition collect (results : list Obj) : result (collected Obj Attr) :=
  if _are_instances results
  then (c <- __init__ (ListLike results) ;; Ok (SameClass c))%result
  else Ok (CallableList results).

(** [__call__] without [iter_kwargs]; [call ele] is the call of the
    element [ele] with the arguments given. *)
Definition __call__ (call : Obj -> result Obj) (self : Container Obj Attr)
  : result (collected Obj Attr) :=
  (results <- mapM call (container self) ;; collect results)%result.

(** [__getattr__], for an instance that has [_container];
    [attribute ele] is [getattr(ele, name)]. *)
Definition __getattr__ (attribute : Obj -> result Obj)
    (self : Container Obj Attr) : result (collected Obj Attr) :=
  (results <- mapM attribute (_container self) ;; collect results)%result.

End Methods.

End _AbstractContainer.

(** ** dreye.core.signal *)

Module signal.

Import scipy.

(** A dtype is a callable applied to the value array ([np.float64],
    [int], ...). *)
Record dtype_fn : Type := mkDtype {
  dt_name : string;
  dt_call : np.ndarray -> result np.ndarray
}.

(** [DEFAULT_FLOAT_DTYPE] *)
Definition float64 : dtype_fn := mkDtype "float64" (fun a => Ok a).

(** Truncation towards zero. *)
Definition truncate (x : Q) : Q := inject_Z (Z.quot (Qnum x) (Zpos (Qden x))).

(** Python's builtin [int]: only an array of one element converts. *)
Definition builtin_int : dtype_fn :=
  mkDtype "int"
    (fun a =>
       match np.flatten a with
       | [x] => Ok (np.Arr0 (truncate x))
       | _ =>
           Raise (TypeError "only size-1 arrays can be converted to Python scalars")
       end).

(** What a caller may assign to [dtype]. *)
Inductive dtype_arg : Type :=
| DtNone
| DtStr (name : string)
| DtCallable (f : dtype_fn)
| DtOther.

(** The concrete class of an instance. *)
Inductive cls : Type :=
| SignalCls
| SpectrumCls
| MeasuredSpectrumCls
| CalibrationSpectrumCls.

Definition cls_eqb (a b : cls) : bool :=
  match a, b with
  | SignalCls, SignalCls
  | SpectrumCls, SpectrumCls
  | MeasuredSpectrumCls, MeasuredSpectrumCls
  | CalibrationSpectrumCls, CalibrationSpectrumCls => true
  | _, _ => false
  end.

Inductive label : Type :=
| LNum (q : Q)
| LStr (s : string).

(** Values kept in [attrs]. *)
Inductive attrval : Type :=
| ANone
| AFloat (x : np.float)
| ABool (b : bool).

Definition attrs_dict : Type := list (string * attrval).

Fixpoint attrs_get (k : string) (d : attrs_dict) : option attrval :=
  match d with
  | [] => None
  | (k', v) :: d' => if String.eqb k k' then Some v else attrs_get k d'
  end.

Fixpoint attrs_set (k : string) (v : attrval) (d : attrs_dict) : attrs_dict :=
  match d with
  | [] => [(k, v)]
  | (k', v') :: d' =>
      if String.eqb k k' then (k, v) :: d' else (k', v') :: attrs_set k v d'
  end.

Section WithUnits.

Context {U : Type} `{UnitSystem U}.

(** Modelled from the spec: the [Domain] class (dreye.core.domain), an
    ordered, unit-aware 1-dimensional coordinate axis with a dtype. *)
Record Domain : Type := mkDomain {
  dom_magnitude : list Q;
  dom_units : U;
  dom_dtype : option dtype_fn
}.

(** Modelled from the spec: the dtype mutator of [Domain]
    ([domain.dtype = value]). *)
Definition dom_set_dtype (v : option dtype_fn) (d : Domain) : Domain :=
  mkDomain (dom_magnitude d) (dom_units d) v.

(** Modelled from the spec: [Domain.start] and [Domain.end], the first and
    the last coordinate. *)
Definition dom_start (d : Domain) : Q := hd 0 (dom_magnitude d).
Definition dom_end (d : Domain) : Q := last (dom_magnitude d) 0.

(** Modelled from the spec: [Domain.to(units)]. *)
Definition dom_to (d : Domain) (units : U) : result Domain :=
  (m <- mapM (convert (dom_units d) units) (dom_magnitude d) ;;
   Ok (mkDomain m units (dom_dtype d)))%result.

(** Modelled from the spec: [Domain.__eq__], equal units and equal
    coordinates. *)
Definition dom_eqb (a b : Domain) : bool :=
  unit_eqb (dom_units a) (dom_units b)
  && Qeq_list_bool (dom_magnitude a) (dom_magnitude b).

(** What [domain_class(domain, units=...)] is called with. *)
Inductive domain_arg : Type :=
| FromDomain (d : Domain)
| FromCoords (c : coords).

(** Modelled from the spec: the constructor [Domain(values, units=units)].
    A sequence of coordinates is sorted ascending; a [Domain] is converted
    to [units]. *)
Definition domain_class (arg : domain_arg) (units : U) : result Domain :=
  match arg with
  | FromDomain d =>
      (d' <- dom_to d units ;;
       Ok (mkDomain (np.sort (dom_magnitude d')) units (dom_dtype d')))%result
  | FromCoords (C1 qs) => Ok (mkDomain (np.sort qs) units (Some float64))
  | FromCoords (C0 _) => Raise (TypeError "len() of unsized object")
  end.

Inductive labels_t : Type :=
| LabelsNone
| LabelsList (l : list label)
| LabelsDomain (d : Domain).

(** An interpolator constructor:
    [interpolator(x, y, **kwargs) -> callable]. *)
Definition interpolator_t : Type :=
  list Q -> np.ndarray -> kwargs -> result interpolant.

Inductive interpolator_arg : Type :=
| InterpNone
| InterpCallable (f : interpolator_t)
| InterpOther.

Inductive kwargs_arg : Type :=
| KwNone
| KwDict (d : kwargs)
| KwOther.

(** The instance attributes of a [Signal].  [_interpolate] is the cache of
    the [interpolate] property: the interpolant last built, if any. *)
Record Signal : Type := mkSignal {
  _class : cls;
  _values : np.ndarray;
  _units : U;
  _dtype : option dtype_fn;
  _domain : Domain;
  _domain_axis : nat;
  _labels : labels_t;
  _interpolator : interpolator_t;
  _interpolator_kwargs : kwargs;
  _domain_min : option (Quantity U Q);
  _domain_max : option (Quantity U Q);
  _signal_min : option np.bound;
  _signal_max : option np.bound;
  _attrs : option attrs_dict;
  _name : option string;
  _interpolate : option interpolant
}.

(** Field updates. *)
Definition set_values (v : np.ndarray) (s : Signal) : Signal :=
  mkSignal (_class s) v (_units s) (_dtype s) (_domain s) (_domain_axis s)
    (_labels s) (_interpolator s) (_interpolator_kwargs s) (_domain_min s)
    (_domain_max s) (_signal_min s) (_signal_max s) (_attrs s) (_name s)
    (_interpolate s).

Definition set_units (u : U) (s : Signal) : Signal :=
  mkSignal (_class s) (_values s) u (_dtype s) (_domain s) (_domain_axis s)
    (_labels s) (_interpolator s) (_interpolator_kwargs s) (_domain_min s)
    (_domain_max s) (_signal_min s) (_signal_max s) (_attrs s) (_name s)
    (_interpolate s).

Definition set_dtype (v : option dtype_fn) (s : Signal) : Signal :=
  mkSignal (_class s) (_values s) (_units s) v (_domain s) (_domain_axis s)
    (_labels s) (_interpolator s) (_interpolator_kwargs s) (_domain_min s)
    (_domain_max s) (_signal_min s) (_signal_max s) (_attrs s) (_name s)
    (_interpolate s).

Definition set_domain (d : Domain) (s : Signal) : Signal :=
  mkSignal (_class s) (_values s) (_units s) (_dtype s) d (_domain_axis s)
    (_labels s) (_interpolator s) (_interpolator_kwargs s) (_domain_min s)
    (_domain_max s) (_signal_min s) (_signal_max s) (_attrs s) (_name s)
    (_interpolate s).

Definition set_labels (l : labels_t) (s : Signal) : Signal :=
  mkSignal (_class s) (_values s) (_units s) (_dtype s) (_domain s)
    (_domain_axis s) l (_interpolator s) (_interpolator_kwargs s)
    (_domain_min s) (_domain_max s) (_signal_min s) (_signal_max s)
    (_attrs s) (_name s) (_interpolate s).

Definition set_interpolator (f : interpolator_t) (s : Signal) : Signal :=
  mkSignal (_class s) (_values s) (_units s) (_dtype s) (_domain s)
    (_domain_axis s) (_labels s) f (_interpolator_kwargs s) (_domain_min s)
    (_domain_max s) (_signal_min s) (_signal_max s) (_attrs s) (_name s)
    (_interpolate s).

Definition set_interpolator_kwargs (k : kwargs) (s : Signal) : Signal :=
  mkSignal (_class s) (_values s) (_units s) (_dtype s) (_domain s)
    (_domain_axis s) (_labels s) (_interpolator s) k (_domain_min s)
    (_domain_max s) (_signal_min s) (_signal_max s) (_attrs s) (_name s)
    (_interpolate s).

Definition set_attrs (a : option attrs_dict) (s : Signal) : Signal :=
  mkSignal (_class s) (_values s) (_units s) (_dtype s) (_domain s)
    (_domain_axis s) (_labels s) (_interpolator s) (_interpolator_kwargs s)
    (_domain_min s) (_domain_max s) (_signal_min s) (_signal_max s) a
    (_name s) (_interpolate s).

Definition set_interpolate (c : option interpolant) (s : Signal) : Signal :=
  mkSignal (_class s) (_values s) (_units s) (_dtype s) (_domain s)
    (_domain_axis s) (_labels s) (_interpolator s) (_interpolator_kwargs s)
    (_domain_min s) (_domain_max s) (_signal_min s) (_signal_max s)
    (_attrs s) (_name s) c.

(** Read-only properties. *)
Definition magnitude (s : Signal) : np.ndarray := _values s.
Definition ndim (s : Signal) : nat := np.ndim (_values s).
Definition shape (s : Signal) : list nat := np.shape (_values s).
Definition domain (s : Signal) : Domain := _domain s.
Definition units (s : Signal) : U := _units s.
Definition domain_axis (s : Signal) : nat := _domain_axis s.
Definition domain_min (s : Signal) : option (Quantity U Q) := _domain_min s.
Definition domain_max (s : Signal) : option (Quantity U Q) := _domain_max s.
Definition signal_min (s : Signal) : option np.bound := _signal_min s.
Definition signal_max (s : Signal) : option np.bound := _signal_max s.
Definition labels (s : Signal) : labels_t := _labels s.
Definition name (s : Signal) : option string := _name s.
Definition dtype (s : Signal) : option dtype_fn := _dtype s.
Definition interpolator (s : Signal) : interpolator_t := _interpolator s.

(** [values]: the array carrying units. *)
Definition values (s : Signal) : Quantity U np.ndarray :=
  mkQuantity (_values s) (units s).

(** [other_axis]: [None] for a 1-dimensional signal. *)
Definition other_axis (s : Signal) : option nat :=
  if Nat.eqb (ndim s) 1 then None
  else Some (Nat.modulo (domain_axis s + 1) 2).

Definition shape_at (a : np.ndarray) (axis : nat) : result nat :=
  match nth_error (np.shape a) axis with
  | Some n => Ok n
  | None => Raise (IndexError "tuple index out of range")
  end.

Definition other_len (s : Signal) : result nat :=
  match other_axis s with
  | None => Ok 1%nat
  | Some ax => shape_at (_values s) ax
  end.

Definition domain_len (s : Signal) : result nat :=
  shape_at (_values s) (domain_axis s).

(** Modelled from the spec: [copy()], a shallow copy of the instance. *)
Definition copy (s : Signal) : Signal := s.

(** *** Setters *)

(** [dtype.setter].  [np_dtype_type name] is [np.dtype(name).type]: the
    scalar type numpy knows under [name], or the [TypeError] it raises for
    a name it does not understand. *)
Definition dtype_setter (np_dtype_type : string -> result dtype_fn)
    (value : dtype_arg) : M Signal unit :=
  (value <- lift (match value with
                  | DtNone => Ok None
                  | DtStr name => (f <- np_dtype_type name ;; Ok (Some f))%result
                  | DtCallable f => Ok (Some f)
                  | DtOther => Raise (AttributeError "dtype attribute: must be callable.")
                  end) ;;
   modify (set_dtype value) ;;;
   modify (fun self => set_domain (dom_set_dtype value (domain self)) self) ;;;
   self <- get ;;
   converted <- lift (match value with
                      | None => Raise (TypeError "'NoneType' object is not callable")
                      | Some f => dt_call f (_values self)
                      end) ;;
   modify (set_values converted))%method.

(** What a caller may assign to [values]: an array with or without
    units. *)
Inductive values_arg : Type :=
| HasUnits (q : Quantity U np.ndarray)
| Plain (a : np.ndarray).

(** [value.to(units)] on an array. *)
Definition array_to (src dst : U) (a : np.ndarray) : result np.ndarray :=
  match a with
  | np.Arr0 x => (v <- convert src dst x ;; Ok (np.Arr0 v))%result
  | np.Arr1 xs => (v <- mapM (convert src dst) xs ;; Ok (np.Arr1 v))%result
  | np.Arr2 rows =>
      (v <- mapM (mapM (convert src dst)) rows ;; Ok (np.Arr2 v))%result
  end.

(** [values.setter] *)
Definition values_setter (value : values_arg) : M Signal unit :=
  (self <- get ;;
   value <- lift (match value with
                  | HasUnits q => array_to (q_units q) (units self) (q_magnitude q)
                  | Plain a => Ok a
                  end) ;;
   if negb (np.shape_eqb (np.shape value) (shape self))
   then raise (DreyeError "Array for values assignment must be same shape.")
   else modify (set_values value))%method.

(** [interpolator.setter] *)
Definition interpolator_setter (value : interpolator_arg) : M Signal unit :=
  match value with
  | InterpNone => ret tt
  | InterpCallable f =>
      (modify (set_interpolator f) ;;;
       modify (set_interpolate None))%method
  | InterpOther => raise (TypeError "interpolator needs to be a callable.")
  end.

(** The [interpolator_kwargs] property: reading it writes the axis into
    the dictionary. *)
Definition interpolator_kwargs : M Signal kwargs :=
  (modify (fun self =>
             set_interpolator_kwargs
               (kwargs_set "axis" (PInt (Z.of_nat (domain_axis self)))
                  (_interpolator_kwargs self))
               self) ;;;
   self <- get ;;
   ret (_interpolator_kwargs self))%method.

(** [interpolator_kwargs.setter] *)
Definition interpolator_kwargs_setter (value : kwargs_arg) : M Signal unit :=
  match value with
  | KwNone => ret tt
  | KwDict d =>
      (modify (set_interpolator_kwargs d) ;;;
       modify (set_interpolate None))%method
  | KwOther => raise (TypeError "interpolator_kwargs must be dict.")
  end.

(** *** Interpolation *)

(** [_clip_values] *)
Definition _clip_values (values : np.ndarray) (a_min a_max : option np.bound)
  : result np.ndarray :=
  match a_min, a_max with
  | None, None => Ok values
  | _, _ => np.clip values a_min a_max
  end.

(** The closure [clip_wrapper] built by [interpolate] around the
    interpolant [interp]; the clip bounds are those of the instance. *)
Definition clip_wrapper (self : Signal) (interp : interpolant) : interpolant :=
  fun args =>
    (v <- interp args ;;
     _clip_values v (signal_min self) (signal_max self))%result.

(** The raw interpolant behind the [interpolate] property: built from the
    domain and the values on first use and kept in [_interpolate]. *)
Definition cached_interpolant : M Signal interpolant :=
  (self <- get ;;
   match _interpolate self with
   | Some interp => ret interp
   | None =>
       kw <- interpolator_kwargs ;;
       self <- get ;;
       interp <- lift (interpolator self (dom_magnitude (domain self))
                         (magnitude self) kw) ;;
       modify (set_interpolate (Some interp)) ;;;
       ret interp
   end)%method.

(** The [interpolate] property. *)
Definition interpolate : M Signal interpolant :=
  (interp <- cached_interpolant ;;
   self <- get ;;
   ret (clip_wrapper self interp))%method.

(** What [__call__] is given: a [Domain], or plain coordinates taken to be
    in the units of the signal's domain. *)
Inductive query : Type :=
| QDomain (d : Domain)
| QCoords (c : coords).

(** What [__call__] returns: a bare array with units, or a new signal. *)
Inductive call_result : Type :=
| Bare (v : Quantity U np.ndarray)
| Resampled (s : Signal).

Definition asarray_domain (d : domain_arg) : coords :=
  match d with
  | FromDomain d => C1 (dom_magnitude d)
  | FromCoords c => c
  end.

(** The check of [domain_min] in [__call__]. *)
Definition check_domain_min (self : Signal) (domain : domain_arg)
    (domain_units : U) : result unit :=
  match domain_min self with
  | None => Ok tt
  | Some dm =>
      (domain_min <- convert (q_units dm) domain_units (q_magnitude dm) ;;
       lowest <- np.min (coords_array (asarray_domain domain)) ;;
       if Qlt_bool domain_min lowest
       then Raise (DreyeError "Interpolation domain above domain minimum.")
       else Ok tt)%result
  end.

(** The check of [domain_max] in [__call__]. *)
Definition check_domain_max (self : Signal) (domain : domain_arg)
    (domain_units : U) : result unit :=
  match domain_max self with
  | None => Ok tt
  | Some dm =>
      (domain_max <- convert (q_units dm) domain_units (q_magnitude dm) ;;
       highest <- np.max (coords_array (asarray_domain domain)) ;;
       if Qlt_bool highest domain_max
       then Raise (DreyeError "Interpolation domain below domain maximum.")
       else Ok tt)%result
  end.

(** The rank-reduction test of [__call__]. *)
Definition is_single_value (self : Signal) (values : np.ndarray) : result bool :=
  if Nat.ltb (np.ndim values) (ndim self) then Ok true
  else (n <- shape_at values (domain_axis self) ;; Ok (Nat.eqb n 1))%result.

(** The first lines of [__call__]: the units the new domain will carry,
    and the query in the units of the signal's own domain. *)
Definition convert_query (self : Signal) (domain : query)
  : result (U * domain_arg) :=
  let domain_units := dom_units (_domain self) in
  match domain with
  | QDomain d =>
      (d' <- dom_to d (dom_units (_domain self)) ;;
       Ok (dom_units d, FromDomain d'))%result
  | QCoords c => Ok (domain_units, FromCoords c)
  end.

(** [__call__] *)
Definition __call__ (domain : query) : M Signal call_result :=
  (self <- get ;;
   p <- lift (convert_query self domain) ;;
   let domain_units := fst p in
   let domain := snd p in
   lift (check_domain_min self domain domain_units) ;;;
   lift (check_domain_max self domain domain_units) ;;;
   interp <- interpolate ;;
   values <- lift (interp (asarray_domain domain)) ;;
   self <- get ;;
   single <- lift (is_single_value self values) ;;
   if single then ret (Bare (mkQuantity values (units self)))
   else
     let self := copy self in
     let self := set_values values self in
     new_domain <- lift (domain_class domain domain_units) ;;
     ret (Resampled (set_domain new_domain self)))%method.

(** *** Integral and normalisation *)

(** [integral] *)
Definition integral (self : Signal) : result (Quantity U np.ndarray) :=
  (v <- np.trapz (magnitude self) (dom_magnitude (domain self)) (domain_axis self) ;;
   Ok (mkQuantity v (unit_mul (units self) (dom_units (domain self)))))%result.

(** Modelled from the spec: [self / self._broadcast(q, self.other_axis)],
    the division of every channel by its own entry of [q]
    ([__truediv__] and [_broadcast] of [AbstractSignal]). *)
Definition divide_by_channel (self : Signal) (q : Quantity U np.ndarray)
  : result Signal :=
  (v <- match magnitude self, q_magnitude q with
        | np.Arr1 ys, np.Arr0 i => Ok (np.Arr1 (List.map (fun y => y / i) ys))
        | np.Arr2 rows, np.Arr1 is_ =>
            match domain_axis self with
            | O =>
                Ok (np.Arr2 (List.map (fun row => np.zip_with Qdiv row is_) rows))
            | _ =>
                Ok (np.Arr2 (np.zip_with (fun row i => List.map (fun y => y / i) row)
                               rows is_))
            end
        | _, _ => Raise (ValueError "operands could not be broadcast together")
        end ;;
   Ok (set_interpolate None
         (set_units (unit_div (units self) (q_units q))
            (set_values v (copy self)))))%result.

(** [normalized_signal] *)
Definition normalized_signal (self : Signal) : result Signal :=
  (i <- integral self ;;
   divide_by_channel self i)%result.

(** *** Equality *)

(** Modelled from the spec: [array_equal] of dreye.utilities, equal
    shapes and element-wise equal entries. *)
Definition array_equal (a b : np.ndarray) : bool :=
  match a, b with
  | np.Arr0 x, np.Arr0 y => Qeq_bool x y
  | np.Arr1 xs, np.Arr1 ys => Qeq_list_bool xs ys
  | np.Arr2 r1, np.Arr2 r2 => Qeq_rows_bool r1 r2
  | _, _ => false
  end.

(** [__eq__] *)
Definition __eq__ (self other : Signal) : bool :=
  if negb (cls_eqb (_class self) (_class other)) then false
  else
    unit_eqb (units self) (units other)
    && dom_eqb (domain self) (domain other)
    && array_equal (magnitude self) (magnitude other).

(** [_check_clip_value] *)
Definition _check_clip_value (self : Signal) (value : option np.bound)
  : result unit :=
  match value with
  | Some (np.BList l) =>
      (n <- other_len self ;;
       if Nat.eqb (ndim self) 2 then
         if Nat.eqb (length l) n then Ok tt
         else Raise (AssertionError "")
       else if Nat.eqb (length l) n then Ok tt
            else Raise (ValueError "signal is one-dimensional but clipping is list-like."))%result
  | _ => Ok tt
  end.

(** *** Extremes *)

(** [boundaries]: per channel the lowest and the highest value,
    [asarray([np.min(..., axis), np.max(..., axis)]).T]. *)
Definition boundaries (self : Signal) : result np.ndarray :=
  (lo <- np.min_axis (magnitude self) (domain_axis self) ;;
   hi <- np.max_axis (magnitude self) (domain_axis self) ;;
   match lo, hi with
   | np.Arr0 l, np.Arr0 h => Ok (np.Arr1 [l; h])
   | np.Arr1 l, np.Arr1 h => Ok (np.T (np.Arr2 [l; h]))
   | _, _ => Raise (ValueError "setting an array element with a sequence.")
   end)%result.

End WithUnits.

Arguments Domain U : clear implicits.
Arguments Signal U : clear implicits.
Arguments labels_t U : clear implicits.
Arguments domain_arg U : clear implicits.
Arguments query U : clear implicits.
Arguments call_result U : clear implicits.
Arguments values_arg U : clear implicits.

End signal.

(** ** dreye.core.spectral_measurement: CalibrationSpectrum *)

Module CalibrationSpectrum.

Import signal common.

Section WithUnits.

Context {U : Type} `{UnitSystem U}.

(** The instance: the signal and the entry ['_area'] of its [attrs].
    The values of [attrs_dict] are [None], floats and booleans; the area
    is a pint quantity, which is not among them.  So the dictionary
    [attrs] is held in two parts: [_area] is its entry under the key
    ['_area'] once that entry was written here ([None] before), and
    [_attrs] of the signal holds the entries it had. *)
Record Instance : Type := mkInstance {
  base : Signal U;
  _area : option (pyobj U)
}.

(** An entry of [_attrs] as a Python object. *)
Definition as_object (v : attrval) : pyobj U :=
  match v with
  | ANone => Plain PyNone
  | AFloat x => Plain (PyFloat x)
  | ABool b => Plain (PyBool b)
  end.

(** The entries of [_attrs]; none when it is [None]. *)
Definition entries (s : Signal U) : attrs_dict :=
  match _attrs s with
  | None => []
  | Some d => d
  end.

(** The [attrs] property of [Signal] (signal.py, 192-200): reading it
    creates the dictionary when [_attrs] is [None]. *)
Definition attrs : M Instance unit :=
  modify (fun self =>
            mkInstance (set_attrs (Some (entries (base self))) (base self))
              (_area self)).

(** The dictionary lookup [d.get('_area')] on the two parts. *)
Definition lookup_area (self : Instance) : option (pyobj U) :=
  match _area self with
  | Some a => Some a
  | None => option_map as_object (attrs_get "_area" (entries (base self)))
  end.

(** [self.attrs.get('_area', default)] *)
Definition attrs_get_area (default : pyobj U) : M Instance (pyobj U) :=
  (attrs ;;;
   self <- get ;;
   ret (match lookup_area self with
        | Some a => a
        | None => default
        end))%method.

(** [self.attrs['_area'] = value] *)
Definition attrs_set_area (value : pyobj U) : M Instance unit :=
  (attrs ;;;
   modify (fun self => mkInstance (base self) (Some value)))%method.

(** [area.to(area_units)] *)
Definition quantity_to (area : pyobj U) (area_units : U) : result (pyobj U) :=
  match area with
  | PyQuantity m u =>
      (m' <- magnitude_to u area_units m ;; Ok (PyQuantity m' area_units))%result
  | _ => Raise (AttributeError "object has no attribute 'to'")
  end.

(** [area * ureg(area_units)], for [area] without units:
    [ureg(area_units)] is the quantity 1 in these units.  pint takes no
    [bool] for a magnitude. *)
Definition times_units (area : pyobj U) (area_units : U) : result (pyobj U) :=
  match area with
  | Plain (PyInt z) => Ok (PyQuantity (PyInt z) area_units)
  | Plain (PyFloat x) => Ok (PyQuantity (PyFloat x) area_units)
  | Plain (NumpyInt z) => Ok (PyQuantity (NumpyInt z) area_units)
  | Plain (NumpyArray a) => Ok (PyQuantity (NumpyArray a) area_units)
  | PyUnit u => Ok (PyQuantity (PyInt 1) (unit_mul u area_units))
  | _ => Raise (TypeError "unsupported operand type(s) for *")
  end.

Definition is_None (obj : pyobj U) : bool :=
  match obj with
  | Plain PyNone => true
  | _ => false
  end.

(** [CalibrationSpectrum.__init__].  [values_is_calibration] is
    [isinstance(values, CalibrationSpectrum)]; the state is the one
    [super().__init__] leaves, which is run after the first check.  The
    first message names the class of the instance, here the class itself;
    the second one goes on, in the source, to name the type of [area]. *)
Definition __init__ (values_is_calibration : bool) (area : pyobj U)
    (area_units : U) : M Instance unit :=
  ((if is_None area && negb values_is_calibration
    then raise (DreyeError "Must provide 'area' argument to initialize CalibrationSpectrum.")
    else ret tt) ;;;
   area <- (if is_None area then attrs_get_area area else ret area) ;;
   area <- lift (if negb (is_numeric area)
                 then Raise (DreyeError "'area' argument must be a numeric value.")
                 else if has_units area then quantity_to area area_units
                 else times_units area area_units) ;;
   attrs_set_area area ;;;
   self <- get ;;
   if negb (Nat.eqb (ndim (base self)) 1)
   then raise (DreyeError "Calibration spectrum must always be one dimensional")
   else ret tt)%method.

(** [area]: [self.attrs['_area']] *)
Definition area : M Instance (pyobj U) :=
  (attrs ;;;
   self <- get ;;
   match lookup_area self with
   | Some a => ret a
   | None => raise (KeyError "_area")
   end)%method.

End WithUnits.

Arguments Instance U : clear implicits.

End CalibrationSpectrum.

(** ** dreye.core.spectral_measurement: MeasuredSpectrum *)

Module MeasuredSpectrum.

Import scipy signal.

Section WithUnits.

Context {U : Type} `{UnitSystem U}.

(** The [attrs] property: the dictionary, empty when [_attrs] is
    [None]. *)
Definition attrs (self : Signal U) : attrs_dict :=
  match _attrs self with
  | None => []
  | Some d => d
  end.

(** [self.attrs[key] = value] *)
Definition attrs_setitem (key : string) (value : attrval) : M (Signal U) unit :=
  modify (fun self => set_attrs (Some (attrs_set key value (attrs self))) self).

(** [self.attrs.get(key, None)] *)
Definition attrs_get_or_none (self : Signal U) (key : string) : attrval :=
  match attrs_get key (attrs self) with
  | Some v => v
  | None => ANone
  end.

Definition is_none (v : attrval) : bool :=
  match v with
  | ANone => true
  | _ => false
  end.

(** [self.attrs['_zero_is_lower']] *)
Definition zero_is_lower (self : Signal U) : result bool :=
  match attrs_get "_zero_is_lower" (attrs self) with
  | Some (ABool b) => Ok b
  | Some _ => Raise (TypeError "zero_is_lower is not a boolean")
  | None => Raise (KeyError "_zero_is_lower")
  end.

Definition boundary_attr (key : string) (self : Signal U)
  : result (option np.float) :=
  match attrs_get key (attrs self) with
  | Some (AFloat x) => Ok (Some x)
  | Some ANone => Ok None
  | Some (ABool _) => Raise (TypeError "boundary is not a number")
  | None => Raise (KeyError key)
  end.

(** [self.attrs['_zero_boundary']] *)
Definition zero_boundary (self : Signal U) : result (option np.float) :=
  boundary_attr "_zero_boundary" self.

(** [self.attrs['_max_boundary']] *)
Definition max_boundary (self : Signal U) : result (option np.float) :=
  boundary_attr "_max_boundary" self.

(** Modelled from the spec: [_convert_get_val_opt(value, units)] of
    dreye.utilities, the magnitude of [value] in [units]; a plain number
    and [None] come back as they are. *)
Definition _convert_get_val_opt (value : attrval) (units : U) : attrval := value.

(** [a < b] on floats: false when either is NaN. *)
Definition float_lt (a b : np.float) : bool :=
  match a, b with
  | np.fin x, np.fin y => Qlt_bool x y
  | _, _ => false
  end.

Definition label_numbers (l : labels_t U) : result (list Q) :=
  match l with
  | LabelsList l =>
      mapM (fun x =>
              match x with
              | LNum q => Ok q
              | LStr _ => Raise (TypeError "could not convert string to float")
              end) l
  | LabelsNone => Raise (ValueError "axis 0 is out of bounds for array of dimension 0")
  | LabelsDomain d => Ok (dom_magnitude d)
  end.

(** [np.all(np.diff(sorted_idcs) == 1)] *)
Definition consecutive (idcs : list nat) : bool :=
  forallb (Z.eqb 1) (np.diffZ (List.map Z.of_nat idcs)).

Definition rows_of (a : np.ndarray) : list (list Q) :=
  match a with
  | np.Arr2 rows => rows
  | _ => []
  end.

(** The body of the [try] block of [__init__]: labels that are not a
    [Domain] are made into one, and the values are reordered when the
    labels were not ascending. *)
Definition labels_into_domain (label_units : option U) : M (Signal U) unit :=
  (self <- get ;;
   numbers <- lift (label_numbers (labels self)) ;;
   let sorted_idcs := np.argsort numbers in
   new_labels <- lift (domain_class (FromCoords (C1 numbers))
                         (match label_units with Some u => u | None => unit_none end)) ;;
   modify (set_labels (LabelsDomain new_labels)) ;;;
   if negb (consecutive sorted_idcs) then
     (self <- get ;;
      axis <- lift (match other_axis self with
                    | Some ax => Ok ax
                    | None => Raise (TypeError "an integer is required")
                    end) ;;
      taken <- lift (np.take_along_axis (rows_of (magnitude self))
                       (np.IArr1 sorted_idcs) axis) ;;
      modify (set_values (np.Arr2 taken)))
   else ret tt)%method.

Definition is_domain (l : labels_t U) : bool :=
  match l with
  | LabelsDomain _ => true
  | _ => false
  end.

(** [MeasuredSpectrum.__init__], from the state [super().__init__] left. *)
Definition __init__ (zero_boundary max_boundary : option np.float)
    (zero_is_lower : option bool) (label_units : option U)
  : M (Signal U) unit :=
  (self <- get ;;
   (if negb (Nat.eqb (ndim self) 2)
    then raise (DreyeError "MeasuredSpectrum must be two-dimensional.")
    else ret tt) ;;;
   (if negb (is_domain (labels self)) then
      try_except (labels_into_domain label_units)
        (fun _ => raise (DreyeError
                           "Labels must be domain or be able to be made into domain."))
    else
      match labels self, label_units with
      | LabelsDomain d, Some u =>
          (d' <- lift (dom_to d u) ;; modify (set_labels (LabelsDomain d')))
      | _, _ => ret tt
      end) ;;;
   self <- get ;;
   (match name self with
    | None => raise (DreyeError "name variable must be provided for MeasuredSpectrum instance.")
    | Some _ => ret tt
    end) ;;;
   (match zero_boundary with
    | Some v => attrs_setitem "_zero_boundary" (AFloat v)
    | None => ret tt
    end) ;;;
   (match max_boundary with
    | Some v => attrs_setitem "_max_boundary" (AFloat v)
    | None => ret tt
    end) ;;;
   (match zero_is_lower with
    | Some b => attrs_setitem "_zero_is_lower" (ABool b)
    | None => ret tt
    end) ;;;
   self <- get ;;
   units <- lift (match labels self with
                  | LabelsDomain d => Ok (dom_units d)
                  | _ => Raise (AttributeError "labels has no attribute 'units'")
                  end) ;;
   attrs_setitem "_zero_boundary"
     (_convert_get_val_opt (attrs_get_or_none self "_zero_boundary") units) ;;;
   self <- get ;;
   attrs_setitem "_max_boundary"
     (_convert_get_val_opt (attrs_get_or_none self "_max_boundary") units) ;;;
   self <- get ;;
   (if is_none (attrs_get_or_none self "_zero_is_lower")
       && (is_none (attrs_get_or_none self "_max_boundary")
           || is_none (attrs_get_or_none self "_zero_boundary"))
    then raise (DreyeError "Must provide zero_is_lower or max and zero boundary.")
    else ret tt) ;;;
   if is_none (attrs_get_or_none self "_zero_is_lower") then
     match attrs_get_or_none self "_zero_boundary",
           attrs_get_or_none self "_max_boundary" with
     | AFloat z, AFloat m => attrs_setitem "_zero_is_lower" (ABool (float_lt z m))
     | _, _ => raise (TypeError "'<' not supported between these instances")
     end
   else ret tt)%method.

End WithUnits.

End MeasuredSpectrum.

(** ** dreye.core.spectral_measurement: MeasuredSpectraContainer *)

Module MeasuredSpectraContainer.

Import scipy signal.

Section WithUnits.

Context {U : Type} `{UnitSystem U}.

(** The isotonic-regression capability:
    [IsotonicRegression(y_min, y_max, increasing).fit_transform(x, y)]. *)
Variable IsotonicRegression_fit_transform :
  Q -> Q -> bool -> list Q -> list Q -> result (list Q).

(** The inverse interpolant
    [interp1d(new_y, x, bounds_error=False, fill_value=(lower, upper))],
    applied to a column of intensities. *)
Variable interp1d_filled :
  list Q -> list Q -> Q * Q -> list Q -> result (list Q).

(** A fitted per-channel mapper. *)
Definition mapper_t : Type := list Q -> result (list Q).

(** The container: its elements, the cache [_mapper], and a trace of the
    columns handed to the per-channel mappers (the trace is not a field of
    the source; it records the calls [self._mapper[idx](x[:, idx])]).
    The other cached attributes of [_init_keys] memoise functions of the
    elements and are computed below from the elements. *)
Record Container : Type := mkContainer {
  _container : list (Signal U);
  _mapper : option (list mapper_t);
  mapper_calls : list (nat * list Q)
}.

Definition set_mapper (m : option (list mapper_t)) (c : Container) : Container :=
  mkContainer (_container c) m (mapper_calls c).

Definition record_call (idx : nat) (column : list Q) (c : Container) : Container :=
  mkContainer (_container c) (_mapper c) (mapper_calls c ++ [(idx, column)]).

(** [_AbstractContainer.__init__] *)
Definition __init__ (container : list (Signal U)) : Container :=
  mkContainer container None [].

(** [zero_is_lower] *)
Definition zero_is_lower (self : Container) : result (list bool) :=
  mapM MeasuredSpectrum.zero_is_lower (_container self).

(** [zero_boundary]: an array holding [None] where the boundary is
    undefined. *)
Definition zero_boundary (self : Container) : result (list (option np.float)) :=
  mapM MeasuredSpectrum.zero_boundary (_container self).

(** [max_boundary] *)
Definition max_boundary (self : Container) : result (list (option np.float)) :=
  mapM MeasuredSpectrum.max_boundary (_container self).

Definition labels_domain (ele : Signal U) : result (Domain U) :=
  match labels ele with
  | LabelsDomain d => Ok d
  | _ => Raise (AttributeError "labels has no attribute 'start'")
  end.

(** [starts] *)
Definition starts (self : Container) : result (list Q) :=
  mapM (fun ele => (d <- labels_domain ele ;; Ok (dom_start d))%result)
       (_container self).

(** [ends] *)
Definition ends (self : Container) : result (list Q) :=
  mapM (fun ele => (d <- labels_domain ele ;; Ok (dom_end d))%result)
       (_container self).

(** [intensities_list]: for every element the control inputs (the domain
    of the intensity signal) and the integrals of its spectra (the
    magnitude). *)
Definition intensities_list (self : Container) : result (list (list Q * list Q)) :=
  mapM (fun ele =>
          (i <- integral ele ;;
           d <- labels_domain ele ;;
           Ok (dom_magnitude d, np.flatten (q_magnitude i)))%result)
       (_container self).

(** [np.isnan] of the boundary array: an array holding [None] has dtype
    object, which [np.isnan] rejects. *)
Definition isnan_array (a : list (option np.float)) : result (list bool) :=
  mapM (fun o =>
          match o with
          | None => Raise (TypeError "ufunc 'isnan' not supported for the input types")
          | Some x => Ok (np.isnan x)
          end) a.

(** [bounds]: per channel the lowest and the highest intensity, the lowest
    set to zero where a zero boundary exists. *)
Definition bounds (self : Container) : result (list Q * list Q) :=
  (signals <- intensities_list self ;;
   extremes <- mapM (fun xy =>
                       (lo <- np.min (np.Arr1 (snd xy)) ;;
                        hi <- np.max (np.Arr1 (snd xy)) ;;
                        Ok (lo, hi))%result) signals ;;
   zb <- zero_boundary self ;;
   nans <- isnan_array zb ;;
   match extremes with
   | [] => Raise (IndexError "too many indices for array")
   | _ =>
       Ok (np.mask_assign (List.map fst extremes) (List.map negb nans)
             (List.map (fun _ => 0) extremes),
           List.map snd extremes)
   end)%result.

(** [a[np.isnan(a)] = fallback[np.isnan(a)]] *)
Fixpoint fill_nan (a : list np.float) (fallback : list Q) : list Q :=
  match a, fallback with
  | x :: a', f :: fallback' =>
      match x with
      | np.nan => f
      | np.fin q => q
      end :: fill_nan a' fallback'
  | _, _ => []
  end.

(** [lower_boundary] *)
Definition lower_boundary (self : Container) : result (list Q) :=
  (mask <- zero_is_lower self ;;
   match mask with
   | [] => Raise (IndexError "arrays used as indices must be of integer (or boolean) type")
   | _ =>
       let lower_boundary := repeat (np.fin 0) (length mask) in
       zb <- zero_boundary self ;;
       let lower_boundary :=
         np.mask_assign lower_boundary mask (List.map np.float_of_object zb) in
       mb <- max_boundary self ;;
       let lower_boundary :=
         np.mask_assign lower_boundary (List.map negb mask)
           (List.map np.float_of_object mb) in
       st <- starts self ;;
       Ok (fill_nan lower_boundary st)
   end)%result.

(** [upper_boundary] *)
Definition upper_boundary (self : Container) : result (list Q) :=
  (mask <- zero_is_lower self ;;
   match mask with
   | [] => Raise (IndexError "arrays used as indices must be of integer (or boolean) type")
   | _ =>
       let upper_boundary := repeat (np.fin 0) (length mask) in
       zb <- zero_boundary self ;;
       let upper_boundary :=
         np.mask_assign upper_boundary (List.map negb mask)
           (List.map np.float_of_object zb) in
       mb <- max_boundary self ;;
       let upper_boundary :=
         np.mask_assign upper_boundary mask (List.map np.float_of_object mb) in
       en <- ends self ;;
       Ok (fill_nan upper_boundary en)
   end)%result.

(** [domain_bounds] *)
Definition domain_bounds (self : Container) : result (list (Q * Q)) :=
  (lo <- lower_boundary self ;;
   hi <- upper_boundary self ;;
   Ok (combine lo hi))%result.

Definition getitem {A} (l : list A) (idx : nat) : result A :=
  match nth_error l idx with
  | Some a => Ok a
  | None => Raise (IndexError "index out of range")
  end.

(** The extension of the samples by the zero boundary in
    [_get_single_mapper]. *)
Definition add_zero (zero_is_lower : bool) (zero_boundary : option np.float)
    (x y : list Q) : result (list Q * list Q) :=
  match zero_boundary with
  | None => Ok (x, y)
  | Some zb =>
      (is_below <- (if zero_is_lower
                    then (m <- np.min (np.Arr1 x) ;;
                          Ok (MeasuredSpectrum.float_lt zb (np.fin m)))
                    else Ok false) ;;
       if is_below then
         match zb with
         | np.fin z => Ok (np.concatenate [z] x, np.concatenate [0] y)
         | np.nan => Ok (x, y)
         end
       else
         (is_above <- (if negb zero_is_lower
                       then (m <- np.max (np.Arr1 x) ;;
                             Ok (MeasuredSpectrum.float_lt (np.fin m) zb))
                       else Ok false) ;;
          if is_above then
            Raise (AttributeError "module 'numpy' has no attribute 'concateante'")
          else Ok (x, y)))%result
  end.

(** [_get_single_mapper] *)
Definition _get_single_mapper (self : Container) (idx : nat) (ele : Signal U)
  : result mapper_t :=
  (signals <- intensities_list self ;;
   signal <- getitem signals idx ;;
   zero_is_lower <- MeasuredSpectrum.zero_is_lower ele ;;
   zero_boundary <- MeasuredSpectrum.zero_boundary ele ;;
   let y := snd signal in
   let x := fst signal in
   xy <- add_zero zero_is_lower zero_boundary x y ;;
   let x := fst xy in
   let y := snd xy in
   b <- bounds self ;;
   y_min <- getitem (fst b) idx ;;
   y_max <- getitem (snd b) idx ;;
   new_y <- IsotonicRegression_fit_transform y_min y_max zero_is_lower x y ;;
   db <- domain_bounds self ;;
   fill_value <- getitem db idx ;;
   Ok (interp1d_filled new_y x fill_value))%result.

Definition enumerate {A} (l : list A) : list (nat * A) :=
  combine (seq 0 (length l)) l.

(** A loop over a list in the method monad. *)
Fixpoint for_each {S A B} (f : A -> M S B) (l : list A) : M S (list B) :=
  match l with
  | [] => ret []
  | a :: l' =>
      (b <- f a ;;
       bs <- for_each f l' ;;
       ret (b :: bs))%method
  end.

(** [self._mapper[idx](x[:, idx])], one turn of the loop of
    [_mapper_func]. *)
Definition apply_mapper (x : list (list Q)) (idx : nat) : M Container (list Q) :=
  (self <- get ;;
   mapper <- lift (getitem (match _mapper self with
                            | Some ms => ms
                            | None => []
                            end) idx) ;;
   modify (record_call idx (np.column idx x)) ;;;
   lift (mapper (np.column idx x)))%method.

(** [_mapper_func] *)
Definition _mapper_func (x : list (list Q)) : M Container (list (list Q)) :=
  (self <- get ;;
   (match _mapper self with
    | Some _ => ret tt
    | None =>
        (mappers <- lift (mapM (fun p => _get_single_mapper self (fst p) (snd p))
                            (enumerate (_container self))) ;;
         modify (set_mapper (Some mappers)))
    end) ;;;
   outs <- for_each (apply_mapper x) (seq 0 (np.ncols x)) ;;
   ret (List.map (fun i => List.map (fun out => nth i out 0) outs)
          (seq 0 (length x))))%method.

(** [label_units] *)
Definition label_units (self : Container) : result U :=
  (ds <- mapM labels_domain (_container self) ;;
   match List.map dom_units ds with
   | [] => Raise (IndexError "list index out of range")
   | u :: us =>
       if forallb (unit_eqb u) us then Ok u
       else Raise (DreyeError "Input units do not match.")
   end)%result.

(** [_post_mapping] *)
Definition _post_mapping (self : Container) (x : np.ndarray) (units : bool)
  : result (Quantity U np.ndarray) :=
  (units <- (if units then label_units self else Ok unit_none) ;;
   lo <- lower_boundary self ;;
   hi <- upper_boundary self ;;
   clipped_lo <- np.broadcast_rows np.maximum (np.atleast_2d x) lo ;;
   clipped <- np.broadcast_rows np.minimum clipped_lo hi ;;
   Ok (mkQuantity (np.Arr2 clipped) units))%result.

(** [_pre_mapping] *)
Definition _pre_mapping (self : Container) (values : np.ndarray)
  : result np.ndarray :=
  (b <- bounds self ;;
   let min := fst b in
   let max := snd b in
   above <- np.broadcast_rows (fun v m => Qle_bool m v) (np.atleast_2d values) min ;;
   let truth := np.all above in
   below <- np.broadcast_rows (fun v m => Qle_bool v m) (np.atleast_2d values) max ;;
   let truth := truth && np.all below in
   if truth then Ok values
   else Raise (AssertionError "some values to be mapped are out of bounds."))%result.

(** [map], for [values] given as magnitudes in the intensity units. *)
Definition map (values : np.ndarray) (units : bool)
  : M Container (Quantity U np.ndarray) :=
  (self <- get ;;
   values <- lift (_pre_mapping self values) ;;
   (if Nat.ltb (np.ndim values) 3 then ret tt
    else raise (AssertionError "values must be 1 or 2 dimensional")) ;;;
   x <- _mapper_func (np.atleast_2d values) ;;
   x <- lift (if Nat.eqb (np.ndim values) 1
              then (r <- getitem x 0 ;; Ok (np.Arr1 r))%result
              else Ok (np.Arr2 x)) ;;
   self <- get ;;
   lift (_post_mapping self x units))%method.

End WithUnits.

Arguments Container U : clear implicits.

(** The class attributes [_allowed_instances = MeasuredSpectrum] and
    [_init_keys] of [MeasuredSpectraContainer]. *)
#[export] Instance subclass {U : Type} : _AbstractContainer.Subclass (signal.Signal U) := {
  isinstance_allowed := fun ele =>
    signal.cls_eqb (signal._class ele) signal.MeasuredSpectrumCls;
  _init_keys :=
    ["_zero_is_lower"; "_zero_boundary"; "_max_boundary";
     "_intensities_list"; "_intensities"; "_normalized_spectrum_list";
     "_normalized_spectrum"; "_mapper"]%string
}.

End MeasuredSpectraContainer.

(** ** Vocabulary of the properties *)

Section Vocabulary.

Context {U : Type} `{UnitSystem U}.

Import signal.

(** A boundary when it is defined (neither [None] nor NaN), otherwise the
    fallback. *)
Definition defined_or (b : option np.float) (fallback : Q) : Q :=
  match b with
  | Some (np.fin q) => q
  | _ => fallback
  end.

(** The intensity [v] lies within the bounds of channel
    [idx]. *)
Definition within (lo hi : list Q) (idx : nat) (v : Q) : Prop :=
  exists l h,
    nth_error lo idx = Some l /\ nth_error hi idx = Some h
    /\ l <= v /\ v <= h.

(** Some entry of a sample-by-channel array lies outside the bounds of
    its channel. *)
Definition some_entry_outside (lo hi : list Q) (rows : list (list Q)) : Prop :=
  exists row idx v l h,
    In row rows /\ nth_error row idx = Some v
    /\ nth_error lo idx = Some l /\ nth_error hi idx = Some h
    /\ (v < l \/ h < v).

(** A cache of mappers, when present, holds one mapper per element. *)
Definition cache_matches (c : MeasuredSpectraContainer.Container U) : Prop :=
  forall ms,
    MeasuredSpectraContainer._mapper c = Some ms ->
    length ms = length (MeasuredSpectraContainer._container c).

(** An element as [MeasuredSpectrum.__init__] leaves it: the polarity flag
    and both boundary entries are in [attrs] and the labels are a
    [Domain]. *)
Definition constructed (ele : Signal U) : Prop :=
  (exists b, MeasuredSpectrum.zero_is_lower ele = Ok b)
  /\ (exists z, MeasuredSpectrum.zero_boundary ele = Ok z)
  /\ (exists m, MeasuredSpectrum.max_boundary ele = Ok m)
  /\ (exists d, labels ele = LabelsDomain d).

End Vocabulary.

(** ** Queries and the domain guard *)

Section Guard.

Context {U : Type} `{UnitSystem U}.

Import scipy signal.


(** [bound.to(units).magnitude] for a bound that is configured. *)
Definition bound_in (b : option (Quantity U Q)) (units : U) : result (option Q) :=
  match b with
  | None => Ok None
  | Some q =>
      (m <- convert (q_units q) units (q_magnitude q) ;; Ok (Some m))%result
  end.

(** The query range exceeds the configured bounds: some coordinate lies
    below [domain_min] or above [domain_max]. *)
Definition exceeds_bounds (lowest highest : option Q) (cs : list Q) : Prop :=
  (exists m v, lowest = Some m /\ In v cs /\ v < m)
  \/ (exists m v, highest = Some m /\ In v cs /\ m < v).




End Guard.

(** ** Channels of a signal *)

Section Channels.

Context {U : Type} `{UnitSystem U}.

Import signal.

(** The 1-dimensional series of a signal along its domain axis, one per
    channel. *)
Definition channels (s : Signal U) : list (list Q) :=
  match magnitude s with
  | np.Arr0 _ => []
  | np.Arr1 ys => [ys]
  | np.Arr2 rows => np.slices rows (domain_axis s)
  end.

(** A 2-dimensional value array has rows of one length. *)
Definition rectangular_values (s : Signal U) : Prop :=
  match magnitude s with
  | np.Arr2 rows => np.rectangular rows
  | _ => True
  end.

(** [ch'] is the channel [ch] divided by [i]. *)
Definition divided_by (ch' : list Q) (p : list Q * Q) : Prop :=
  ch' = List.map (fun y => y / snd p) (fst p).

End Channels.

(** ** Resampling a signal onto its own domain *)

Section OwnDomain.

Context {U : Type} `{UnitSystem U}.

Import signal.

(** Strictly ascending coordinates. *)
Fixpoint ascending (l : list Q) : Prop :=
  match l with
  | x0 :: ((x1 :: _) as l') => x0 < x1 /\ ascending l'
  | _ => True
  end.

(** Element-wise equality of arrays of one shape. *)
Definition array_eq (a b : np.ndarray) : Prop :=
  match a, b with
  | np.Arr0 x, np.Arr0 y => x == y
  | np.Arr1 xs, np.Arr1 ys => Qeq_list xs ys
  | np.Arr2 r1, np.Arr2 r2 => Qeq_rows r1 r2
  | _, _ => False
  end.

(** The invariant of a signal: the value array is 1- or 2-dimensional
    and its length along the domain axis is the length of the domain. *)
Definition well_shaped (s : Signal U) : Prop :=
  match magnitude s with
  | np.Arr0 _ => False
  | np.Arr1 ys =>
      domain_axis s = 0%nat
      /\ length ys = length (dom_magnitude (domain s))
  | np.Arr2 rows =>
      (domain_axis s = 0%nat
       /\ length rows = length (dom_magnitude (domain s))
       /\ np.rectangular rows)
      \/ (domain_axis s = 1%nat
          /\ Forall (fun r => length r = length (dom_magnitude (domain s))) rows)
  end.

(** The keyword arguments the interpolator is called with. *)
Definition call_kwargs (s : Signal U) : kwargs :=
  kwargs_set "axis" (PInt (Z.of_nat (domain_axis s))) (_interpolator_kwargs s).

(** A cached interpolant is the one the interpolator builds from the
    present domain and values. *)
Definition cache_fresh (s : Signal U) : Prop :=
  forall f,
    _interpolate s = Some f ->
    _interpolator s (dom_magnitude (domain s)) (magnitude s) (call_kwargs s)
    = Ok f.

(** A clip bound that narrows no value ([within_bound b v] says that [v]
    is on the permitted side of [b]): it is absent, or a scalar that every
    value respects, or one bound per channel aligned with the last axis of
    the values (a single bound for a 1-dimensional signal, one per column
    when the domain runs along axis 0) that every value of its channel
    respects. *)
Definition bound_keeps (within_bound : Q -> Q -> Prop) (s : Signal U)
    (b : option np.bound) : Prop :=
  match b with
  | None => True
  | Some (np.BScalar q) => Forall (within_bound q) (np.flatten (magnitude s))
  | Some (np.BList l) =>
      match magnitude s with
      | np.Arr0 _ => False
      | np.Arr1 ys => exists q, l = [q] /\ Forall (within_bound q) ys
      | np.Arr2 rows =>
          domain_axis s = 0%nat
          /\ Forall (fun row => Forall2 within_bound l row) rows
      end
  end.

Definition clip_keeps_values (s : Signal U) : Prop :=
  bound_keeps (fun lo v => lo <= v) s (signal_min s)
  /\ bound_keeps (fun hi v => v <= hi) s (signal_max s).

(** The domain of the signal reaches down to [domain_min] and up to
    [domain_max], where these are configured. *)
Definition covers_own_bounds (s : Signal U) : Prop :=
  (forall dm,
     domain_min s = Some dm ->
     exists m,
       convert (q_units dm) (dom_units (domain s)) (q_magnitude dm) = Ok m
       /\ dom_start (domain s) <= m)
  /\ (forall dm,
        domain_max s = Some dm ->
        exists m,
          convert (q_units dm) (dom_units (domain s)) (q_magnitude dm) = Ok m
          /\ m <= dom_end (domain s)).

End OwnDomain.

(** ** Observable state and operations of a signal *)

Section Operations.

Context {U : Type} `{UnitSystem U}.

Import signal.

(** The state of a signal a caller can observe. *)
Definition observable (s : Signal U) :=
  (_values s, _domain s, _dtype s, _labels s, _units s,
   _signal_min s, _signal_max s).

(** A method that never changes the observable state. *)
Definition preserves {A} (c : M (Signal U) A) : Prop :=
  forall s s' r, c s = (s', r) -> observable s' = observable s.

(** [np.dtype(name).type], whatever numpy makes of the name. *)
Variable np_dtype_type : string -> result dtype_fn.

(** The operations embedded here that take the instance as receiver and
    may write to it. *)
Inductive operation : Type :=
| OpCall (q : query U)
| OpInterpolate
| OpSetValues (v : values_arg U)
| OpSetDtype (d : dtype_arg)
| OpSetInterpolator (i : interpolator_arg)
| OpSetInterpolatorKwargs (k : kwargs_arg).

Definition outcome {A} (r : Signal U * result A) : Signal U * option exn :=
  match r with
  | (s, Ok _) => (s, None)
  | (s, Raise e) => (s, Some e)
  end.

(** The receiver after the operation, and the exception if one was
    raised. *)
Definition perform (op : operation) (s : Signal U) : Signal U * option exn :=
  match op with
  | OpCall q => outcome (__call__ q s)
  | OpInterpolate => outcome (interpolate s)
  | OpSetValues v => outcome (values_setter v s)
  | OpSetDtype d => outcome (dtype_setter np_dtype_type d s)
  | OpSetInterpolator i => outcome (interpolator_setter i s)
  | OpSetInterpolatorKwargs k => outcome (interpolator_kwargs_setter k s)
  end.

(** The dtype the setter stores for an argument it accepts. *)
Definition accepted_dtype (d : dtype_arg) : option (option dtype_fn) :=
  match d with
  | DtNone => Some None
  | DtStr name =>
      match np_dtype_type name with
      | Ok f => Some (Some f)
      | Raise _ => None
      end
  | DtCallable f => Some (Some f)
  | DtOther => None
  end.

End Operations.

(** ** Calls, clip bounds and boundaries of a signal *)

Section SignalVocabulary.

Context {U : Type} `{UnitSystem U}.

Import scipy signal.

(** The fields of a signal other than the interpolant cache and the keyword
    dictionary of the interpolator. *)
Definition configuration (s : Signal U) :=
  (_class s, _values s, _units s, _dtype s, _domain s, _domain_axis s,
   _labels s, _interpolator s, _domain_min s, _domain_max s, _signal_min s,
   _signal_max s, _attrs s, _name s).

(** The entries of what [__call__] returns. *)
Definition call_values (r : call_result U) : list Q :=
  match r with
  | Bare v => np.flatten (q_magnitude v)
  | Resampled s => np.flatten (magnitude s)
  end.

(** A scalar clip bound, or none. *)
Definition scalar_bound (b : option Q) : option np.bound :=
  match b with
  | None => None
  | Some q => Some (np.BScalar q)
  end.

(** [x] respects the lower bound [lo] and the upper bound [hi], where
    they are set. *)
Definition respects (lo hi : option Q) (x : Q) : Prop :=
  (forall l, lo = Some l -> l <= x) /\ (forall h, hi = Some h -> x <= h).

(** The lower bound, where set, does not exceed the upper one. *)
Definition ordered_bounds (lo hi : option Q) : Prop :=
  forall l h, lo = Some l -> hi = Some h -> l <= h.

(** The last axis of [v] has [n] entries; a scalar has no axis. *)
Definition last_axis_is (n : nat) (v : np.ndarray) : Prop :=
  match v with
  | np.Arr0 _ => True
  | np.Arr1 xs => length xs = n
  | np.Arr2 rows => Forall (fun r => length r = n) rows
  end.

(** The rows of what [boundaries] returns: one pair per channel. *)
Definition boundary_rows (b : np.ndarray) : list (list Q) :=
  match b with
  | np.Arr0 _ => []
  | np.Arr1 p => [p]
  | np.Arr2 ps => ps
  end.

(** [p] is the pair of the lowest and the highest entry of [ch]. *)
Definition extremes_of (ch p : list Q) : Prop :=
  exists lo hi,
    p = [lo; hi] /\ In lo ch /\ In hi ch
    /\ forall v, In v ch -> lo <= v /\ v <= hi.

End SignalVocabulary.

(** ** Boundaries of mapped inputs *)

(** The channel whose boundaries apply to column [j] of a mapped array:
    a single pair of boundaries is stretched over all columns. *)
Definition boundary_index (lo : list Q) (j : nat) : nat :=
  if Nat.eqb (length lo) 1 then 0%nat else j.

(** ** Construction of a measured spectrum *)

Section ConstructorVocabulary.

Context {U : Type} `{UnitSystem U}.

Import signal.

(** [st] is the signal [s] with domain labels [d], seen through its
    [attrs], which are [a]: writing [attrs] of [st] gives what writing
    them in [s] with labels [d] gives. *)
Definition attrs_view (d : Domain U) (s st : Signal U) (a : attrs_dict) : Prop :=
  MeasuredSpectrum.attrs st = a
  /\ labels st = LabelsDomain d
  /\ forall a', set_attrs (Some a') st
                = set_attrs (Some a') (set_labels (LabelsDomain d) s).

End ConstructorVocabulary.

(** ** Containers *)

Section ContainerVocabulary.

Import _AbstractContainer.

Context {Obj Attr : Type} `{Subclass Obj}.

(** Every element is an instance of the allowed class. *)
Definition holds_instances (c : Container Obj Attr) : Prop :=
  Forall (fun ele => isinstance_allowed ele = true) (_container c).

(** Every cached attribute is [None]. *)
Definition caches_empty (c : Container Obj Attr) : Prop :=
  forall key, In key _init_keys -> getattr key (attributes c) = Some None.

(** The calls that change a container. *)
Inductive mutation : Type :=
| Append (value : Obj)
| Extend (value : container_arg Obj)
| Pop (index : Z).

(** The container after the call, and the exception if one was raised. *)
Definition mutate (m : mutation) (c : Container Obj Attr)
  : Container Obj Attr * option exn :=
  match m with
  | Append v =>
      match append v c with
      | (c', Ok _) => (c', None)
      | (c', Raise e) => (c', Some e)
      end
  | Extend v =>
      match extend v c with
      | (c', Ok _) => (c', None)
      | (c', Raise e) => (c', Some e)
      end
  | Pop i =>
      match pop i c with
      | (c', Ok _) => (c', None)
      | (c', Raise e) => (c', Some e)
      end
  end.

End ContainerVocabulary.

(** ** Sample objects *)

Module sample.

Import scipy signal.

Definition wavelengths : Domain metric :=
  mkDomain [400; 500; 600] nanometre (Some float64).

Definition unit_interval : Domain metric :=
  mkDomain [0; 1] nanometre (Some float64).

(** A 1-dimensional signal [Signal([0, 1], domain=[0, 1])]. *)
Definition ramp : Signal metric :=
  mkSignal SignalCls (np.Arr1 [0; 1]) irradiance (Some float64) unit_interval 0
    LabelsNone interp1d [] None None None None None None None.

(** A 2-dimensional signal over three wavelengths with two channels,
    [domain_axis = 0]. *)
Definition two_channels : Signal metric :=
  mkSignal SignalCls (np.Arr2 [[1; 4]; [2; 5]; [3; 6]]) irradiance
    (Some float64) wavelengths 0 (LabelsList [LStr "a"; LStr "b"]) interp1d []
    None None None None None None None.

(** [ramp] with [domain_min = -1 nm]. *)
Definition ramp_with_domain_min : Signal metric :=
  mkSignal SignalCls (np.Arr1 [0; 1]) irradiance (Some float64) unit_interval 0
    LabelsNone interp1d [] (Some (mkQuantity (-1) nanometre)) None None None
    None None None.

(** [ramp] with [domain_min = 0 nm] and [domain_max = 1 nm]. *)
Definition ramp_bounded : Signal metric :=
  mkSignal SignalCls (np.Arr1 [0; 1]) irradiance (Some float64) unit_interval 0
    LabelsNone interp1d [] (Some (mkQuantity 0 nanometre))
    (Some (mkQuantity 1 nanometre)) None None None None None.

(** A signal over [[0, 1000]] nm with [domain_max = 1000 nm]. *)
Definition ramp_to_1000 : Signal metric :=
  mkSignal SignalCls (np.Arr1 [0; 1]) irradiance (Some float64)
    (mkDomain [0; 1000] nanometre (Some float64)) 0 LabelsNone interp1d []
    None (Some (mkQuantity 1000 nanometre)) None None None None None.

Definition volts : Domain metric :=
  mkDomain [0; 1; 2] volt (Some float64).

(** A measured spectrum of one LED: three wavelengths by three control
    inputs, as [MeasuredSpectrum.__init__] leaves it. *)
Definition led (attrs : attrs_dict) : Signal metric :=
  mkSignal MeasuredSpectrumCls (np.Arr2 [[0; 1; 2]; [0; 1; 2]; [0; 1; 2]])
    irradiance (Some float64) wavelengths 0 (LabelsDomain volts) interp1d []
    None None None None (Some attrs) (Some "led"%string) None.

(** Zero output at the low end, zero boundary undefined. *)
Definition rising_led : Signal metric :=
  led [("_zero_boundary"%string, ANone);
       ("_max_boundary"%string, AFloat (np.fin 5));
       ("_zero_is_lower"%string, ABool true)].

(** Zero output at the low end, zero boundary at 0 volt. *)
Definition rising_led_zero : Signal metric :=
  led [("_zero_boundary"%string, AFloat (np.fin 0));
       ("_max_boundary"%string, AFloat (np.fin 5));
       ("_zero_is_lower"%string, ABool true)].

(** Zero output at the high end: zero boundary at 5 volt, above every
    tested control input. *)
Definition falling_led : Signal metric :=
  led [("_zero_boundary"%string, AFloat (np.fin 5));
       ("_max_boundary"%string, AFloat (np.fin 0));
       ("_zero_is_lower"%string, ABool false)].

(** Two channels along the rows ([domain_axis = 1]) with one lower clip
    bound per channel. *)
Definition rows_with_channel_bounds : Signal metric :=
  mkSignal SignalCls (np.Arr2 [[1; 2; 3]; [4; 5; 6]]) irradiance
    (Some float64) wavelengths 1 (LabelsList [LStr "a"; LStr "b"]) interp1d []
    None None (Some (np.BList [0; 0])) None None None None.

(** The state [super().__init__] leaves for
    [MeasuredSpectrum(values, domain, labels=[2, 1], name='led',
    zero_is_lower=True)]. *)
Definition unsorted_labels : Signal metric :=
  mkSignal MeasuredSpectrumCls (np.Arr2 [[1; 2]; [3; 4]; [5; 6]]) irradiance
    (Some float64) wavelengths 0 (LabelsList [LNum 2; LNum 1]) interp1d []
    None None None None None (Some "led"%string) None.

(** The same with labels [[1, 2]]. *)
Definition sorted_labels : Signal metric :=
  mkSignal MeasuredSpectrumCls (np.Arr2 [[1; 2]; [3; 4]; [5; 6]]) irradiance
    (Some float64) wavelengths 0 (LabelsList [LNum 1; LNum 2]) interp1d []
    None None None None None (Some "led"%string) None.

(** [ramp] with the scalar clip bounds [signal_min = 1/4] and
    [signal_max = 3/4]. *)
Definition ramp_clipped : Signal metric :=
  mkSignal SignalCls (np.Arr1 [0; 1]) irradiance (Some float64) unit_interval 0
    LabelsNone interp1d [] None None (Some (np.BScalar (1 # 4)))
    (Some (np.BScalar (3 # 4))) None None None.

(** [ramp] with the clip bounds crossed: [signal_min = 3/4] and
    [signal_max = 1/4]. *)
Definition ramp_crossed : Signal metric :=
  mkSignal SignalCls (np.Arr1 [0; 1]) irradiance (Some float64) unit_interval 0
    LabelsNone interp1d [] None None (Some (np.BScalar (3 # 4)))
    (Some (np.BScalar (1 # 4))) None None None.

(** [two_channels] with one pair of clip bounds per channel. *)
Definition columns_with_channel_bounds : Signal metric :=
  mkSignal SignalCls (np.Arr2 [[1; 4]; [2; 5]; [3; 6]]) irradiance
    (Some float64) wavelengths 0 (LabelsList [LStr "a"; LStr "b"]) interp1d []
    None None (Some (np.BList [0; 0])) (Some (np.BList [10; 10])) None None
    None.

(** A constant 1-dimensional signal over the three wavelengths. *)
Definition flat : Signal metric :=
  mkSignal SignalCls (np.Arr1 [2; 2; 2]) irradiance (Some float64) wavelengths 0
    LabelsNone interp1d [] None None None None None None None.


(** Stand-ins for the isotonic regression and the inverse interpolant. *)
Definition identity_regression (y_min y_max : Q) (increasing : bool)
    (x y : list Q) : result (list Q) := Ok y.

Definition identity_mapper (new_y x : list Q) (fill : Q * Q) (v : list Q)
  : result (list Q) := Ok v.

End sample.

(* ================================================================== *)
(** * Properties *)
(* ================================================================== *)

(** ** Rationals and lists *)

Lemma Qlt_bool_iff a b : Qlt_bool a b = true <-> a < b.
Proof.
  unfold Qlt_bool. rewrite negb_true_iff.
  split; intro H.
  - apply Qnot_le_lt. intro Hle. apply Qle_bool_iff in Hle. congruence.
  - destruct (Qle_bool b a) eqn:E; [|reflexivity].
    apply Qle_bool_iff in E. exfalso. exact (Qlt_not_le _ _ H E).
Qed.

Lemma Qlt_bool_false_iff a b : Qlt_bool a b = false <-> b <= a.
Proof.
  unfold Qlt_bool. rewrite negb_false_iff. apply Qle_bool_iff.
Qed.

Lemma Qeq_list_bool_iff a b : Qeq_list_bool a b = true <-> Qeq_list a b.
Proof.
  revert b. induction a as [|x a IH]; intros [|y b]; simpl.
  - split; [constructor | reflexivity].
  - split; [discriminate | intro H; inversion H].
  - split; [discriminate | intro H; inversion H].
  - rewrite andb_true_iff, Qeq_bool_iff, IH.
    split; [intros [? ?]; constructor; assumption | intro H; inversion H; auto].
Qed.

Lemma Qeq_rows_bool_iff a b : Qeq_rows_bool a b = true <-> Qeq_rows a b.
Proof.
  revert b. induction a as [|x a IH]; intros [|y b]; simpl.
  - split; [constructor | reflexivity].
  - split; [discriminate | intro H; inversion H].
  - split; [discriminate | intro H; inversion H].
  - rewrite andb_true_iff, Qeq_list_bool_iff, IH.
    split; [intros [? ?]; constructor; assumption | intro H; inversion H; auto].
Qed.

Lemma Qeq_list_refl l : Qeq_list l l.
Proof. induction l; constructor; [reflexivity | assumption]. Qed.

Lemma Forall2_nth_intro {A B} (R : A -> B -> Prop) (da : A) (db : B) :
  forall la lb,
    length la = length lb ->
    (forall k, (k < length la)%nat -> R (nth k la da) (nth k lb db)) ->
    Forall2 R la lb.
Proof.
  induction la as [|a la IH]; intros [|b lb] Hlen Hnth; simpl in *;
    try discriminate; constructor.
  - apply (Hnth 0%nat). lia.
  - apply IH; [lia|]. intros k Hk. apply (Hnth (S k)). lia.
Qed.

(** ** Results of traversals *)

Lemma mapM_Forall2 {A B} (f : A -> result B) :
  forall l bs, mapM f l = Ok bs -> Forall2 (fun a b => f a = Ok b) l bs.
Proof.
  induction l as [|a l IH]; intros bs Hm; simpl in Hm.
  - inversion Hm. constructor.
  - destruct (f a) as [b|e] eqn:Ef; [|discriminate].
    destruct (mapM f l) as [bs'|e] eqn:El; [|discriminate].
    inversion Hm; subst. constructor; [assumption | apply IH; reflexivity].
Qed.

Lemma mapM_length {A B} (f : A -> result B) l bs :
  mapM f l = Ok bs -> length bs = length l.
Proof.
  intro Hm. apply mapM_Forall2 in Hm.
  symmetry. eapply Forall2_length; eassumption.
Qed.

Lemma Forall2_nth_error_l {A B} (R : A -> B -> Prop) :
  forall l bs, Forall2 R l bs ->
  forall i a, nth_error l i = Some a ->
  exists b, nth_error bs i = Some b /\ R a b.
Proof.
  induction 1 as [|a0 b0 l bs Hab HF IH]; intros i a Hi.
  - destruct i; discriminate.
  - destruct i as [|i]; simpl in *.
    + inversion Hi; subst. exists b0. split; [reflexivity | assumption].
    + apply IH. assumption.
Qed.

Lemma mapM_nth_error {A B} (f : A -> result B) l bs :
  mapM f l = Ok bs ->
  forall i a, nth_error l i = Some a ->
  exists b, nth_error bs i = Some b /\ f a = Ok b.
Proof.
  intros Hm i a Hi.
  apply mapM_Forall2 in Hm.
  exact (Forall2_nth_error_l _ _ _ Hm i a Hi).
Qed.

Lemma mapM_total {A B} (f : A -> result B) :
  forall l, Forall (fun a => exists b, f a = Ok b) l ->
  exists bs, mapM f l = Ok bs.
Proof.
  induction 1 as [|a l [b Hb] HF [bs IH]]; simpl.
  - exists []. reflexivity.
  - rewrite Hb, IH. exists (b :: bs). reflexivity.
Qed.

Lemma mapM_ext_in {A B} (f g : A -> result B) :
  forall l, (forall a, In a l -> f a = g a) -> mapM f l = mapM g l.
Proof.
  induction l as [|a l IH]; intros Hfg; simpl; [reflexivity|].
  rewrite (Hfg a (or_introl eq_refl)).
  rewrite IH; [reflexivity|]. intros b Hb. apply Hfg. right. assumption.
Qed.

Lemma mapM_pure {A B} (f : A -> B) :
  forall l, mapM (fun a => Ok (f a)) l = Ok (List.map f l).
Proof.
  induction l as [|a l IH]; simpl; [reflexivity|]. rewrite IH. reflexivity.
Qed.

(** ** Masked assignment *)

Lemma mask_assign_nth_error {A} :
  forall (dst : list A) mask src i d m v,
    nth_error dst i = Some d ->
    nth_error mask i = Some m ->
    nth_error src i = Some v ->
    nth_error (np.mask_assign dst mask src) i = Some (if m then v else d).
Proof.
  induction dst as [|d0 dst IH]; intros mask src i d m v Hd Hm Hv.
  - destruct i; discriminate.
  - destruct mask as [|m0 mask]; [destruct i; discriminate|].
    destruct src as [|v0 src]; [destruct i; discriminate|].
    destruct i as [|i]; simpl in *.
    + inversion Hd; inversion Hm; inversion Hv; subst. reflexivity.
    + eapply IH; eassumption.
Qed.

Lemma mask_assign_length {A} :
  forall (dst : list A) mask src,
    length (np.mask_assign dst mask src) = length dst.
Proof.
  induction dst as [|d dst IH]; intros [|m mask] [|v src]; simpl;
    try reflexivity.
  rewrite IH. reflexivity.
Qed.

Lemma fill_nan_nth_error :
  forall (a : list np.float) fallback i x f,
    nth_error a i = Some x ->
    nth_error fallback i = Some f ->
    nth_error (MeasuredSpectraContainer.fill_nan a fallback) i
    = Some (match x with np.nan => f | np.fin q => q end).
Proof.
  induction a as [|x0 a IH]; intros fallback i x f Ha Hf.
  - destruct i; discriminate.
  - destruct fallback as [|f0 fallback]; [destruct i; discriminate|].
    destruct i as [|i]; simpl in *.
    + inversion Ha; inversion Hf; subst. reflexivity.
    + eapply IH; eassumption.
Qed.

(** ** Control-input boundaries of a container *)

Section Boundaries.

Context {U : Type} `{UnitSystem U}.

Import signal MeasuredSpectraContainer.

Lemma constructed_arrays (c : Container U) :
  Forall constructed (_container c) ->
  exists zl zb mb st en,
    zero_is_lower c = Ok zl /\ zero_boundary c = Ok zb
    /\ max_boundary c = Ok mb /\ starts c = Ok st /\ ends c = Ok en.
Proof.
  intro Hc.
  assert (H1 : exists zl, zero_is_lower c = Ok zl).
  { apply mapM_total. eapply Forall_impl; [|exact Hc].
    intros a (Ha & _). exact Ha. }
  assert (H2 : exists zb, zero_boundary c = Ok zb).
  { apply mapM_total. eapply Forall_impl; [|exact Hc].
    intros a (_ & Ha & _). exact Ha. }
  assert (H3 : exists mb, max_boundary c = Ok mb).
  { apply mapM_total. eapply Forall_impl; [|exact Hc].
    intros a (_ & _ & Ha & _). exact Ha. }
  assert (H4 : exists st, starts c = Ok st).
  { apply mapM_total. eapply Forall_impl; [|exact Hc].
    intros a (_ & _ & _ & d & Hd). unfold labels_domain. rewrite Hd.
    simpl. eexists. reflexivity. }
  assert (H5 : exists en, ends c = Ok en).
  { apply mapM_total. eapply Forall_impl; [|exact Hc].
    intros a (_ & _ & _ & d & Hd). unfold labels_domain. rewrite Hd.
    simpl. eexists. reflexivity. }
  destruct H1 as [zl H1], H2 as [zb H2], H3 as [mb H3], H4 as [st H4],
    H5 as [en H5].
  exists zl, zb, mb, st, en. repeat split; assumption.
Qed.

Lemma nth_error_repeat_lt {A} (x : A) n i :
  (i < n)%nat -> nth_error (repeat x n) i = Some x.
Proof.
  revert i. induction n as [|n IH]; intros i Hi; [lia|].
  destruct i as [|i]; simpl; [reflexivity|]. apply IH. lia.
Qed.

(** C5. For every channel of a container of constructed spectra: when
    [zero_is_lower] holds, [lower_boundary] is the channel's zero boundary,
    or the first tested control input when that boundary is undefined, and
    [upper_boundary] is its max boundary, or the last tested control input;
    when [zero_is_lower] does not hold the two boundaries change roles. *)
Theorem boundaries_follow_polarity :
  forall (c : Container U) (i : nat) (ele : Signal U)
         (zl : bool) (zb mb : option np.float) (d : Domain U),
    Forall constructed (_container c) ->
    nth_error (_container c) i = Some ele ->
    MeasuredSpectrum.zero_is_lower ele = Ok zl ->
    MeasuredSpectrum.zero_boundary ele = Ok zb ->
    MeasuredSpectrum.max_boundary ele = Ok mb ->
    labels ele = LabelsDomain d ->
    exists lb ub,
      lower_boundary c = Ok lb
      /\ upper_boundary c = Ok ub
      /\ nth_error lb i
         = Some (if zl then defined_or zb (dom_start d)
                 else defined_or mb (dom_start d))
      /\ nth_error ub i
         = Some (if zl then defined_or mb (dom_end d)
                 else defined_or zb (dom_end d)).
Proof.
  intros c i ele zl zb mb d Hc Hi Hzl Hzb Hmb Hd.
  destruct (constructed_arrays c Hc)
    as (zls & zbs & mbs & sts & ens & E1 & E2 & E3 & E4 & E5).
  destruct (mapM_nth_error _ _ _ E1 i ele Hi) as (zl' & Nzl & Fzl).
  destruct (mapM_nth_error _ _ _ E2 i ele Hi) as (zb' & Nzb & Fzb).
  destruct (mapM_nth_error _ _ _ E3 i ele Hi) as (mb' & Nmb & Fmb).
  destruct (mapM_nth_error _ _ _ E4 i ele Hi) as (st' & Nst & Fst).
  destruct (mapM_nth_error _ _ _ E5 i ele Hi) as (en' & Nen & Fen).
  rewrite Hzl in Fzl. rewrite Hzb in Fzb. rewrite Hmb in Fmb.
  inversion Fzl; inversion Fzb; inversion Fmb; subst zl' zb' mb'.
  unfold labels_domain in Fst, Fen. rewrite Hd in Fst, Fen. simpl in Fst, Fen.
  inversion Fst; inversion Fen; subst st' en'.
  assert (Hlen : (i < length zls)%nat).
  { apply nth_error_Some. rewrite Nzl. discriminate. }
  assert (Hz : nth_error (repeat (np.fin 0) (length zls)) i = Some (np.fin 0)).
  { apply nth_error_repeat_lt. exact Hlen. }
  assert (Nzb' : nth_error (List.map np.float_of_object zbs) i
                 = Some (np.float_of_object zb)).
  { rewrite nth_error_map, Nzb. reflexivity. }
  assert (Nmb' : nth_error (List.map np.float_of_object mbs) i
                 = Some (np.float_of_object mb)).
  { rewrite nth_error_map, Nmb. reflexivity. }
  assert (Nneg : nth_error (List.map negb zls) i = Some (negb zl)).
  { rewrite nth_error_map, Nzl. reflexivity. }
  unfold lower_boundary, upper_boundary.
  rewrite E1. cbn [rbind].
  destruct zls as [|z0 zls']; [simpl in Hlen; lia|].
  rewrite E2, E3, E4, E5. cbn [rbind].
  eexists. eexists.
  split; [reflexivity|]. split; [reflexivity|].
  split.
  - erewrite fill_nan_nth_error;
      [| eapply mask_assign_nth_error;
         [eapply mask_assign_nth_error; [exact Hz | exact Nzl | exact Nzb']
         | exact Nneg | exact Nmb']
       | exact Nst].
    f_equal.
    destruct zl, zb as [[|zq]|], mb as [[|mq]|]; reflexivity.
  - erewrite fill_nan_nth_error;
      [| eapply mask_assign_nth_error;
         [eapply mask_assign_nth_error; [exact Hz | exact Nneg | exact Nzb']
         | exact Nzl | exact Nmb']
       | exact Nen].
    f_equal.
    destruct zl, zb as [[|zq]|], mb as [[|mq]|]; reflexivity.
Qed.

End Boundaries.

Lemma boundaries_follow_polarity_witness :
  let c := MeasuredSpectraContainer.__init__ [sample.rising_led] in
  Forall constructed (MeasuredSpectraContainer._container c)
  /\ nth_error (MeasuredSpectraContainer._container c) 0 = Some sample.rising_led
  /\ MeasuredSpectrum.zero_is_lower sample.rising_led = Ok true
  /\ MeasuredSpectrum.zero_boundary sample.rising_led = Ok None
  /\ MeasuredSpectrum.max_boundary sample.rising_led = Ok (Some (np.fin 5))
  /\ signal.labels sample.rising_led = signal.LabelsDomain sample.volts
  /\ exists lb ub,
       MeasuredSpectraContainer.lower_boundary c = Ok lb
       /\ MeasuredSpectraContainer.upper_boundary c = Ok ub
       /\ nth_error lb 0 = Some (signal.dom_start sample.volts)
       /\ nth_error ub 0 = Some 5.
Proof.
  cbv zeta.
  assert (Hc : Forall constructed
                 (MeasuredSpectraContainer._container
                    (MeasuredSpectraContainer.__init__ [sample.rising_led]))).
  { constructor; [|constructor].
    repeat split; eexists; reflexivity. }
  split; [exact Hc|].
  repeat (split; [reflexivity|]).
  exact (boundaries_follow_polarity
           (MeasuredSpectraContainer.__init__ [sample.rising_led]) 0
           sample.rising_led true None (Some (np.fin 5)) sample.volts
           Hc eq_refl eq_refl eq_refl eq_refl eq_refl).
Defined.

(** ** Splicing the zero boundary into the samples of a channel *)

Section ZeroSplice.

Import MeasuredSpectraContainer.

(** The branch for [zero_is_lower]: the pair [(zero_boundary, 0)] is put in
    front of the samples. *)
Lemma add_zero_below_splices (x y : list Q) (z m : Q) :
  np.min (np.Arr1 x) = Ok m ->
  z < m ->
  add_zero true (Some (np.fin z)) x y = Ok (z :: x, 0 :: y).
Proof.
  intros Hmin Hlt. unfold add_zero. rewrite Hmin. cbn [rbind].
  unfold MeasuredSpectrum.float_lt.
  apply Qlt_bool_iff in Hlt. rewrite Hlt. reflexivity.
Qed.

(** The branch for [not zero_is_lower] stops at the misspelt
    [np.concateante]. *)
Lemma add_zero_above_raises (x y : list Q) (z m : Q) :
  np.max (np.Arr1 x) = Ok m ->
  m < z ->
  add_zero false (Some (np.fin z)) x y
  = Raise (AttributeError "module 'numpy' has no attribute 'concateante'").
Proof.
  intros Hmax Hlt. unfold add_zero. cbn [rbind negb]. rewrite Hmax.
  cbn [rbind]. unfold MeasuredSpectrum.float_lt.
  apply Qlt_bool_iff in Hlt. rewrite Hlt. reflexivity.
Qed.

(** Without a zero boundary, or with one inside the tested range, the
    samples are left as they are. *)
Lemma add_zero_undefined (zl : bool) (x y : list Q) :
  add_zero zl None x y = Ok (x, y).
Proof. reflexivity. Qed.

(** C3. A channel with [zero_is_lower = False] whose zero boundary (5 V)
    lies above the tested control inputs (0, 1, 2 V): building its mapper
    raises [AttributeError] instead of fitting the regression on the
    extended samples. *)
Theorem falling_channel_mapper_raises :
  forall iso interp,
    _get_single_mapper iso interp (__init__ [sample.falling_led]) 0
      sample.falling_led
    = Raise (AttributeError "module 'numpy' has no attribute 'concateante'").
Proof. intros iso interp. reflexivity. Qed.

(** The rising channel with its zero boundary below the tested inputs gets
    the extended samples. *)
Example rising_channel_extended :
  add_zero true (Some (np.fin (-1))) [0; 1; 2] [0; 200; 400]
  = Ok ([-1; 0; 1; 2], [0; 0; 200; 400]).
Proof. reflexivity. Qed.

End ZeroSplice.

(** ** Construction of a measured spectrum *)

Section Construction.

Context {U : Type} `{UnitSystem U}.

Import signal MeasuredSpectrum.

Lemma take_along_axis_1d (arr : list (list Q)) (idx : list nat) (axis : nat) :
  np.take_along_axis arr (np.IArr1 idx) axis
  = Raise (ValueError "`indices` and `arr` must have the same number of dimensions").
Proof. reflexivity. Qed.

(** Generic labels that are not ascending: the reordering of the values
    fails inside the [try] block and the constructor raises. *)
Lemma unsorted_labels_rejected :
  forall (s : Signal U) zb mb zl lu l nums,
    ndim s = 2%nat ->
    labels s = LabelsList l ->
    label_numbers (U := U) (LabelsList l) = Ok nums ->
    consecutive (np.argsort nums) = false ->
    snd (__init__ zb mb zl lu s)
    = Raise (DreyeError "Labels must be domain or be able to be made into domain.").
Proof.
  intros s zb mb zl lu l nums Hdim Hlab Hnum Hcons.
  unfold __init__, bind, get. rewrite Hdim. cbn [Nat.eqb negb ret].
  rewrite Hlab. cbn [is_domain negb].
  unfold try_except, labels_into_domain, bind, get, lift.
  rewrite Hlab, Hnum. cbn [domain_class rbind modify].
  rewrite Hcons. cbn [negb].
  unfold other_axis, ndim. cbn [set_labels _values _domain_axis].
  unfold ndim in Hdim. rewrite Hdim. cbn [Nat.eqb].
  reflexivity.
Qed.

(** Generic labels that are ascending become the label domain and the
    values stay as they are. *)
Lemma sorted_labels_accepted :
  forall (s : Signal U) lu l nums,
    ndim s = 2%nat ->
    labels s = LabelsList l ->
    label_numbers (U := U) (LabelsList l) = Ok nums ->
    consecutive (np.argsort nums) = true ->
    labels_into_domain lu s
    = (set_labels
         (LabelsDomain
            (mkDomain (np.sort nums)
               (match lu with Some u => u | None => unit_none end)
               (Some float64))) s, Ok tt).
Proof.
  intros s lu l nums Hdim Hlab Hnum Hcons.
  unfold labels_into_domain, bind, get, lift.
  rewrite Hlab, Hnum. cbn [domain_class rbind modify].
  rewrite Hcons. reflexivity.
Qed.

End Construction.

(** C9. [MeasuredSpectrum(values, domain, labels=[2, 1], name='led',
    zero_is_lower=True)]: the labels are generic and not ascending, and the
    constructor raises [DreyeError] instead of returning a spectrum with
    sorted labels and reordered values. *)
Theorem unsorted_labels_constructor_raises :
  snd (MeasuredSpectrum.__init__ None None (Some true) None
         sample.unsorted_labels)
  = Raise (DreyeError "Labels must be domain or be able to be made into domain.").
Proof. reflexivity. Qed.

(** With ascending labels the same call succeeds. *)
Example sorted_labels_constructor_returns :
  snd (MeasuredSpectrum.__init__ None None (Some true) None
         sample.sorted_labels) = Ok tt
  /\ signal._values (fst (MeasuredSpectrum.__init__ None None (Some true) None
                            sample.sorted_labels))
     = np.Arr2 [[1; 2]; [3; 4]; [5; 6]].
Proof. split; reflexivity. Qed.

(** ** The interpolant cache *)

Section Cache.

Context {U : Type} `{UnitSystem U}.

Import scipy signal.

(** A populated cache is handed out as it is. *)
Lemma cached_interpolant_reuses (s : Signal U) (f : interpolant) :
  _interpolate s = Some f -> cached_interpolant s = (s, Ok f).
Proof.
  intro Hc. unfold cached_interpolant, bind, get. rewrite Hc. reflexivity.
Qed.

(** The setters of the interpolator and of its keyword arguments empty
    the cache. *)
Lemma interpolator_setter_clears_cache (s : Signal U) (f : interpolator_t) :
  _interpolate (fst (interpolator_setter (InterpCallable f) s)) = None.
Proof. reflexivity. Qed.

Lemma interpolator_kwargs_setter_clears_cache (s : Signal U) (d : kwargs) :
  _interpolate (fst (interpolator_kwargs_setter (KwDict d) s)) = None.
Proof. reflexivity. Qed.

(** The setter of the values does not touch the cache. *)
Lemma values_setter_keeps_cache (s : Signal U) (v : values_arg U) :
  _interpolate (fst (values_setter v s)) = _interpolate s.
Proof.
  unfold values_setter, bind, get, lift.
  destruct v as [q|a].
  - destruct (array_to (q_units q) (units s) (q_magnitude q)) as [a|e];
      [|reflexivity].
    destruct (negb (np.shape_eqb (np.shape a) (shape s))); reflexivity.
  - destruct (negb (np.shape_eqb (np.shape a) (shape s))); reflexivity.
Qed.

(** Hence an interpolant built before an assignment to [values] is the one
    used after it. *)
Lemma interpolant_survives_values_assignment
    (s : Signal U) (v : values_arg U) (f : interpolant) :
  _interpolate s = Some f ->
  cached_interpolant (fst (values_setter v s))
  = (fst (values_setter v s), Ok f).
Proof.
  intro Hc. apply cached_interpolant_reuses.
  rewrite values_setter_keeps_cache. exact Hc.
Qed.

End Cache.

(** C4. [s = Signal([0, 1], domain=[0, 1])] is evaluated once, which builds
    the interpolant; then [s.values = [10, 20]] succeeds and the values are
    the new ones; [s(0.5)] still returns 0.5, the interpolation of the old
    values, where an interpolant built from the new values returns 15. *)
Theorem values_assignment_leaves_stale_interpolant :
  let s1 := fst (signal.interpolate sample.ramp) in
  let r := signal.values_setter (signal.Plain (np.Arr1 [10; 20])) s1 in
  snd r = Ok tt
  /\ signal._values (fst r) = np.Arr1 [10; 20]
  /\ snd (signal.__call__ (signal.QCoords (scipy.C0 (1 # 2))) (fst r))
     = Ok (signal.Bare (mkQuantity (np.Arr0 (1 # 2)) irradiance))
  /\ exists v,
       snd (signal.__call__ (signal.QCoords (scipy.C0 (1 # 2)))
              (signal.set_interpolate None (fst r)))
       = Ok (signal.Bare (mkQuantity (np.Arr0 v) irradiance))
       /\ v == 15.
Proof.
  cbv zeta. split; [reflexivity|]. split; [reflexivity|].
  split; [reflexivity|].
  eexists. split; reflexivity.
Qed.

(** ** Failing operations and the state of the receiver *)

Section Failures.

Context {U : Type} `{UnitSystem U}.

Import scipy signal.

Variable np_dtype_type : string -> result dtype_fn.

Lemma preserves_ret {A} (a : A) : preserves (@ret (Signal U) A a).
Proof. intros s s' r E. inversion E. reflexivity. Qed.

Lemma preserves_raise {A} (e : exn) : preserves (@raise (Signal U) A e).
Proof. intros s s' r E. inversion E. reflexivity. Qed.

Lemma preserves_lift {A} (x : result A) : preserves (@lift (Signal U) A x).
Proof. intros s s' r E. inversion E. reflexivity. Qed.

Lemma preserves_get : preserves (@get (Signal U)).
Proof. intros s s' r E. inversion E. reflexivity. Qed.

Lemma preserves_modify (f : Signal U -> Signal U) :
  (forall s, observable (f s) = observable s) -> preserves (modify f).
Proof. intros Hf s s' r E. inversion E. apply Hf. Qed.

Lemma preserves_bind {A B} (c : M (Signal U) A) (k : A -> M (Signal U) B) :
  preserves c -> (forall a, preserves (k a)) -> preserves (bind c k).
Proof.
  intros Hc Hk s s' r E. unfold bind in E.
  destruct (c s) as [s1 [a|e]] eqn:Ec.
  - rewrite (Hk a s1 s' r E). exact (Hc s s1 _ Ec).
  - inversion E; subst. exact (Hc s s' _ Ec).
Qed.

Ltac preserves_step :=
  first
    [ apply preserves_ret
    | apply preserves_raise
    | apply preserves_lift
    | apply preserves_get
    | apply preserves_modify; intro; reflexivity
    | apply preserves_bind; [| intro ] ].

Lemma preserves_interpolator_kwargs : preserves (@interpolator_kwargs U).
Proof. unfold interpolator_kwargs. repeat preserves_step. Qed.

Lemma preserves_cached_interpolant : preserves (@cached_interpolant U).
Proof.
  unfold cached_interpolant.
  apply preserves_bind; [apply preserves_get | intro s0].
  destruct (_interpolate s0).
  - apply preserves_ret.
  - apply preserves_bind; [apply preserves_interpolator_kwargs | intro kw].
    repeat preserves_step.
Qed.

Lemma preserves_interpolate : preserves (@interpolate U).
Proof.
  unfold interpolate.
  apply preserves_bind; [apply preserves_cached_interpolant | intro f].
  repeat preserves_step.
Qed.

(** [__call__] works on a copy: the receiver keeps its observable state
    whether the call returns or raises. *)
Lemma preserves_call (q : query U) : preserves (__call__ q).
Proof.
  unfold __call__.
  apply preserves_bind; [apply preserves_get | intro s0].
  apply preserves_bind; [apply preserves_lift | intro p].
  apply preserves_bind; [apply preserves_lift | intros _].
  apply preserves_bind; [apply preserves_lift | intros _].
  apply preserves_bind; [apply preserves_interpolate | intro f].
  apply preserves_bind; [apply preserves_lift | intro v].
  apply preserves_bind; [apply preserves_get | intro s1].
  apply preserves_bind; [apply preserves_lift | intro single].
  destruct single; repeat preserves_step.
Qed.

Lemma preserves_interpolator_setter (i : interpolator_arg) :
  preserves (@interpolator_setter U i).
Proof. destruct i; unfold interpolator_setter; repeat preserves_step. Qed.

Lemma preserves_interpolator_kwargs_setter (k : kwargs_arg) :
  preserves (@interpolator_kwargs_setter U k).
Proof. destruct k; unfold interpolator_kwargs_setter; repeat preserves_step. Qed.

(** The setter of the values checks before it assigns. *)
Lemma values_setter_raise_unchanged (v : values_arg U) (s s' : Signal U) e :
  values_setter v s = (s', Raise e) -> s' = s.
Proof.
  unfold values_setter, bind, get, lift.
  destruct v as [q|a].
  - destruct (array_to (q_units q) (units s) (q_magnitude q)) as [a|e0].
    + destruct (negb (np.shape_eqb (np.shape a) (shape s)));
        intro E; inversion E; reflexivity.
    + intro E; inversion E; reflexivity.
  - destruct (negb (np.shape_eqb (np.shape a) (shape s)));
      intro E; inversion E; reflexivity.
Qed.

(** The setter of the dtype: an argument it rejects leaves the receiver
    alone; for an argument it accepts the dtype of the signal and of its
    domain are written before the values are converted, and stay written
    when the conversion raises. *)
Lemma dtype_setter_raise (d : dtype_arg) (s s' : Signal U) e :
  dtype_setter np_dtype_type d s = (s', Raise e) ->
  (accepted_dtype np_dtype_type d = None /\ s' = s)
  \/ exists v, accepted_dtype np_dtype_type d = Some v
       /\ s' = set_domain (dom_set_dtype v (_domain s)) (set_dtype v s).
Proof.
  unfold dtype_setter, bind, get, lift, modify, accepted_dtype.
  destruct d as [|name|f|].
  - intro E. inversion E. right. exists None. split; reflexivity.
  - destruct (np_dtype_type name) as [f|e0]; cbn [rbind].
    + destruct (dt_call f _) as [a|e1]; intro E; inversion E.
      right. exists (Some f). split; reflexivity.
    + intro E. inversion E. left. split; reflexivity.
  - destruct (dt_call f _) as [a|e1]; intro E; inversion E.
    right. exists (Some f). split; reflexivity.
  - intro E. inversion E. left. split; reflexivity.
Qed.

(** Among the operations embedded here the dtype setter is the only one
    that leaves a trace when it raises: a call, a read of [interpolate]
    and the setters of the values, the interpolator and its keyword
    arguments leave the observable state of the receiver as it was; the
    dtype setter, for an argument it accepts, has already written the new
    dtype when the conversion of the values raises. *)
Lemma failed_operation_state :
  forall (op : operation) (s s' : Signal U) (e : exn),
    perform np_dtype_type op s = (s', Some e) ->
    observable s' = observable s
    \/ exists d v,
         op = OpSetDtype d
         /\ accepted_dtype np_dtype_type d = Some v
         /\ observable s'
            = (_values s, dom_set_dtype v (_domain s), v, _labels s,
               _units s, _signal_min s, _signal_max s).
Proof.
  intros op s s' e Hp.
  destruct op as [q| |v|d|i|k]; unfold perform, outcome in Hp.
  - destruct (__call__ q s) as [s1 r] eqn:E. left.
    destruct r; inversion Hp; subst. exact (preserves_call q s s' _ E).
  - destruct (interpolate s) as [s1 r] eqn:E. left.
    destruct r; inversion Hp; subst. exact (preserves_interpolate s s' _ E).
  - destruct (values_setter v s) as [s1 r] eqn:E. left.
    destruct r; inversion Hp; subst.
    rewrite (values_setter_raise_unchanged v s s' e E). reflexivity.
  - destruct (dtype_setter np_dtype_type d s) as [s1 r] eqn:E.
    destruct r; inversion Hp; subst.
    destruct (dtype_setter_raise d s s' e E) as [[_ ->]|(v & Hv & ->)].
    + left. reflexivity.
    + right. exists d, v. repeat split. exact Hv.
  - destruct (interpolator_setter i s) as [s1 r] eqn:E. left.
    destruct r; inversion Hp; subst.
    exact (preserves_interpolator_setter i s s' _ E).
  - destruct (interpolator_kwargs_setter k s) as [s1 r] eqn:E. left.
    destruct r; inversion Hp; subst.
    exact (preserves_interpolator_kwargs_setter k s s' _ E).
Qed.

End Failures.

(** C10. [s.dtype = int] on [s = Signal([0, 1], domain=[0, 1])] fails and
    leaves a partial write: the setter stores the new dtype before it
    converts the values, [int] of a two-element array raises [TypeError],
    and the receiver is left with the dtype [int] and the values it had.
    The dtype after the failed call is not the one before it. *)
Theorem dtype_setter_partial_write :
  forall np_dtype_type : string -> result signal.dtype_fn,
    let s := sample.ramp in
    let run := signal.dtype_setter np_dtype_type
                 (signal.DtCallable signal.builtin_int) s in
    snd run
    = Raise (TypeError "only size-1 arrays can be converted to Python scalars")
    /\ signal.dtype s = Some signal.float64
    /\ signal.dtype (fst run) = Some signal.builtin_int
    /\ signal._values (fst run) = signal._values s
    /\ observable (fst run) <> observable s.
Proof.
  intro np_dtype_type. cbv zeta.
  split; [reflexivity|]. split; [reflexivity|]. split; [reflexivity|].
  split; [reflexivity|].
  intro Heq.
  apply (f_equal (fun t => match t with
                           | (_, _, d, _, _, _, _) =>
                               match d with
                               | Some f => signal.dt_name f
                               | None => ""%string
                               end
                           end)) in Heq.
  discriminate Heq.
Qed.

(** ** Broadcasting *)

Lemma zip_with_nth_error {A B C} (f : A -> B -> C) :
  forall a b idx x y,
    nth_error a idx = Some x ->
    nth_error b idx = Some y ->
    nth_error (np.zip_with f a b) idx = Some (f x y).
Proof.
  induction a as [|x0 a IH]; intros b idx x y Ha Hb.
  - destruct idx; discriminate.
  - destruct b as [|y0 b]; [destruct idx; discriminate|].
    destruct idx as [|idx]; simpl in *.
    + inversion Ha; inversion Hb; subst. reflexivity.
    + apply IH; assumption.
Qed.

Lemma zip_with_length {A B C} (f : A -> B -> C) :
  forall a b, length a = length b -> length (np.zip_with f a b) = length a.
Proof.
  induction a as [|x a IH]; intros [|y b] Hl; simpl in *; try lia.
  rewrite IH; lia.
Qed.

Lemma broadcast1_same_length {A B C} (f : A -> B -> C) (a : list A) (b : list B) :
  length a = length b -> np.broadcast1 f a b = Ok (np.zip_with f a b).
Proof.
  intro Hl. unfold np.broadcast1.
  destruct a as [|x [|x' a]]; destruct b as [|y [|y' b]];
    try discriminate Hl; try reflexivity.
  rewrite (proj2 (Nat.eqb_eq _ _) Hl). reflexivity.
Qed.

Lemma broadcast_rows_same_length {A B C} (f : A -> B -> C)
    (rows : list (list A)) (b : list B) :
  Forall (fun row => length row = length b) rows ->
  np.broadcast_rows f rows b = Ok (List.map (fun row => np.zip_with f row b) rows).
Proof.
  intro Hr. unfold np.broadcast_rows.
  rewrite <- mapM_pure. apply mapM_ext_in.
  intros row Hin. apply broadcast1_same_length.
  rewrite Forall_forall in Hr. apply Hr. exact Hin.
Qed.

(** A comparison that holds for the whole array holds for every entry. *)
Lemma all_zip_with_true {A B} (f : A -> B -> bool)
    (rows : list (list A)) (b : list B) :
  np.all (List.map (fun row => np.zip_with f row b) rows) = true ->
  forall row idx x y,
    In row rows -> nth_error row idx = Some x -> nth_error b idx = Some y ->
    f x y = true.
Proof.
  unfold np.all. intros Hall row idx x y Hin Hx Hy.
  rewrite forallb_forall in Hall.
  specialize (Hall (np.zip_with f row b) (in_map _ _ _ Hin)).
  rewrite forallb_forall in Hall.
  apply (Hall (f x y)).
  eapply nth_error_In. apply zip_with_nth_error; eassumption.
Qed.

(** A comparison that fails for one entry fails for the whole array. *)
Lemma all_zip_with_false {A B} (f : A -> B -> bool)
    (rows : list (list A)) (b : list B) row idx x y :
  In row rows -> nth_error row idx = Some x -> nth_error b idx = Some y ->
  f x y = false ->
  np.all (List.map (fun row => np.zip_with f row b) rows) = false.
Proof.
  intros Hin Hx Hy Hf.
  destruct (np.all _) eqn:E; [|reflexivity].
  rewrite (all_zip_with_true f rows b E row idx x y Hin Hx Hy) in Hf.
  discriminate.
Qed.

(** ** Mapping intensities to control inputs *)

Section Mapping.

Context {U : Type} `{UnitSystem U}.

Import signal MeasuredSpectraContainer.

Variable iso : Q -> Q -> bool -> list Q -> list Q -> result (list Q).
Variable inverse : list Q -> list Q -> Q * Q -> list Q -> result (list Q).

Lemma bounds_lengths (c : Container U) (lo hi : list Q) :
  bounds c = Ok (lo, hi) ->
  length lo = length (_container c) /\ length hi = length (_container c).
Proof.
  unfold bounds. intro Hb.
  destruct (intensities_list c) as [signals|e] eqn:Es; [|discriminate].
  cbn [rbind] in Hb.
  destruct (mapM _ signals) as [extremes|e] eqn:Ee; [|discriminate].
  cbn [rbind] in Hb.
  destruct (zero_boundary c) as [zb|e]; [|discriminate]. cbn [rbind] in Hb.
  destruct (isnan_array zb) as [nans|e]; [|discriminate]. cbn [rbind] in Hb.
  apply mapM_length in Es. apply mapM_length in Ee.
  assert (Hlo : forall (m : list bool) (z : list Q),
             length (np.mask_assign (List.map fst extremes) m z)
             = length extremes)
    by (intros; rewrite mask_assign_length, length_map; reflexivity).
  destruct extremes as [|e0 extremes]; [discriminate|].
  injection Hb as <- <-.
  split.
  - transitivity (length (e0 :: extremes)); [|lia].
    exact (Hlo (List.map negb nans)
             (List.map (fun _ => 0) (e0 :: extremes))).
  - change (length (List.map snd (e0 :: extremes)) = length (_container c)).
    rewrite length_map. lia.
Qed.

(** One turn of the loop: the mapper is looked up, the column is recorded
    and handed to it. *)
Lemma apply_mapper_step (x : list (list Q)) (ms : list mapper_t)
    (idx : nat) (c : Container U) :
  _mapper c = Some ms ->
  (nth_error ms idx = None
   /\ apply_mapper x idx c = (c, Raise (IndexError "index out of range")))
  \/ (exists mapper,
        nth_error ms idx = Some mapper
        /\ apply_mapper x idx c
           = (record_call idx (np.column idx x) c, mapper (np.column idx x))).
Proof.
  intro Hm. unfold apply_mapper, bind, get, lift, modify, getitem.
  rewrite Hm.
  destruct (nth_error ms idx) as [mapper|].
  - right. exists mapper. split; [reflexivity|].
    destruct (mapper (np.column idx x)); reflexivity.
  - left. split; reflexivity.
Qed.

(** The loop of [_mapper_func] only appends to the trace, and each entry
    is a column of [x] together with the index of the mapper it was given
    to. *)
Lemma for_each_apply_mapper_trace (x : list (list Q)) (ms : list mapper_t) :
  forall (idxs : list nat) (c c' : Container U) r,
    _mapper c = Some ms ->
    for_each (apply_mapper x) idxs c = (c', r) ->
    exists calls,
      mapper_calls c' = mapper_calls c ++ calls
      /\ forall idx col,
           In (idx, col) calls ->
           col = np.column idx x /\ (idx < length ms)%nat.
Proof.
  induction idxs as [|idx idxs IH]; intros c c' r Hm Hf.
  - simpl in Hf. inversion Hf; subst.
    exists []. rewrite app_nil_r. split; [reflexivity|]. intros ? ? [].
  - cbn [for_each] in Hf. unfold bind at 1 in Hf.
    destruct (apply_mapper_step x ms idx c Hm)
      as [[En Estep]|(mapper & En & Estep)]; rewrite Estep in Hf.
    + inversion Hf; subst.
      exists []. rewrite app_nil_r. split; [reflexivity|]. intros ? ? [].
    + assert (Hidx : (idx < length ms)%nat).
      { apply nth_error_Some. rewrite En. discriminate. }
      destruct (mapper (np.column idx x)) as [out|e].
      * unfold bind in Hf.
        destruct (for_each (apply_mapper x) idxs
                    (record_call idx (np.column idx x) c)) as [c1 r1] eqn:E1.
        destruct (IH (record_call idx (np.column idx x) c) _ _ Hm E1)
          as (calls & Hcalls & Hin).
        assert (Hc' : c' = c1).
        { unfold ret in Hf. destruct r1; inversion Hf; reflexivity. }
        subst c1.
        exists ((idx, np.column idx x) :: calls).
        split.
        -- rewrite Hcalls. cbn [record_call mapper_calls].
           rewrite <- app_assoc. reflexivity.
        -- intros i col [Heq|Hi].
           ++ inversion Heq; subst. split; [reflexivity | assumption].
           ++ apply Hin. assumption.
      * inversion Hf; subst.
        exists [(idx, np.column idx x)].
        split; [reflexivity|].
        intros i col [Heq|[]]. inversion Heq; subst.
        split; [reflexivity | assumption].
Qed.

Lemma enumerate_length {A} (l : list A) : length (enumerate l) = length l.
Proof.
  unfold enumerate. rewrite length_combine, length_seq. lia.
Qed.

Lemma mapper_func_trace (x : list (list Q)) (c c' : Container U) r :
  cache_matches c ->
  _mapper_func iso inverse x c = (c', r) ->
  exists calls,
    mapper_calls c' = mapper_calls c ++ calls
    /\ forall idx col,
         In (idx, col) calls ->
         col = np.column idx x /\ (idx < length (_container c))%nat.
Proof.
  intros Hwf Hf.
  unfold _mapper_func in Hf. unfold bind at 1, get in Hf.
  unfold bind at 1 in Hf.
  destruct (_mapper c) as [ms|] eqn:Em.
  - unfold ret at 1 in Hf. unfold bind in Hf.
    destruct (for_each (apply_mapper x) (seq 0 (np.ncols x)) c)
      as [c1 r1] eqn:E1.
    destruct (for_each_apply_mapper_trace x ms _ _ _ _ Em E1)
      as (calls & Hcalls & Hin).
    assert (Hc' : c' = c1).
    { unfold ret in Hf. destruct r1; inversion Hf; reflexivity. }
    subst c1. exists calls. split; [assumption|].
    intros idx col Hi. rewrite <- (Hwf ms Em). apply Hin. assumption.
  - unfold bind at 1, lift in Hf.
    destruct (mapM _ (enumerate (_container c))) as [mappers|e] eqn:Emap.
    + unfold modify in Hf. unfold bind in Hf.
      destruct (for_each (apply_mapper x) (seq 0 (np.ncols x))
                  (set_mapper (Some mappers) c)) as [c1 r1] eqn:E1.
      destruct (for_each_apply_mapper_trace x mappers _
                  (set_mapper (Some mappers) c) _ _ eq_refl E1)
        as (calls & Hcalls & Hin).
      assert (Hc' : c' = c1).
      { unfold ret in Hf. destruct r1; inversion Hf; reflexivity. }
      subst c1. exists calls. split; [assumption|].
      intros idx col Hi.
      apply mapM_length in Emap. rewrite enumerate_length in Emap.
      rewrite <- Emap. apply Hin. assumption.
    + inversion Hf; subst. exists []. rewrite app_nil_r.
      split; [reflexivity|]. intros ? ? [].
Qed.

(** What [_pre_mapping] accepts it returns unchanged, and every entry of
    it lies within the bounds of its channel. *)
Lemma pre_mapping_accepts (c : Container U) (values v : np.ndarray)
    (lo hi : list Q) :
  bounds c = Ok (lo, hi) ->
  Forall (fun row => length row = length lo) (np.atleast_2d values) ->
  _pre_mapping c values = Ok v ->
  v = values
  /\ forall row idx x,
       In row (np.atleast_2d values) -> nth_error row idx = Some x ->
       within lo hi idx x.
Proof.
  intros Hb Hshape Hp.
  destruct (bounds_lengths c lo hi Hb) as [Hlo Hhi].
  unfold _pre_mapping in Hp. rewrite Hb in Hp. cbn [rbind fst snd] in Hp.
  rewrite broadcast_rows_same_length in Hp by exact Hshape.
  cbn [rbind] in Hp.
  rewrite broadcast_rows_same_length in Hp
    by (eapply Forall_impl; [|exact Hshape]; intros; simpl in *; lia).
  cbn [rbind] in Hp.
  destruct (np.all _ && np.all _) eqn:Et; [|discriminate].
  inversion Hp; subst v. split; [reflexivity|].
  apply andb_true_iff in Et. destruct Et as [Ha Hbelow].
  intros row idx x Hin Hx.
  assert (Hlen : (idx < length lo)%nat).
  { rewrite Forall_forall in Hshape. rewrite <- (Hshape row Hin).
    apply nth_error_Some. rewrite Hx. discriminate. }
  destruct (nth_error lo idx) as [l|] eqn:El;
    [| apply nth_error_None in El; lia].
  destruct (nth_error hi idx) as [h|] eqn:Eh;
    [| apply nth_error_None in Eh; lia].
  exists l, h. split; [exact El|]. split; [exact Eh|].
  split.
  - apply Qle_bool_iff.
    exact (all_zip_with_true _ _ _ Ha row idx x l Hin Hx El).
  - apply Qle_bool_iff.
    exact (all_zip_with_true _ _ _ Hbelow row idx x h Hin Hx Eh).
Qed.

(** An entry outside the bounds of its channel makes [_pre_mapping]
    raise. *)
Lemma pre_mapping_rejects (c : Container U) (values : np.ndarray)
    (lo hi : list Q) :
  bounds c = Ok (lo, hi) ->
  Forall (fun row => length row = length lo) (np.atleast_2d values) ->
  some_entry_outside lo hi (np.atleast_2d values) ->
  _pre_mapping c values
  = Raise (AssertionError "some values to be mapped are out of bounds.").
Proof.
  intros Hb Hshape (row & idx & v & l & h & Hin & Hv & Hl & Hh & Hout).
  destruct (bounds_lengths c lo hi Hb) as [Hlo Hhi].
  unfold _pre_mapping. rewrite Hb. cbn [rbind fst snd].
  rewrite broadcast_rows_same_length by exact Hshape.
  cbn [rbind].
  rewrite broadcast_rows_same_length
    by (eapply Forall_impl; [|exact Hshape]; intros; simpl in *; lia).
  cbn [rbind].
  destruct Hout as [Hlow|Hhigh].
  - rewrite (all_zip_with_false (fun v m => Qle_bool m v) _ lo row idx v l
               Hin Hv Hl).
    + reflexivity.
    + destruct (Qle_bool l v) eqn:E; [|reflexivity].
      apply Qle_bool_iff in E. exfalso. exact (Qlt_not_le _ _ Hlow E).
  - rewrite (all_zip_with_false (fun v m => Qle_bool v m) _ hi row idx v h
               Hin Hv Hh).
    + rewrite andb_false_r. reflexivity.
    + destruct (Qle_bool v h) eqn:E; [|reflexivity].
      apply Qle_bool_iff in E. exfalso. exact (Qlt_not_le _ _ Hhigh E).
Qed.

(** C1. For a container whose bounds are [(lo, hi)] and a sample-by-channel
    array (every row has one entry per channel; a single sample is one
    row): if some entry lies outside the bounds of its channel, [map]
    raises the bounds violation and touches nothing; and whatever [map]
    does, every column it hands to a per-channel mapper is a column of the
    input as given (not clipped) whose entries all lie within the bounds of
    that channel. *)
Theorem map_validates_before_mapping :
  forall (c : Container U) (values : np.ndarray) (units : bool)
         (lo hi : list Q),
    bounds c = Ok (lo, hi) ->
    cache_matches c ->
    Forall (fun row => length row = length lo) (np.atleast_2d values) ->
    (some_entry_outside lo hi (np.atleast_2d values) ->
     map iso inverse values units c
     = (c, Raise (AssertionError "some values to be mapped are out of bounds.")))
    /\ (forall c' r,
          map iso inverse values units c = (c', r) ->
          exists calls,
            mapper_calls c' = mapper_calls c ++ calls
            /\ forall idx col,
                 In (idx, col) calls ->
                 col = np.column idx (np.atleast_2d values)
                 /\ forall v, In v col -> within lo hi idx v).
Proof.
  intros c values units lo hi Hb Hwf Hshape.
  destruct (bounds_lengths c lo hi Hb) as [Hlo Hhi].
  split.
  - intro Hout. unfold map, bind, get, lift.
    rewrite (pre_mapping_rejects c values lo hi Hb Hshape Hout).
    reflexivity.
  - intros c' r Hmap.
    unfold map in Hmap. unfold bind at 1, get in Hmap.
    unfold bind at 1, lift in Hmap.
    destruct (_pre_mapping c values) as [v|e] eqn:Ep.
    + destruct (pre_mapping_accepts c values v lo hi Hb Hshape Ep)
        as [-> Hwithin].
      unfold bind at 1 in Hmap.
      assert (Hnd : Nat.ltb (np.ndim values) 3 = true)
        by (destruct values; reflexivity).
      rewrite Hnd in Hmap. unfold ret at 1 in Hmap.
      unfold bind at 1 in Hmap.
      destruct (_mapper_func iso inverse (np.atleast_2d values) c)
        as [c1 r1] eqn:Ef.
      destruct (mapper_func_trace _ _ _ _ Hwf Ef) as (calls & Hcalls & Hin).
      assert (Hc' : c' = c1).
      { destruct r1 as [x|e]; [|inversion Hmap; reflexivity].
        unfold bind, get, lift in Hmap.
        destruct (if Nat.eqb (np.ndim values) 1
                  then (r0 <- getitem x 0 ;; Ok (np.Arr1 r0))%result
                  else Ok (np.Arr2 x)) as [x'|e];
          inversion Hmap; reflexivity. }
      subst c1. exists calls. split; [assumption|].
      intros idx col Hi. destruct (Hin idx col Hi) as [-> Hidx].
      split; [reflexivity|].
      intros v Hv. unfold np.column in Hv. apply in_map_iff in Hv.
      destruct Hv as (row & <- & Hrow).
      apply (Hwithin row idx _ Hrow).
      apply nth_error_nth'.
      rewrite Forall_forall in Hshape. rewrite (Hshape row Hrow). lia.
    + inversion Hmap; subst. exists []. rewrite app_nil_r.
      split; [reflexivity|]. intros ? ? [].
Qed.

End Mapping.


Lemma map_validates_before_mapping_witness :
  let c := MeasuredSpectraContainer.__init__ [sample.rising_led_zero] in
  let values := np.Arr1 [500] in
  let lo := [0] in
  let hi := [1600 # 4] in
  MeasuredSpectraContainer.bounds c = Ok (lo, hi)
  /\ cache_matches c
  /\ Forall (fun row => length row = length lo) (np.atleast_2d values)
  /\ (some_entry_outside lo hi (np.atleast_2d values) ->
      MeasuredSpectraContainer.map sample.identity_regression
        sample.identity_mapper values false c
      = (c, Raise (AssertionError "some values to be mapped are out of bounds.")))
  /\ (forall c' r,
        MeasuredSpectraContainer.map sample.identity_regression
          sample.identity_mapper values false c = (c', r) ->
        exists calls,
          MeasuredSpectraContainer.mapper_calls c'
          = MeasuredSpectraContainer.mapper_calls c ++ calls
          /\ forall idx col,
               In (idx, col) calls ->
               col = np.column idx (np.atleast_2d values)
               /\ forall v, In v col -> within lo hi idx v).
Proof.
  cbv zeta.
  assert (Hb : MeasuredSpectraContainer.bounds
                 (MeasuredSpectraContainer.__init__ [sample.rising_led_zero])
               = Ok ([0], [1600 # 4])) by reflexivity.
  assert (Hc : cache_matches
                 (MeasuredSpectraContainer.__init__ [sample.rising_led_zero]))
    by (intros ms Hms; discriminate Hms).
  assert (Hs : Forall (fun row : list Q => length row = length [0])
                 (np.atleast_2d (np.Arr1 [500])))
    by (repeat constructor).
  split; [exact Hb|]. split; [exact Hc|]. split; [exact Hs|].
  exact (map_validates_before_mapping sample.identity_regression
           sample.identity_mapper
           (MeasuredSpectraContainer.__init__ [sample.rising_led_zero])
           (np.Arr1 [500]) false [0] [1600 # 4] Hb Hc Hs).
Defined.

(** The bounds of the sample channel are 0 to 400; 500 is rejected, and
    100 reaches the mapper of channel 0 as it is. *)
Example map_rejects_500 :
  let c := MeasuredSpectraContainer.__init__ [sample.rising_led_zero] in
  MeasuredSpectraContainer.map sample.identity_regression
    sample.identity_mapper (np.Arr1 [500]) false c
  = (c, Raise (AssertionError "some values to be mapped are out of bounds.")).
Proof. reflexivity. Qed.

Example map_accepts_100 :
  let c := MeasuredSpectraContainer.__init__ [sample.rising_led_zero] in
  let r := MeasuredSpectraContainer.map sample.identity_regression
             sample.identity_mapper (np.Arr1 [100]) false c in
  MeasuredSpectraContainer.mapper_calls (fst r) = [(0%nat, [100])]
  /\ is_ok (snd r) = true.
Proof. split; reflexivity. Qed.

(** ** Minimum and maximum of an array *)

Lemma minimum_le_l a b : np.minimum a b <= a.
Proof.
  unfold np.minimum. destruct (Qle_bool a b) eqn:E.
  - apply Qle_refl.
  - apply Qlt_le_weak. apply Qlt_bool_iff. unfold Qlt_bool. rewrite E.
    reflexivity.
Qed.

Lemma minimum_le_r a b : np.minimum a b <= b.
Proof.
  unfold np.minimum. destruct (Qle_bool a b) eqn:E.
  - apply Qle_bool_iff. exact E.
  - apply Qle_refl.
Qed.

Lemma minimum_cases a b : np.minimum a b = a \/ np.minimum a b = b.
Proof. unfold np.minimum. destruct (Qle_bool a b); auto. Qed.

Lemma maximum_ge_l a b : a <= np.maximum a b.
Proof.
  unfold np.maximum. destruct (Qle_bool a b) eqn:E.
  - apply Qle_bool_iff. exact E.
  - apply Qle_refl.
Qed.

Lemma maximum_ge_r a b : b <= np.maximum a b.
Proof.
  unfold np.maximum. destruct (Qle_bool a b) eqn:E.
  - apply Qle_refl.
  - apply Qlt_le_weak. apply Qlt_bool_iff. unfold Qlt_bool. rewrite E.
    reflexivity.
Qed.

Lemma maximum_cases a b : np.maximum a b = a \/ np.maximum a b = b.
Proof. unfold np.maximum. destruct (Qle_bool a b); auto. Qed.

Lemma fold_minimum_spec :
  forall l x,
    (fold_left np.minimum l x = x \/ In (fold_left np.minimum l x) l)
    /\ fold_left np.minimum l x <= x
    /\ forall v, In v l -> fold_left np.minimum l x <= v.
Proof.
  induction l as [|a l IH]; intro x; simpl.
  - split; [left; reflexivity|]. split; [apply Qle_refl | intros v []].
  - destruct (IH (np.minimum x a)) as (Hin & Hle & Hall).
    split; [|split].
    + destruct Hin as [Heq|Hin]; [|right; right; exact Hin].
      rewrite Heq. destruct (minimum_cases x a) as [E|E]; rewrite E; auto.
    + eapply Qle_trans; [exact Hle | apply minimum_le_l].
    + intros v [<-|Hv].
      * eapply Qle_trans; [exact Hle | apply minimum_le_r].
      * apply Hall. exact Hv.
Qed.

Lemma fold_maximum_spec :
  forall l x,
    (fold_left np.maximum l x = x \/ In (fold_left np.maximum l x) l)
    /\ x <= fold_left np.maximum l x
    /\ forall v, In v l -> v <= fold_left np.maximum l x.
Proof.
  induction l as [|a l IH]; intro x; simpl.
  - split; [left; reflexivity|]. split; [apply Qle_refl | intros v []].
  - destruct (IH (np.maximum x a)) as (Hin & Hle & Hall).
    split; [|split].
    + destruct Hin as [Heq|Hin]; [|right; right; exact Hin].
      rewrite Heq. destruct (maximum_cases x a) as [E|E]; rewrite E; auto.
    + eapply Qle_trans; [apply maximum_ge_l | exact Hle].
    + intros v [<-|Hv].
      * eapply Qle_trans; [apply maximum_ge_r | exact Hle].
      * apply Hall. exact Hv.
Qed.

(** [np.min] returns an entry that no entry is below. *)
Lemma np_min_spec (a : np.ndarray) (m : Q) :
  np.min a = Ok m ->
  In m (np.flatten a) /\ forall v, In v (np.flatten a) -> m <= v.
Proof.
  unfold np.min. destruct (np.flatten a) as [|x l]; [discriminate|].
  intro E. inversion E; subst m.
  destruct (fold_minimum_spec l x) as (Hin & Hle & Hall).
  split.
  - destruct Hin as [->|Hin]; [left; reflexivity | right; exact Hin].
  - intros v [<-|Hv]; [exact Hle | apply Hall; exact Hv].
Qed.

(** [np.max] returns an entry that no entry is above. *)
Lemma np_max_spec (a : np.ndarray) (m : Q) :
  np.max a = Ok m ->
  In m (np.flatten a) /\ forall v, In v (np.flatten a) -> v <= m.
Proof.
  unfold np.max. destruct (np.flatten a) as [|x l]; [discriminate|].
  intro E. inversion E; subst m.
  destruct (fold_maximum_spec l x) as (Hin & Hle & Hall).
  split.
  - destruct Hin as [->|Hin]; [left; reflexivity | right; exact Hin].
  - intros v [<-|Hv]; [exact Hle | apply Hall; exact Hv].
Qed.

Lemma np_min_defined (a : np.ndarray) :
  np.flatten a <> [] -> exists m, np.min a = Ok m.
Proof.
  unfold np.min. destruct (np.flatten a); [congruence|]. eexists. reflexivity.
Qed.

Lemma np_max_defined (a : np.ndarray) :
  np.flatten a <> [] -> exists m, np.max a = Ok m.
Proof.
  unfold np.max. destruct (np.flatten a); [congruence|]. eexists. reflexivity.
Qed.

(** ** The domain guard of [__call__] *)

Section DomainGuard.

Context {U : Type} `{UnitSystem U}.

Import scipy signal.













End DomainGuard.






(** A query that extends beyond both bounds passes the guard: the error
    it ends in comes from the interpolator. *)
Example call_beyond_bounds_passes_guard :
  exceeds_bounds (Some 0) (Some 1) [-1; 2]
  /\ snd (signal.__call__ (signal.QCoords (scipy.C1 [-1; 2]))
            sample.ramp_bounded)
     = Raise (ValueError "A value in x_new is outside the interpolation range.").
Proof.
  split; [|reflexivity].
  left. exists 0, (-1). split; [reflexivity|]. split; [left; reflexivity|].
  unfold Qlt; simpl; lia.
Qed.

(** The guard mixes units for a [Domain] in units other than those of the
    signal.  On a signal over [[0, 1000]] nm with [domain_max = 1000 nm],
    the query [Domain([0, 0.5], 'um')] ends at 500 nm, short of the bound,
    and passes the guard: its coordinates are compared in nanometres
    (500) with the bound in micrometres (1).  The same coordinates given
    in nanometres are rejected. *)
Example call_guard_mixes_units :
  let s := sample.ramp_to_1000 in
  let um := signal.mkDomain [0; 1 # 2] micrometre (Some signal.float64) in
  let nm := signal.mkDomain [0; 500] nanometre (Some signal.float64) in
  (exists d,
     signal.convert_query s (signal.QDomain um)
     = Ok (micrometre, signal.FromDomain d)
     /\ signal.dom_units d = nanometre
     /\ Qeq_list (signal.dom_magnitude d) [0; 500])
  /\ (exists m,
        bound_in (signal.domain_max s) micrometre = Ok (Some m) /\ m == 1)
  /\ bound_in (signal.domain_max s) nanometre = Ok (Some 1000)
  /\ is_ok (snd (signal.__call__ (signal.QDomain um) s)) = true
  /\ snd (signal.__call__ (signal.QDomain nm) s)
     = Raise (DreyeError "Interpolation domain below domain maximum.").
Proof.
  cbv zeta. split; [|split; [|repeat split]].
  - eexists. split; [reflexivity|]. split; [reflexivity|].
    repeat constructor.
  - eexists. split; reflexivity.
Qed.


(** ** What [__call__] returns *)

Section CallResult.

Context {U : Type} `{UnitSystem U}.

Import scipy signal.

(** Reading [interpolate] writes the axis into the keyword arguments and
    may fill the cache; nothing else of the receiver changes. *)
Lemma interpolate_state (s s' : Signal U) r :
  interpolate s = (s', r) ->
  exists kw c, s' = set_interpolate c (set_interpolator_kwargs kw s).
Proof.
  unfold interpolate, cached_interpolant, interpolator_kwargs.
  unfold bind, get, ret, lift, modify.
  destruct (_interpolate s) as [f|] eqn:Ec.
  - intro E. inversion E; subst.
    exists (_interpolator_kwargs s'), (Some f).
    destruct s'; simpl in *. subst. reflexivity.
  - cbn [interpolator set_interpolator_kwargs _interpolator domain_axis
           _domain_axis _interpolator_kwargs].
    match goal with
    | |- context [_interpolator s ?x ?y ?kw] =>
        destruct (_interpolator s x y kw) as [f|e]
    end; intro E; inversion E; subst.
    + eexists. exists (Some f). reflexivity.
    + exists (kwargs_set "axis" (PInt (Z.of_nat (_domain_axis s)))
                (_interpolator_kwargs s)), None.
      destruct s; simpl in *. subst. reflexivity.
Qed.



End CallResult.


(** A scalar query and a query of one coordinate give a bare array, a query
    of two coordinates gives a signal on the new domain. *)
Example call_scalar_is_bare :
  exists v,
    snd (signal.__call__ (signal.QCoords (scipy.C0 450)) sample.two_channels)
    = Ok (signal.Bare (mkQuantity (np.Arr1 v) irradiance))
    /\ Qeq_list v [3 # 2; 9 # 2].
Proof.
  eexists. split; [reflexivity|].
  repeat constructor.
Qed.

Example call_single_coordinate_is_bare :
  exists v,
    snd (signal.__call__ (signal.QCoords (scipy.C1 [450])) sample.two_channels)
    = Ok (signal.Bare (mkQuantity (np.Arr2 [v]) irradiance))
    /\ Qeq_list v [3 # 2; 9 # 2].
Proof.
  eexists. split; [reflexivity|].
  repeat constructor.
Qed.

Example call_two_coordinates_is_signal :
  exists n,
    snd (signal.__call__ (signal.QCoords (scipy.C1 [450; 550]))
           sample.two_channels)
    = Ok (signal.Resampled n)
    /\ signal.dom_magnitude (signal._domain n) = [450; 550]
    /\ signal.array_equal (signal._values n)
         (np.Arr2 [[3 # 2; 9 # 2]; [5 # 2; 11 # 2]]) = true.
Proof.
  eexists. split; [reflexivity|]. split; reflexivity.
Qed.

(** ** Integral and normalisation *)

Section Normalisation.

Import signal.

Lemma pair_sums_scaled (i : Q) :
  forall ys,
    Forall2 (fun a b => a == b / i)
      (np.pair_sums (List.map (fun y => y / i) ys)) (np.pair_sums ys).
Proof.
  induction ys as [|y0 [|y1 ys] IH]; simpl; try constructor.
  - unfold Qdiv. ring.
  - exact IH.
Qed.

Lemma sum_scaled (i : Q) :
  forall p' p,
    Forall2 (fun a b => a == b / i) p' p -> np.sum p' == np.sum p / i.
Proof.
  induction 1 as [|a b p' p Hab HF IH]; simpl.
  - unfold Qdiv. ring.
  - rewrite Hab, IH. unfold Qdiv. ring.
Qed.

Lemma trapezoid_scaled (i d a b : Q) :
  a == b / i -> d * a / 2 == d * b / 2 / i.
Proof. intro Hab. rewrite Hab. unfold Qdiv. ring. Qed.

Lemma Forall2_map_r_scaled (i d : Q) :
  forall b' b,
    Forall2 (fun a b => a == b / i) b' b ->
    Forall2 (fun a b => a == b / i)
      (List.map (fun s => d * s / 2) b') (List.map (fun s => d * s / 2) b).
Proof.
  induction 1; simpl; constructor; [apply trapezoid_scaled|]; assumption.
Qed.

Lemma Forall2_map_l_scaled (i s' s : Q) :
  s' == s / i ->
  forall a,
    Forall2 (fun a b => a == b / i)
      (List.map (fun d => d * s' / 2) a) (List.map (fun d => d * s / 2) a).
Proof.
  intros Hs a. induction a; simpl; constructor;
    [apply trapezoid_scaled; exact Hs | assumption].
Qed.

Lemma Forall2_zip_with_scaled (i : Q) :
  forall a b' b,
    Forall2 (fun a b => a == b / i) b' b ->
    Forall2 (fun a b => a == b / i)
      (np.zip_with (fun d s => d * s / 2) a b')
      (np.zip_with (fun d s => d * s / 2) a b).
Proof.
  induction a as [|d a IH]; intros b' b HF; simpl; [constructor|].
  destruct HF; constructor; [apply trapezoid_scaled; assumption|].
  apply IH. assumption.
Qed.

(** Broadcasting treats a scaled operand as it treats the operand. *)
Lemma broadcast1_scaled (i : Q) (a b' b p : list Q) :
  Forall2 (fun a b => a == b / i) b' b ->
  np.broadcast1 (fun d s => d * s / 2) a b = Ok p ->
  exists p',
    np.broadcast1 (fun d s => d * s / 2) a b' = Ok p'
    /\ Forall2 (fun a b => a == b / i) p' p.
Proof.
  intros HF Hb.
  pose proof (Forall2_length HF) as Hlen.
  unfold np.broadcast1 in *.
  destruct a as [|d [|d' a]].
  - destruct HF as [|s' s b' b Hs HF].
    + inversion Hb; subst. exists []. split; [reflexivity | constructor].
    + destruct HF as [|s2' s2 b' b Hs2 HF].
      * inversion Hb; subst. exists []. split; [reflexivity | constructor].
      * simpl in Hb. discriminate.
  - inversion Hb; subst. eexists. split; [reflexivity|].
    apply Forall2_map_r_scaled. exact HF.
  - destruct HF as [|s' s b' b Hs HF].
    + simpl in Hb. discriminate.
    + destruct HF as [|s2' s2 b' b Hs2 HF].
      * inversion Hb; subst. eexists. split; [reflexivity|].
        exact (Forall2_map_l_scaled i s' s Hs (d :: d' :: a)).
      * simpl in Hlen. simpl length in Hb. simpl length.
        injection Hlen as Hlen. rewrite Hlen.
        destruct (Nat.eqb _ _); [|discriminate].
        inversion Hb; subst. eexists. split; [reflexivity|].
        refine (Forall2_zip_with_scaled i (d :: d' :: a) (s' :: s2' :: b')
                  (s :: s2 :: b) _).
        constructor; [exact Hs|]. constructor; [exact Hs2 | exact HF].
Qed.

(** The trapezoidal integral is linear: dividing the series by [i]
    divides the integral by [i]. *)
Lemma trapz1_scaled (ys x : list Q) (i v : Q) :
  np.trapz1 ys x = Ok v ->
  exists v',
    np.trapz1 (List.map (fun y => y / i) ys) x = Ok v' /\ v' == v / i.
Proof.
  unfold np.trapz1. intro Ht.
  destruct (np.broadcast1 _ (np.diff x) (np.pair_sums ys)) as [p|e] eqn:Eb;
    [|discriminate].
  cbn [rbind] in Ht. inversion Ht; subst v.
  destruct (broadcast1_scaled i _ _ _ _ (pair_sums_scaled i ys) Eb)
    as (p' & Eb' & HF).
  rewrite Eb'. cbn [rbind]. eexists. split; [reflexivity|].
  apply sum_scaled. exact HF.
Qed.

(** Channels divided by their own integrals integrate to one. *)
Lemma divided_channels_integrate_to_one (x : list Q) :
  forall chs is_ chs',
    mapM (fun ch => np.trapz1 ch x) chs = Ok is_ ->
    Forall (fun v => ~ v == 0) is_ ->
    Forall2 divided_by chs' (combine chs is_) ->
    exists js,
      mapM (fun ch => np.trapz1 ch x) chs' = Ok js
      /\ Forall (fun v => v == 1) js.
Proof.
  induction chs as [|ch chs IH]; intros is_ chs' Hm Hnz Hd.
  - simpl in Hm. inversion Hm; subst. simpl in Hd. inversion Hd; subst.
    exists []. split; [reflexivity | constructor].
  - simpl in Hm.
    destruct (np.trapz1 ch x) as [i|e] eqn:Et; [|discriminate].
    destruct (mapM _ chs) as [is'|e] eqn:Em; [|discriminate].
    inversion Hm; subst is_. simpl in Hd.
    inversion Hd as [|ch' p chs'' ps Hdiv Hrest]; subst.
    inversion Hnz as [|? ? Hi Hnz']; subst.
    destruct (IH is' chs'' eq_refl Hnz' Hrest) as (js & Ejs & Hjs).
    destruct (trapz1_scaled ch x i i Et) as (v' & Ev' & Hv').
    unfold divided_by in Hdiv. simpl in Hdiv. subst ch'.
    simpl. rewrite Ev', Ejs. eexists. split; [reflexivity|].
    constructor; [|exact Hjs].
    rewrite Hv'. unfold Qdiv. apply Qmult_inv_r. exact Hi.
Qed.

End Normalisation.


Section NormalisedSignal.

Context {U : Type} `{UnitSystem U}.

Import signal.

Lemma Forall2_zip_with_combine {A B C} (g : A -> B -> C) :
  forall a b,
    Forall2 (fun c p => c = g (fst p) (snd p)) (np.zip_with g a b) (combine a b).
Proof.
  induction a as [|x a IH]; intros [|y b]; simpl; constructor;
    [reflexivity | apply IH].
Qed.

Lemma Forall2_map_l_eq {A B} (h : B -> A) :
  forall l, Forall2 (fun c p => c = h p) (List.map h l) l.
Proof.
  induction l; simpl; constructor; [reflexivity | assumption].
Qed.

Lemma nth_zip_with_div (r is_ : list Q) (j : nat) :
  (j < length r)%nat -> (j < length is_)%nat ->
  nth j (np.zip_with Qdiv r is_) 0 = nth j r 0 / nth j is_ 0.
Proof.
  intros Hr Hi.
  apply nth_error_nth.
  apply zip_with_nth_error; apply nth_error_nth'; assumption.
Qed.

Lemma length_columns (rows : list (list Q)) :
  length (np.columns rows) = np.ncols rows.
Proof. unfold np.columns. rewrite length_map, length_seq. reflexivity. Qed.

Lemma nth_columns (rows : list (list Q)) (j : nat) :
  (j < np.ncols rows)%nat ->
  nth j (np.columns rows) [] = np.column j rows.
Proof.
  intro Hj. unfold np.columns.
  rewrite (nth_indep _ [] (np.column 0 rows))
    by (rewrite length_map, length_seq; exact Hj).
  rewrite (map_nth (fun j => np.column j rows) (seq 0 (np.ncols rows)) 0%nat j).
  rewrite seq_nth by exact Hj. reflexivity.
Qed.

(** With the domain along axis 0, dividing every row entry by entry by
    the integrals divides every column by its integral. *)
Lemma columns_divided (rows : list (list Q)) (is_ : list Q) :
  np.rectangular rows ->
  length is_ = np.ncols rows ->
  np.columns (List.map (fun row => np.zip_with Qdiv row is_) rows)
  = List.map (fun p => List.map (fun y => y / snd p) (fst p))
      (combine (np.columns rows) is_).
Proof.
  intros Hrect Hlen.
  assert (Hnc : np.ncols (List.map (fun row => np.zip_with Qdiv row is_) rows)
                = np.ncols rows).
  { unfold np.ncols. destruct rows as [|r0 rows]; [reflexivity|]. simpl.
    rewrite zip_with_length; [reflexivity|].
    unfold np.ncols in Hlen. simpl in Hlen. lia. }
  apply (nth_ext _ _ [] []).
  - rewrite length_columns, Hnc, length_map, length_combine, length_columns.
    lia.
  - intros j Hj. rewrite length_columns, Hnc in Hj.
    rewrite nth_columns by (rewrite Hnc; exact Hj).
    rewrite (nth_indep _ []
               ((fun p : list Q * Q => List.map (fun y => y / snd p) (fst p))
                  (@nil Q, 0)))
      by (rewrite length_map, length_combine, length_columns; lia).
    rewrite (map_nth (fun p => List.map (fun y => y / snd p) (fst p))
               (combine (np.columns rows) is_) (@nil Q, 0) j).
    rewrite combine_nth by (rewrite length_columns; lia).
    rewrite nth_columns by exact Hj.
    cbn [fst snd]. unfold np.column. rewrite !map_map.
    apply map_ext_in. intros r Hr.
    apply nth_zip_with_div.
    + unfold np.rectangular in Hrect. rewrite Forall_forall in Hrect.
      rewrite (Hrect r Hr). exact Hj.
    + lia.
Qed.

(** C7. For a signal whose integral exists and is non-zero for every
    channel, [normalized_signal] returns the signal with every channel
    divided by its own integral, and the integral of that signal is 1 for
    every channel. *)
Theorem normalized_signal_integrates_to_one :
  forall (s : Signal U) (i : Quantity U np.ndarray),
    rectangular_values s ->
    integral s = Ok i ->
    Forall (fun v => ~ v == 0) (np.flatten (q_magnitude i)) ->
    exists n j,
      normalized_signal s = Ok n
      /\ Forall2 divided_by (channels n)
           (combine (channels s) (np.flatten (q_magnitude i)))
      /\ domain n = domain s
      /\ integral n = Ok j
      /\ Forall (fun v => v == 1) (np.flatten (q_magnitude j)).
Proof.
  intros s i Hrect Hint Hnz.
  unfold normalized_signal. rewrite Hint. cbn [rbind].
  unfold integral, np.trapz in Hint.
  unfold rectangular_values in Hrect.
  unfold divide_by_channel, integral, channels, np.trapz, copy.
  unfold domain in *.
  destruct (magnitude s) as [v0|ys|rows] eqn:Em; [discriminate| |].
  - (* one channel *)
    destruct (np.trapz1 ys (dom_magnitude (_domain s))) as [v|e] eqn:Et;
      [|discriminate].
    cbn [rbind] in Hint. inversion Hint; subst i.
    cbn [q_magnitude q_units np.flatten] in *.
    inversion Hnz as [|? ? Hv _]; subst.
    destruct (trapz1_scaled ys _ v v Et) as (v' & Ev' & Hv').
    cbn [rbind].
    eexists. eexists. split; [reflexivity|].
    cbn [magnitude _values set_values set_units set_interpolate copy
           domain _domain domain_axis _domain_axis].
    split; [repeat constructor|]. split; [reflexivity|].
    rewrite Ev'. cbn [rbind].
    split; [reflexivity|].
    cbn [np.flatten q_magnitude].
    constructor; [|constructor].
    rewrite Hv'. unfold Qdiv. apply Qmult_inv_r. exact Hv.
  - (* several channels *)
    destruct (mapM _ (np.slices rows (domain_axis s))) as [is_|e] eqn:Emap;
      [|discriminate].
    cbn [rbind] in Hint. inversion Hint; subst i.
    cbn [q_magnitude q_units np.flatten] in *.
    pose proof (mapM_length _ _ _ Emap) as Hlen.
    unfold domain_axis in *.
    destruct (_domain_axis s) as [|ax] eqn:Eax.
    + (* domain along axis 0: the channels are the columns *)
      cbn [np.slices] in *. rewrite length_columns in Hlen.
      cbn [rbind].
      destruct (divided_channels_integrate_to_one _ _ _ _ Emap Hnz
                  (Forall2_map_l_eq
                     (fun p => List.map (fun y => y / snd p) (fst p))
                     (combine (np.columns rows) is_)))
        as (js & Ejs & Hjs).
      eexists. eexists. split; [reflexivity|].
      cbn [magnitude _values set_values set_units set_interpolate copy
             domain _domain _domain_axis].
      rewrite Eax. cbn [np.slices].
      rewrite (columns_divided rows is_ Hrect Hlen).
      split; [apply (Forall2_map_l_eq
                       (fun p => List.map (fun y => y / snd p) (fst p)))|].
      split; [reflexivity|].
      rewrite Ejs. cbn [rbind].
      split; [reflexivity | exact Hjs].
    + (* domain along axis 1: the channels are the rows *)
      cbn [np.slices] in *.
      cbn [rbind].
      assert (Hdiv : Forall2 divided_by
                       (np.zip_with
                          (fun row i => List.map (fun y => y / i) row) rows is_)
                       (combine rows is_)).
      { apply (Forall2_zip_with_combine
                 (fun row i => List.map (fun y => y / i) row)). }
      destruct (divided_channels_integrate_to_one _ _ _ _ Emap Hnz Hdiv)
        as (js & Ejs & Hjs).
      eexists. eexists. split; [reflexivity|].
      cbn [magnitude _values set_values set_units set_interpolate copy
             domain _domain _domain_axis].
      rewrite Eax. cbn [np.slices].
      split; [exact Hdiv|].
      split; [reflexivity|].
      rewrite Ejs. cbn [rbind].
      split; [reflexivity | exact Hjs].
Qed.

End NormalisedSignal.

Lemma normalized_signal_integrates_to_one_witness :
  let s := sample.two_channels in
  let i := mkQuantity (np.Arr1 [1600 # 4; 4000 # 4])
             (unit_mul irradiance nanometre) in
  rectangular_values s
  /\ signal.integral s = Ok i
  /\ Forall (fun v => ~ v == 0) (np.flatten (q_magnitude i))
  /\ exists n j,
       signal.normalized_signal s = Ok n
       /\ Forall2 divided_by (channels n)
            (combine (channels s) (np.flatten (q_magnitude i)))
       /\ signal.domain n = signal.domain s
       /\ signal.integral n = Ok j
       /\ Forall (fun v => v == 1) (np.flatten (q_magnitude j)).
Proof.
  cbv zeta.
  assert (Hr : rectangular_values sample.two_channels)
    by (repeat constructor).
  assert (Hnz : Forall (fun v => ~ v == 0)
                  (np.flatten
                     (q_magnitude
                        (mkQuantity (U := metric)
                           (np.Arr1 [1600 # 4; 4000 # 4])
                           (unit_mul irradiance nanometre))))).
  { repeat constructor; intro E; discriminate E. }
  split; [exact Hr|]. split; [reflexivity|]. split; [exact Hnz|].
  exact (normalized_signal_integrates_to_one sample.two_channels _ Hr
           eq_refl Hnz).
Defined.

(** ** Linear interpolation at its nodes *)

Section Nodes.

Lemma ascending_tail x0 l : ascending (x0 :: l) -> ascending l.
Proof. destruct l; [intros; exact I | intros [_ Hl]; exact Hl]. Qed.

Lemma ascending_head_lt :
  forall l x0, ascending (x0 :: l) -> forall v, In v l -> x0 < v.
Proof.
  induction l as [|x1 l IH]; intros x0 Ha v Hv; [destruct Hv|].
  destruct Ha as [Hlt Ha]. destruct Hv as [<-|Hv]; [exact Hlt|].
  eapply Qlt_trans; [exact Hlt | apply (IH x1 Ha v Hv)].
Qed.

Lemma ascending_nth_lt :
  forall l j, ascending l -> (S j < length l)%nat -> nth j l 0 < nth (S j) l 0.
Proof.
  induction l as [|x0 l IH]; intros j Ha Hj; [simpl in Hj; lia|].
  destruct j as [|j].
  - destruct l as [|x1 l]; [simpl in Hj; lia|]. destruct Ha as [Hlt _].
    exact Hlt.
  - change (nth j l 0 < nth (S j) l 0). apply IH.
    + exact (ascending_tail _ _ Ha).
    + simpl in Hj. lia.
Qed.

Lemma ascending_last_ge :
  forall l x0, ascending (x0 :: l) -> x0 <= last (x0 :: l) 0.
Proof.
  induction l as [|x1 l IH]; intros x0 Ha.
  - apply Qle_refl.
  - destruct Ha as [Hlt Ha].
    change (x0 <= last (x1 :: l) 0).
    eapply Qle_trans; [apply Qlt_le_weak; exact Hlt | apply IH; exact Ha].
Qed.

Lemma ascending_le_last :
  forall l, ascending l -> forall v, In v l -> v <= last l 0.
Proof.
  induction l as [|x0 l IH]; intros Ha v Hv; [destruct Hv|].
  destruct Hv as [<-|Hv].
  - apply ascending_last_ge. exact Ha.
  - destruct l as [|x1 l]; [destruct Hv|].
    change (v <= last (x1 :: l) 0). apply IH; [|exact Hv].
    exact (ascending_tail _ _ Ha).
Qed.

Lemma ascending_hd_le :
  forall l, ascending l -> forall v, In v l -> hd 0 l <= v.
Proof.
  intros [|x0 l] Ha v Hv; [destruct Hv|]. simpl.
  destruct Hv as [<-|Hv]; [apply Qle_refl|].
  apply Qlt_le_weak. exact (ascending_head_lt l x0 Ha v Hv).
Qed.

(** Sorting ascending coordinates leaves them as they are. *)
Lemma sort_ascending : forall l, ascending l -> np.sort l = l.
Proof.
  unfold np.sort, np.sort_by.
  induction l as [|x0 l IH]; intro Ha; [reflexivity|].
  simpl. rewrite (IH (ascending_tail _ _ Ha)).
  destruct l as [|x1 l]; [reflexivity|]. simpl.
  destruct Ha as [Hlt _].
  rewrite (proj2 (Qle_bool_iff x0 x1) (Qlt_le_weak _ _ Hlt)). reflexivity.
Qed.

(** [searchsorted] finds a node at its own index. *)
Lemma searchsorted_node :
  forall x k,
    ascending x -> (k < length x)%nat ->
    scipy.searchsorted x (nth k x 0) = k.
Proof.
  induction x as [|x0 x IH]; intros k Ha Hk; [simpl in Hk; lia|].
  destruct k as [|k]; simpl.
  - rewrite (proj2 (Qlt_bool_false_iff x0 x0) (Qle_refl x0)). reflexivity.
  - assert (Hlt : x0 < nth k x 0).
    { apply (ascending_head_lt x x0 Ha). apply nth_In. simpl in Hk. lia. }
    rewrite (proj2 (Qlt_bool_iff _ _) Hlt).
    f_equal. apply IH; [exact (ascending_tail _ _ Ha) | simpl in Hk; lia].
Qed.

(** The interpolation formula returns the sample at a node. *)
Lemma call_linear_node (x y : list Q) (k : nat) :
  ascending x -> (2 <= length x)%nat -> (k < length x)%nat ->
  scipy.call_linear x y (nth k x 0) == nth k y 0.
Proof.
  intros Ha Hn Hk. unfold scipy.call_linear.
  rewrite (searchsorted_node x k Ha Hk).
  destruct k as [|k].
  - replace (Nat.min (Nat.max 0 1) (length x - 1)) with 1%nat by lia.
    cbn [Nat.sub]. ring.
  - replace (Nat.min (Nat.max (S k) 1) (length x - 1)) with (S k) by lia.
    replace (S k - 1)%nat with k by lia.
    pose proof (ascending_nth_lt x k Ha Hk) as Hlt.
    field. intro Hz. lra.
Qed.

(** A node is inside the interpolation range. *)
Lemma evaluate_node (x y : list Q) (ex : bool) (q : Q) :
  ascending x -> In q x ->
  scipy.evaluate x y ex q = Ok (scipy.call_linear x y q).
Proof.
  intros Ha Hq. unfold scipy.evaluate, scipy.out_of_bounds.
  rewrite (proj2 (Qlt_bool_false_iff q (hd 0 x)) (ascending_hd_le x Ha q Hq)).
  rewrite (proj2 (Qlt_bool_false_iff (last x 0) q) (ascending_le_last x Ha q Hq)).
  rewrite andb_false_r. reflexivity.
Qed.

Lemma mapM_evaluate_nodes (x y : list Q) (ex : bool) :
  ascending x ->
  mapM (scipy.evaluate x y ex) x = Ok (List.map (scipy.call_linear x y) x).
Proof.
  intro Ha. rewrite <- mapM_pure. apply mapM_ext_in.
  intros q Hq. apply evaluate_node; assumption.
Qed.

(** Interpolating one series at all nodes gives the series back. *)
Lemma call_linear_nodes (x y : list Q) :
  ascending x -> (2 <= length x)%nat -> length y = length x ->
  Qeq_list (List.map (scipy.call_linear x y) x) y.
Proof.
  intros Ha Hn Hlen.
  apply (Forall2_nth_intro Qeq 0 0).
  - rewrite length_map. lia.
  - intros k Hk. rewrite length_map in Hk.
    rewrite (nth_indep _ 0 (scipy.call_linear x y 0))
      by (rewrite length_map; exact Hk).
    rewrite map_nth. apply call_linear_node; assumption.
Qed.

Lemma kwargs_get_set (k : string) (v : pyval) :
  forall d, kwargs_get k (kwargs_set k v d) = Some v.
Proof.
  induction d as [|[k' v'] d IH]; simpl.
  - rewrite String.eqb_refl. reflexivity.
  - destruct (String.eqb k k') eqn:E; simpl.
    + rewrite String.eqb_refl. reflexivity.
    + rewrite E. exact IH.
Qed.

End Nodes.

(** ** Resampling onto the own domain *)

Section RoundTrip.

Context {U : Type} `{UnitSystem U}.

Import scipy signal.

Lemma Forall2_map_l_from_Forall {A} (R : A -> A -> Prop) (g : A -> A) :
  forall l, Forall (fun a => R (g a) a) l -> Forall2 R (List.map g l) l.
Proof. induction 1; simpl; constructor; assumption. Qed.

Lemma column_length (j : nat) (rows : list (list Q)) :
  length (np.column j rows) = length rows.
Proof. unfold np.column. apply length_map. Qed.

Lemma column_nth (j k : nat) (rows : list (list Q)) :
  (k < length rows)%nat ->
  nth k (np.column j rows) 0 = nth j (nth k rows []) 0.
Proof.
  intro Hk. unfold np.column.
  rewrite (nth_indep _ 0 ((fun r => nth j r 0) [])) by (rewrite length_map; exact Hk).
  apply (map_nth (fun r => nth j r 0)).
Qed.

Lemma same_length_columns (x : list Q) (rows : list (list Q)) :
  length rows = length x -> same_length x (np.columns rows) = true.
Proof.
  intro Hl. unfold same_length, np.columns.
  apply forallb_forall. intros ch Hch. apply in_map_iff in Hch.
  destruct Hch as (j & <- & _). rewrite column_length. apply Nat.eqb_eq.
  exact Hl.
Qed.

Lemma same_length_rows (x : list Q) (rows : list (list Q)) :
  Forall (fun r => length r = length x) rows -> same_length x rows = true.
Proof.
  intro Hr. unfold same_length. apply forallb_forall. intros ch Hch.
  rewrite Forall_forall in Hr. apply Nat.eqb_eq. apply Hr. exact Hch.
Qed.

(** The default interpolant of a well-shaped array, evaluated at the
    nodes, returns the array. *)
Lemma interp1d_own_domain (x : list Q) (y : np.ndarray) (kw : kwargs)
    (axis : nat) :
  ascending x -> (2 <= length x)%nat ->
  kwargs_get "axis" kw = Some (PInt (Z.of_nat axis)) ->
  match y with
  | np.Arr0 _ => False
  | np.Arr1 ys => axis = 0%nat /\ length ys = length x
  | np.Arr2 rows =>
      (axis = 0%nat /\ length rows = length x /\ np.rectangular rows)
      \/ (axis = 1%nat /\ Forall (fun r => length r = length x) rows)
  end ->
  exists f values,
    interp1d x y kw = Ok f
    /\ f (C1 x) = Ok values
    /\ array_eq values y.
Proof.
  intros Ha Hn Hkw Hshape. unfold interp1d.
  assert (Hlt : Nat.ltb (length x) 2 = false) by (apply Nat.ltb_ge; exact Hn).
  destruct y as [v|ys|rows]; [destruct Hshape| |].
  - destruct Hshape as [_ Hlen].
    rewrite (proj2 (Nat.eqb_eq _ _) Hlen), Hlt. cbn [negb].
    eexists. eexists. split; [reflexivity|].
    cbv beta iota.
    rewrite (mapM_evaluate_nodes x ys _ Ha). cbn [rbind].
    split; [reflexivity|].
    apply call_linear_nodes; assumption.
  - unfold axis_of. rewrite Hkw.
    assert (Hneg : (Z.of_nat axis <? 0)%Z = false) by (apply Z.ltb_ge; lia).
    rewrite Hneg, Nat2Z.id.
    destruct Hshape as [(-> & Hlen & Hrect)|(-> & Hrows)]; cbn [np.slices].
    + rewrite (same_length_columns x rows Hlen), Hlt. cbn [negb].
      eexists. eexists. split; [reflexivity|].
      cbv beta iota.
      rewrite (mapM_ext_in _
                 (fun q => Ok (List.map (fun ch => call_linear x ch q)
                                 (np.columns rows)))).
      2:{ intros q Hq. rewrite <- mapM_pure. apply mapM_ext_in.
          intros ch _. apply evaluate_node; assumption. }
      rewrite mapM_pure. cbn [rbind]. split; [reflexivity|].
      cbn [array_eq]. unfold Qeq_rows.
      apply (Forall2_nth_intro Qeq_list [] []).
      * rewrite length_map. lia.
      * intros k Hk. rewrite length_map in Hk.
        rewrite (nth_indep _ []
                   ((fun q => List.map (fun ch => call_linear x ch q)
                                (np.columns rows)) 0))
          by (rewrite length_map; exact Hk).
        rewrite (map_nth (fun q => List.map (fun ch => call_linear x ch q)
                                     (np.columns rows))).
        assert (Hrow : length (nth k rows []) = np.ncols rows).
        { unfold np.rectangular in Hrect. rewrite Forall_forall in Hrect.
          apply Hrect. apply nth_In. lia. }
        apply (Forall2_nth_intro Qeq 0 0).
        -- rewrite length_map, length_columns. lia.
        -- intros j Hj. rewrite length_map, length_columns in Hj.
           rewrite (nth_indep _ 0
                      ((fun ch => call_linear x ch (nth k x 0)) []))
             by (rewrite length_map, length_columns; exact Hj).
           rewrite (map_nth (fun ch => call_linear x ch (nth k x 0))).
           rewrite nth_columns by exact Hj.
           rewrite (call_linear_node x (np.column j rows) k Ha Hn Hk).
           rewrite column_nth by lia. reflexivity.
    + rewrite (same_length_rows x rows Hrows), Hlt. cbn [negb].
      eexists. eexists. split; [reflexivity|].
      cbv beta iota.
      rewrite (mapM_ext_in _
                 (fun ch => Ok (List.map (call_linear x ch) x))).
      2:{ intros ch _. apply mapM_evaluate_nodes. exact Ha. }
      rewrite mapM_pure. cbn [rbind]. split; [reflexivity|].
      cbn [array_eq]. unfold Qeq_rows.
      apply Forall2_map_l_from_Forall.
      eapply Forall_impl; [|exact Hrows].
      intros ch Hch. apply call_linear_nodes; assumption.
Qed.

(** A scalar bound that no value lies beyond clips nothing. *)
Lemma maximum_keeps (lo x y : Q) : lo <= y -> x == y -> np.maximum x lo == y.
Proof.
  intros Hlo Hxy. unfold np.maximum. destruct (Qle_bool x lo) eqn:E.
  - apply Qle_bool_iff in E. apply Qle_antisym; [exact Hlo|].
    rewrite <- Hxy. exact E.
  - exact Hxy.
Qed.

Lemma minimum_keeps (hi x y : Q) : y <= hi -> x == y -> np.minimum x hi == y.
Proof.
  intros Hhi Hxy. unfold np.minimum. destruct (Qle_bool x hi) eqn:E.
  - exact Hxy.
  - apply Qle_antisym; [|exact Hhi].
    apply Qlt_le_weak. rewrite <- Hxy. apply Qlt_bool_iff.
    unfold Qlt_bool. rewrite E. reflexivity.
Qed.

Lemma Forall2_map_keeps (P : Q -> Prop) (g : Q -> Q) :
  (forall x y, P y -> x == y -> g x == y) ->
  forall a b, Forall P b -> Qeq_list a b -> Qeq_list (List.map g a) b.
Proof.
  intros Hg a b HP Hab. revert HP.
  induction Hab as [|x y a b Hxy Hab IH]; intro HP; simpl; constructor.
  - apply Hg; [|exact Hxy]. inversion HP; assumption.
  - apply IH. inversion HP; assumption.
Qed.

Lemma Forall2_rows_keeps (P : Q -> Prop) (g : Q -> Q) :
  (forall x y, P y -> x == y -> g x == y) ->
  forall a b,
    Forall P (concat b) -> Qeq_rows a b ->
    Qeq_rows (List.map (List.map g) a) b.
Proof.
  intros Hg a b HP Hab. revert HP.
  induction Hab as [|x y a b Hxy Hab IH]; intro HP; simpl; constructor.
  - simpl in HP. apply Forall_app in HP.
    apply (Forall2_map_keeps P g Hg); [apply HP | exact Hxy].
  - apply IH. simpl in HP. apply Forall_app in HP. apply HP.
Qed.

Lemma amap_keeps (P : Q -> Prop) (g : Q -> Q) :
  (forall x y, P y -> x == y -> g x == y) ->
  forall a b,
    Forall P (np.flatten b) -> array_eq a b -> array_eq (np.amap g a) b.
Proof.
  intros Hg a b HP Hab.
  destruct a as [x|xs|r1]; destruct b as [y|ys|r2];
    cbn [np.amap array_eq np.flatten] in *; try contradiction.
  - apply Hg; [|exact Hab]. inversion HP; assumption.
  - apply (Forall2_map_keeps P g Hg); assumption.
  - apply (Forall2_rows_keeps P g Hg); assumption.
Qed.

Lemma broadcast1_single {A B C} (f : A -> B -> C) (a : list A) (y : B) :
  np.broadcast1 f a [y] = Ok (List.map (fun x => f x y) a).
Proof. destruct a as [|x [|x' a]]; reflexivity. Qed.

Lemma zip_with_keeps (P : Q -> Q -> Prop) (g : Q -> Q -> Q) :
  (forall b x y, P b y -> x == y -> g x b == y) ->
  forall l r' r,
    Forall2 P l r -> Qeq_list r' r -> Qeq_list (np.zip_with g r' l) r.
Proof.
  intros Hg l r' r Hl Hr. revert l Hl.
  induction Hr as [|x y r' r Hxy Hr IH]; intros l Hl.
  - inversion Hl; subst. constructor.
  - inversion Hl as [|b y' l' r0 Hb Hl']; subst. simpl.
    constructor; [apply Hg; assumption | apply IH; assumption].
Qed.

(** One step of the clipping with a bound that narrows no value. *)
Lemma broadcast_bound_keeps (P : Q -> Q -> Prop) (g : Q -> Q -> Q)
    (s : Signal U) (values : np.ndarray) (b : np.bound) :
  (forall b x y, P b y -> x == y -> g x b == y) ->
  bound_keeps P s (Some b) ->
  array_eq values (magnitude s) ->
  exists clipped,
    np.broadcast_bound g values b = Ok clipped
    /\ array_eq clipped (magnitude s).
Proof.
  intros Hg Hb Heq. unfold bound_keeps in Hb.
  destruct b as [q|l].
  - eexists. split; [reflexivity|].
    apply (amap_keeps (P q)); [|exact Hb|exact Heq].
    intros x y. apply Hg.
  - destruct (magnitude s) as [v|ys|rows]; [destruct Hb| |].
    + destruct Hb as (q & -> & Hall).
      destruct values as [x|xs|r1]; cbn [array_eq] in Heq; try contradiction.
      cbn [np.broadcast_bound]. rewrite broadcast1_single. cbn [rbind].
      eexists. split; [reflexivity|]. cbn [array_eq].
      apply (Forall2_map_keeps (P q)); [|exact Hall|exact Heq].
      intros x y. apply Hg.
    + destruct Hb as [_ Hrows].
      destruct values as [x|xs|r1]; cbn [array_eq] in Heq; try contradiction.
      cbn [np.broadcast_bound].
      rewrite broadcast_rows_same_length.
      * cbn [rbind]. eexists. split; [reflexivity|]. cbn [array_eq].
        unfold Qeq_rows in *.
        induction Heq as [|r' r r1 rows Hr Heq IH]; simpl; [constructor|].
        inversion Hrows as [|? ? Hl Hrows']; subst.
        constructor; [|apply IH; exact Hrows'].
        apply (zip_with_keeps P g Hg); assumption.
      * unfold Qeq_rows in Heq.
        induction Heq as [|r' r r1 rows Hr Heq IH]; [constructor|].
        inversion Hrows as [|? ? Hl Hrows']; subst.
        constructor; [|apply IH; exact Hrows'].
        rewrite (Forall2_length Hr), (Forall2_length Hl). reflexivity.
Qed.

Lemma clip_keeps (s : Signal U) (values : np.ndarray) :
  clip_keeps_values s ->
  array_eq values (magnitude s) ->
  exists clipped,
    _clip_values values (signal_min s) (signal_max s) = Ok clipped
    /\ array_eq clipped (magnitude s).
Proof.
  intros [Hlo Hhi] Heq.
  assert (Hclip : exists clipped,
             np.clip values (signal_min s) (signal_max s) = Ok clipped
             /\ array_eq clipped (magnitude s)).
  { unfold np.clip.
    assert (Hstep : exists v1,
               match signal_min s with
               | Some b => np.broadcast_bound np.maximum values b
               | None => Ok values
               end = Ok v1
               /\ array_eq v1 (magnitude s)).
    { destruct (signal_min s) as [b|].
      - apply (broadcast_bound_keeps (fun lo v => lo <= v)); try assumption.
        intros b0 x y. apply maximum_keeps.
      - exists values. split; [reflexivity | exact Heq]. }
    destruct Hstep as (v1 & Ev1 & Heq1). rewrite Ev1. cbn [rbind].
    destruct (signal_max s) as [b|].
    - apply (broadcast_bound_keeps (fun hi v => v <= hi)); try assumption.
      intros b0 x y. apply minimum_keeps.
    - exists v1. split; [reflexivity | exact Heq1]. }
  unfold _clip_values.
  destruct (signal_min s), (signal_max s); exact Hclip.
Qed.

(** Element-wise equal arrays have one shape. *)
Lemma array_eq_shape (a b : np.ndarray) :
  array_eq a b -> np.ndim a = np.ndim b /\ np.shape a = np.shape b.
Proof.
  destruct a as [x|xs|r1]; destruct b as [y|ys|r2]; intro Hab;
    cbn [array_eq] in Hab; try contradiction;
    cbn [np.ndim np.shape]; (split; [reflexivity|]).
  - reflexivity.
  - rewrite (Forall2_length Hab). reflexivity.
  - rewrite (Forall2_length Hab). f_equal. f_equal.
    unfold np.ncols. destruct Hab as [|r r' ? ? Hr _]; [reflexivity|].
    simpl. exact (Forall2_length Hr).
Qed.

Lemma array_equal_iff (a b : np.ndarray) :
  array_equal a b = true <-> array_eq a b.
Proof.
  destruct a as [x|xs|r1]; destruct b as [y|ys|r2];
    cbn [array_equal array_eq]; try (split; [discriminate | intros []]).
  - apply Qeq_bool_iff.
  - apply Qeq_list_bool_iff.
  - apply Qeq_rows_bool_iff.
Qed.

Lemma mapM_convert_same (u : U) :
  forall l, mapM (convert u u) l = Ok l.
Proof.
  induction l as [|a l IH]; simpl; [reflexivity|].
  rewrite convert_same, IH. reflexivity.
Qed.

Lemma dom_to_same (d : Domain U) : dom_to d (dom_units d) = Ok d.
Proof.
  unfold dom_to. rewrite mapM_convert_same. cbn [rbind].
  destruct d; reflexivity.
Qed.

Lemma unit_eqb_refl (u : U) : unit_eqb u u = true.
Proof. apply unit_eqb_eq. reflexivity. Qed.

(** The guard lets the own domain through when the domain covers the
    configured bounds. *)
Lemma check_domain_min_own (s : Signal U) :
  covers_own_bounds s ->
  dom_magnitude (_domain s) <> [] ->
  check_domain_min s (FromDomain (_domain s)) (dom_units (_domain s)) = Ok tt.
Proof.
  intros [Hmin _] Hne. unfold check_domain_min.
  destruct (domain_min s) as [dm|] eqn:Edm; [|reflexivity].
  destruct (Hmin dm eq_refl) as (m & Hc & Hm).
  unfold domain in Hc. rewrite Hc. cbn [rbind asarray_domain coords_array].
  destruct (np_min_defined (np.Arr1 (dom_magnitude (_domain s))) Hne)
    as [lo Hlo].
  rewrite Hlo. cbn [rbind].
  destruct (np_min_spec _ _ Hlo) as [_ Hall]. cbn [np.flatten] in Hall.
  assert (Hle : lo <= m).
  { eapply Qle_trans; [|exact Hm]. apply Hall. unfold dom_start, domain.
    destruct (dom_magnitude (_domain s)); [congruence | left; reflexivity]. }
  rewrite (proj2 (Qlt_bool_false_iff m lo) Hle). reflexivity.
Qed.

Lemma last_In {A} (l : list A) (d : A) : l <> [] -> In (last l d) l.
Proof.
  induction l as [|a [|b l] IH]; intro Hne; [congruence | left; reflexivity |].
  right. apply IH. discriminate.
Qed.

Lemma check_domain_max_own (s : Signal U) :
  covers_own_bounds s ->
  dom_magnitude (_domain s) <> [] ->
  check_domain_max s (FromDomain (_domain s)) (dom_units (_domain s)) = Ok tt.
Proof.
  intros [_ Hmax] Hne. unfold check_domain_max.
  destruct (domain_max s) as [dm|] eqn:Edm; [|reflexivity].
  destruct (Hmax dm eq_refl) as (m & Hc & Hm).
  unfold domain in Hc. rewrite Hc. cbn [rbind asarray_domain coords_array].
  destruct (np_max_defined (np.Arr1 (dom_magnitude (_domain s))) Hne)
    as [hi Hhi].
  rewrite Hhi. cbn [rbind].
  destruct (np_max_spec _ _ Hhi) as [_ Hall]. cbn [np.flatten] in Hall.
  assert (Hle : m <= hi).
  { eapply Qle_trans; [exact Hm|]. apply Hall. unfold dom_end, domain.
    apply last_In. exact Hne. }
  rewrite (proj2 (Qlt_bool_false_iff hi m) Hle). reflexivity.
Qed.

(** With a fresh cache, [interpolate] hands out the interpolant of the
    present domain and values. *)
Lemma interpolate_fresh (s : Signal U) (f : interpolant) :
  cache_fresh s ->
  _interpolator s (dom_magnitude (_domain s)) (magnitude s) (call_kwargs s)
  = Ok f ->
  exists s1,
    interpolate s = (s1, Ok (clip_wrapper s1 f))
    /\ exists kw c, s1 = set_interpolate c (set_interpolator_kwargs kw s).
Proof.
  intros Hfresh Hf.
  assert (Hi : exists s1, interpolate s = (s1, Ok (clip_wrapper s1 f))).
  { unfold interpolate, cached_interpolant, interpolator_kwargs.
    unfold bind, get, ret, lift, modify.
    destruct (_interpolate s) as [f0|] eqn:Ec.
    - pose proof (Hfresh f0 Ec) as Hf0. unfold domain in Hf0.
      rewrite Hf in Hf0. inversion Hf0; subst f0.
      eexists. reflexivity.
    - cbn [interpolator set_interpolator_kwargs _interpolator domain _domain
             magnitude _values _interpolator_kwargs domain_axis _domain_axis].
      unfold call_kwargs, magnitude in Hf. rewrite Hf.
      eexists. reflexivity. }
  destruct Hi as [s1 Hi]. exists s1. split; [exact Hi|].
  exact (interpolate_state s s1 _ Hi).
Qed.

(** C6 (amended). A signal with the default linear interpolator, strictly
    ascending domain coordinates (at least two), values shaped to the
    domain, clip bounds that narrow no value (absent, scalar, or one per
    channel aligned with the last axis of the values), a
    domain that reaches down to [domain_min] and up to [domain_max] where
    these are configured, and no stale interpolant in the cache: called on
    its own domain it returns a signal that equals it. *)
Theorem own_domain_round_trip :
  forall s : Signal U,
    _interpolator s = interp1d ->
    ascending (dom_magnitude (domain s)) ->
    (2 <= length (dom_magnitude (domain s)))%nat ->
    well_shaped s ->
    clip_keeps_values s ->
    covers_own_bounds s ->
    cache_fresh s ->
    exists s' n,
      __call__ (QDomain (domain s)) s = (s', Ok (Resampled n))
      /\ __eq__ n s = true.
Proof.
  intros s Hinterp Hasc Hlen Hshape Hclip Hcover Hfresh.
  unfold domain in Hasc, Hlen.
  assert (Hne : dom_magnitude (_domain s) <> [])
    by (destruct (dom_magnitude (_domain s)); [simpl in Hlen; lia | discriminate]).
  (* the interpolant and its values at the nodes *)
  destruct (interp1d_own_domain (dom_magnitude (_domain s)) (magnitude s)
              (call_kwargs s) (domain_axis s) Hasc Hlen
              (kwargs_get_set _ _ _) Hshape)
    as (f & values & Hf & Hvalues & Heq).
  rewrite <- Hinterp in Hf.
  destruct (interpolate_fresh s f Hfresh Hf) as (s1 & Hi & kw & c & Hs1).
  destruct (clip_keeps s values Hclip Heq) as (clipped & Hclipped & Heqc).
  destruct (array_eq_shape _ _ Heqc) as [Hnd Hsh].
  (* the call, step by step *)
  unfold __call__. unfold bind at 1, get. unfold bind at 1, lift.
  unfold convert_query, domain. rewrite dom_to_same. cbn [rbind fst snd].
  unfold bind at 1. rewrite (check_domain_min_own s Hcover Hne).
  unfold bind at 1. rewrite (check_domain_max_own s Hcover Hne).
  unfold bind at 1. rewrite Hi.
  unfold bind at 1. cbn [asarray_domain].
  unfold clip_wrapper at 1. rewrite Hvalues. cbn [rbind].
  assert (Hmin1 : signal_min s1 = signal_min s) by (rewrite Hs1; reflexivity).
  assert (Hmax1 : signal_max s1 = signal_max s) by (rewrite Hs1; reflexivity).
  rewrite Hmin1, Hmax1, Hclipped.
  unfold bind at 1, get. unfold bind at 1.
  assert (Hsingle : is_single_value s1 clipped = Ok false).
  { unfold is_single_value.
    assert (Hnd1 : ndim s1 = ndim s) by (rewrite Hs1; reflexivity).
    assert (Hax1 : domain_axis s1 = domain_axis s) by (rewrite Hs1; reflexivity).
    rewrite Hnd1, Hax1. unfold ndim. fold (magnitude s). rewrite Hnd.
    rewrite Nat.ltb_irrefl. unfold shape_at. rewrite Hsh.
    unfold well_shaped, domain in Hshape.
    destruct (magnitude s) as [v|ys|rows]; [destruct Hshape| |].
    - destruct Hshape as [-> Hl]. cbn [np.shape nth_error rbind].
      rewrite Hl. destruct (length (dom_magnitude (_domain s))) as [|[|n]];
        [lia | lia | reflexivity].
    - destruct Hshape as [(-> & Hl & _)|(-> & Hrows)];
        cbn [np.shape nth_error rbind].
      + rewrite Hl. destruct (length (dom_magnitude (_domain s))) as [|[|n]];
          [lia | lia | reflexivity].
      + unfold np.ncols. destruct rows as [|r rows]; [reflexivity|].
        inversion Hrows as [|? ? Hr _]; subst. simpl. rewrite Hr.
        destruct (length (dom_magnitude (_domain s))) as [|[|n]];
          [lia | lia | reflexivity]. }
  rewrite Hsingle.
  unfold bind at 1, lift. unfold domain_class. rewrite dom_to_same.
  cbn [rbind]. rewrite (sort_ascending _ Hasc).
  unfold ret. eexists. eexists. split; [reflexivity|].
  (* equality with the receiver *)
  unfold __eq__, copy.
  cbn [_class set_domain set_values units _units domain _domain magnitude
         _values].
  assert (Hcls : _class s1 = _class s) by (rewrite Hs1; reflexivity).
  assert (Hun : _units s1 = _units s) by (rewrite Hs1; reflexivity).
  rewrite Hcls, Hun.
  assert (Hcc : cls_eqb (_class s) (_class s) = true)
    by (destruct (_class s); reflexivity).
  rewrite Hcc. cbn [negb]. rewrite unit_eqb_refl.
  unfold dom_eqb. cbn [dom_units dom_magnitude]. rewrite unit_eqb_refl.
  rewrite (proj2 (Qeq_list_bool_iff _ _) (Qeq_list_refl _)).
  cbn [andb]. apply array_equal_iff. exact Heqc.
Qed.

End RoundTrip.


(** C6, as stated, fails: [Signal([0, 1], domain=[0, 1], domain_min=-1)]
    has two domain samples, no clip bounds and the default linear
    interpolator, and calling it on its own domain raises the domain error
    of the guard. *)
Lemma own_domain_call_raises :
  let s := sample.ramp_with_domain_min in
  (2 <= length (signal.dom_magnitude (signal.domain s)))%nat
  /\ signal.signal_min s = None
  /\ signal.signal_max s = None
  /\ signal._interpolator s = scipy.interp1d
  /\ signal._interpolate s = None
  /\ snd (signal.__call__ (signal.QDomain (signal.domain s)) s)
     = Raise (DreyeError "Interpolation domain above domain minimum.").
Proof.
  cbv zeta. split; [simpl; lia|]. repeat (split; [reflexivity|]). reflexivity.
Qed.

Lemma own_domain_round_trip_witness :
  let s := sample.ramp_bounded in
  signal._interpolator s = scipy.interp1d
  /\ ascending (signal.dom_magnitude (signal.domain s))
  /\ (2 <= length (signal.dom_magnitude (signal.domain s)))%nat
  /\ well_shaped s
  /\ clip_keeps_values s
  /\ covers_own_bounds s
  /\ cache_fresh s
  /\ exists s' n,
       signal.__call__ (signal.QDomain (signal.domain s)) s
       = (s', Ok (signal.Resampled n))
       /\ signal.__eq__ n s = true.
Proof.
  cbv zeta.
  assert (Hasc : ascending
                   (signal.dom_magnitude (signal.domain sample.ramp_bounded))).
  { simpl. split; [unfold Qlt; simpl; lia | exact I]. }
  assert (Hlen : (2 <= length
                         (signal.dom_magnitude
                            (signal.domain sample.ramp_bounded)))%nat)
    by (simpl; lia).
  assert (Hshape : well_shaped sample.ramp_bounded)
    by (split; reflexivity).
  assert (Hclip : clip_keeps_values sample.ramp_bounded)
    by (split; exact I).
  assert (Hcover : covers_own_bounds sample.ramp_bounded).
  { split; intros dm Hdm; inversion Hdm; subst dm.
    - exists 0. split; [reflexivity | unfold Qle; simpl; lia].
    - exists 1. split; [reflexivity | unfold Qle; simpl; lia]. }
  assert (Hfresh : cache_fresh sample.ramp_bounded)
    by (intros f Hf; discriminate Hf).
  split; [reflexivity|]. split; [exact Hasc|]. split; [exact Hlen|].
  split; [exact Hshape|]. split; [exact Hclip|]. split; [exact Hcover|].
  split; [exact Hfresh|].
  exact (own_domain_round_trip sample.ramp_bounded eq_refl Hasc Hlen Hshape
           Hclip Hcover Hfresh).
Defined.

(** The round trip on the two-channel sample, by evaluation. *)
Example two_channels_round_trip :
  exists n,
    snd (signal.__call__ (signal.QDomain (signal.domain sample.two_channels))
           sample.two_channels)
    = Ok (signal.Resampled n)
    /\ signal.__eq__ n sample.two_channels = true.
Proof. eexists. split; reflexivity. Qed.

(** Per-channel clip bounds do not align with the values when the domain
    runs along axis 1: the clipping of the interpolated values raises. *)
Example channel_bounds_along_rows_raise :
  snd (signal.__call__
         (signal.QDomain (signal.domain sample.rows_with_channel_bounds))
         sample.rows_with_channel_bounds)
  = Raise (ValueError "operands could not be broadcast together").
Proof. reflexivity. Qed.

(** What the constructor returns is a constructed spectrum: the polarity
    flag is derived from the two boundaries when it is not given. *)
Example constructor_output_is_constructed :
  let r := MeasuredSpectrum.__init__ (Some (np.fin 0)) (Some (np.fin 5)) None
             None sample.sorted_labels in
  snd r = Ok tt
  /\ constructed (fst r)
  /\ MeasuredSpectrum.zero_is_lower (fst r) = Ok true.
Proof.
  cbv zeta. split; [reflexivity|]. split; [|reflexivity].
  repeat split; eexists; reflexivity.
Qed.

(** Without the polarity flag and without both boundaries the constructor
    raises. *)
Example constructor_needs_polarity :
  snd (MeasuredSpectrum.__init__ (Some (np.fin 0)) None None None
         sample.sorted_labels)
  = Raise (DreyeError "Must provide zero_is_lower or max and zero boundary.").
Proof. reflexivity. Qed.

(** On an ascending label domain the first coordinate is the lowest
    control input tested and the last one the highest. *)
Lemma start_end_are_extremes {U : Type} `{UnitSystem U} (d : signal.Domain U) :
  ascending (signal.dom_magnitude d) ->
  forall v,
    In v (signal.dom_magnitude d) ->
    signal.dom_start d <= v /\ v <= signal.dom_end d.
Proof.
  intros Ha v Hv. split.
  - apply ascending_hd_le; assumption.
  - apply ascending_le_last; assumption.
Qed.

(** ** The interpolant cache and the setters of a signal *)

Lemma kwargs_get_set_other (k k' : string) (v : pyval) :
  k <> k' ->
  forall d, kwargs_get k (kwargs_set k' v d) = kwargs_get k d.
Proof.
  intros Hk. induction d as [|[k0 v0] d IH]; simpl.
  - destruct (String.eqb k k') eqn:E; [|reflexivity].
    apply String.eqb_eq in E. contradiction.
  - destruct (String.eqb k' k0) eqn:E0; simpl.
    + apply String.eqb_eq in E0. subst k0.
      destruct (String.eqb k k') eqn:E; [|reflexivity].
      apply String.eqb_eq in E. contradiction.
    + destruct (String.eqb k k0); [reflexivity | exact IH].
Qed.

Section CallFrame.

Context {U : Type} `{UnitSystem U}.

Import scipy signal.

Lemma interpolate_configuration (s s' : Signal U) r :
  interpolate s = (s', r) -> configuration s' = configuration s.
Proof.
  intro E. destruct (interpolate_state s s' r E) as (kw & c & ->).
  reflexivity.
Qed.

(** X1. A call, whatever it is asked and whether it returns or raises,
    writes nothing of the receiver but the interpolant cache and the
    keyword dictionary of the interpolator. *)
Theorem call_writes_only_cache_and_kwargs :
  forall (q : query U) (s : Signal U),
    configuration (fst (__call__ q s)) = configuration s.
Proof.
  intros q s. unfold __call__.
  unfold bind at 1, get.
  unfold bind at 1, lift.
  destruct (convert_query s q) as [p|e]; [|reflexivity].
  unfold bind at 1.
  destruct (check_domain_min s (snd p) (fst p)); [|reflexivity].
  unfold bind at 1.
  destruct (check_domain_max s (snd p) (fst p)); [|reflexivity].
  unfold bind at 1.
  destruct (interpolate s) as [s1 [f|e]] eqn:Ei;
    pose proof (interpolate_configuration _ _ _ Ei) as Hc;
    [|exact Hc].
  unfold bind at 1.
  destruct (f (asarray_domain (snd p))) as [v|e]; [|exact Hc].
  unfold bind at 1.
  destruct (is_single_value s1 v) as [[|]|e]; cbn; try exact Hc.
  destruct (domain_class (snd p) (fst p)); exact Hc.
Qed.


(** X2. Reading [interpolate] again returns the same clipped interpolant and
    leaves the receiver as it is; the interpolator is not consulted, so
    the result is the same whatever the interpolator field holds. *)
Theorem interpolate_is_built_once :
  forall (s s1 : Signal U) (f : interpolant),
    interpolate s = (s1, Ok f) ->
    interpolate s1 = (s1, Ok f)
    /\ forall g : interpolator_t,
         snd (interpolate (set_interpolator g s1)) = Ok f.
Proof.
  intros s s1 f E.
  unfold interpolate, cached_interpolant, interpolator_kwargs in *.
  unfold bind, get, ret, lift, modify in *.
  destruct (_interpolate s) as [c|] eqn:Ec.
  - inversion E; subst. cbn [set_interpolator _interpolate]. rewrite Ec.
    split; [reflexivity | intro g; reflexivity].
  - cbn [interpolator set_interpolator_kwargs _interpolator domain_axis
           _domain_axis _interpolator_kwargs] in E.
    match type of E with
    | context [_interpolator s ?x ?y ?kw] =>
        destruct (_interpolator s x y kw) as [c|e]
    end; inversion E; subst.
    split; [reflexivity | intro g; reflexivity].
Qed.

(** X3. After a dictionary was assigned to [interpolator_kwargs], reading the
    property returns it with the entry [axis] set to the domain axis, all
    other entries as assigned; the stored dictionary is the one
    returned. *)
Theorem interpolator_kwargs_carry_domain_axis :
  forall (s : Signal U) (d : kwargs),
    let r := interpolator_kwargs
               (fst (interpolator_kwargs_setter (KwDict d) s)) in
    exists kw,
      snd r = Ok kw
      /\ kwargs_get "axis" kw = Some (PInt (Z.of_nat (domain_axis s)))
      /\ (forall k, k <> "axis"%string -> kwargs_get k kw = kwargs_get k d)
      /\ _interpolator_kwargs (fst r) = kw.
Proof.
  intros s d r. subst r.
  exists (kwargs_set "axis" (PInt (Z.of_nat (domain_axis s))) d).
  split; [reflexivity|].
  split; [apply kwargs_get_set|].
  split; [|reflexivity].
  intros k Hk. apply kwargs_get_set_other. exact Hk.
Qed.

(** ** Assignment to [values] *)

Lemma shape_eqb_eq (a b : list nat) : np.shape_eqb a b = true <-> a = b.
Proof.
  revert b. induction a as [|x a IH]; intros [|y b]; simpl;
    try (split; [reflexivity || discriminate | reflexivity || discriminate]).
  rewrite andb_true_iff, Nat.eqb_eq, IH.
  split; [intros [-> ->]; reflexivity | intro E; inversion E; auto].
Qed.

(** X4. Assignment to [values] never changes the shape of the signal, whether
    it is accepted or rejected. *)
Theorem values_assignment_keeps_shape :
  forall (v : values_arg U) (s : Signal U),
    shape (fst (values_setter v s)) = shape s.
Proof.
  intros v s. unfold values_setter, bind, get, lift.
  assert (Hk : forall a : np.ndarray,
             shape (fst ((if negb (np.shape_eqb (np.shape a) (shape s))
                          then raise (DreyeError
                                 "Array for values assignment must be same shape.")
                          else modify (set_values a)) s)) = shape s).
  { intro a. destruct (np.shape_eqb (np.shape a) (shape s)) eqn:E; cbn.
    - apply shape_eqb_eq in E. exact E.
    - reflexivity. }
  destruct v as [q|a].
  - destruct (array_to (q_units q) (units s) (q_magnitude q)) as [a|e];
      [apply Hk | reflexivity].
  - apply Hk.
Qed.

Lemma array_to_same (u : U) (a : np.ndarray) : array_to u u a = Ok a.
Proof.
  destruct a as [x|xs|rows]; unfold array_to.
  - rewrite convert_same. reflexivity.
  - rewrite mapM_convert_same. reflexivity.
  - assert (E : mapM (mapM (convert u u)) rows = Ok rows).
    { induction rows as [|r rows IH]; simpl; [reflexivity|].
      rewrite mapM_convert_same, IH. reflexivity. }
    rewrite E. reflexivity.
Qed.

Lemma shape_eqb_refl (a : list nat) : np.shape_eqb a a = true.
Proof. apply shape_eqb_eq. reflexivity. Qed.

(** X5. Assigning to [values] what the property [values] returns is accepted
    and leaves the signal as it is. *)
Theorem values_read_then_assign :
  forall s : Signal U, values_setter (HasUnits (values s)) s = (s, Ok tt).
Proof.
  intro s. unfold values_setter, bind, get, lift, values.
  cbn [q_units q_magnitude]. rewrite array_to_same.
  unfold shape. rewrite shape_eqb_refl. cbn.
  unfold modify. destruct s; reflexivity.
Qed.

End CallFrame.

(** ** Clip bounds *)

Section Clipping.

Context {U : Type} `{UnitSystem U}.

Import scipy signal.

Lemma flatten_amap (f : Q -> Q) (a : np.ndarray) :
  np.flatten (np.amap f a) = List.map f (np.flatten a).
Proof.
  destruct a as [x|xs|rows]; simpl; try reflexivity.
  induction rows as [|r rows IH]; simpl; [reflexivity|].
  rewrite map_app, IH. reflexivity.
Qed.

Lemma amap_amap (f g : Q -> Q) (a : np.ndarray) :
  np.amap g (np.amap f a) = np.amap (fun x => g (f x)) a.
Proof.
  destruct a as [x|xs|rows]; cbn; [reflexivity | |].
  - rewrite map_map. reflexivity.
  - rewrite map_map. f_equal. apply map_ext. intro r. apply map_map.
Qed.

Lemma amap_id (a : np.ndarray) : np.amap (fun x => x) a = a.
Proof.
  destruct a as [x|xs|rows]; cbn; [reflexivity | |].
  - rewrite map_id. reflexivity.
  - f_equal. erewrite map_ext; [apply map_id|]. intro r. apply map_id.
Qed.

Lemma clamp_respects (lo hi : option Q) (x : Q) :
  ordered_bounds lo hi ->
  respects lo hi
    (match hi with
     | Some h => np.minimum (match lo with Some l => np.maximum x l | None => x end) h
     | None => match lo with Some l => np.maximum x l | None => x end
     end).
Proof.
  intro Ho. destruct lo as [l|], hi as [h|]; split;
    intros b Eb; inversion Eb; subst b.
  - destruct (minimum_cases (np.maximum x l) h) as [E|E]; rewrite E.
    + apply maximum_ge_r.
    + apply Ho; reflexivity.
  - apply minimum_le_r.
  - apply maximum_ge_r.
  - apply minimum_le_r.
Qed.

Lemma clip_values_scalar (v v' : np.ndarray) (lo hi : option Q) :
  ordered_bounds lo hi ->
  _clip_values v (scalar_bound lo) (scalar_bound hi) = Ok v' ->
  Forall (respects lo hi) (np.flatten v')
  /\ np.shape v' = np.shape v.
Proof.
  intros Ho E.
  assert (Hv' : v' = np.amap
                       (fun x =>
                          match hi with
                          | Some h => np.minimum (match lo with
                                                  | Some l => np.maximum x l
                                                  | None => x
                                                  end) h
                          | None => match lo with
                                    | Some l => np.maximum x l
                                    | None => x
                                    end
                          end) v).
  { destruct lo as [l|], hi as [h|]; cbn in E; injection E as Hv; subst v'.
    - apply amap_amap.
    - reflexivity.
    - reflexivity.
    - symmetry. apply amap_id. }
  subst v'. split.
  - rewrite flatten_amap. apply Forall_forall. intros y Hy.
    apply in_map_iff in Hy. destruct Hy as (x & <- & _).
    apply clamp_respects. exact Ho.
  - destruct v as [x|xs|rows]; cbn; rewrite ?length_map; try reflexivity.
    unfold np.ncols. destruct rows as [|r rows]; cbn; [reflexivity|].
    rewrite length_map. reflexivity.
Qed.

(** What [interpolate] hands out is the closure [clip_wrapper] around an
    interpolant. *)
Lemma interpolate_is_clip_wrapper (s s' : Signal U) (f : interpolant) :
  interpolate s = (s', Ok f) ->
  exists interp, f = clip_wrapper s' interp.
Proof.
  unfold interpolate. unfold bind at 1.
  destruct (cached_interpolant s) as [s1 [interp|e]]; [|discriminate].
  unfold bind, get, ret. intro E. inversion E; subst.
  exists interp. reflexivity.
Qed.

(** The entries of what [__call__] returns are those of the interpolated
    and clipped array. *)
Lemma call_returns_interpolated (s s' : Signal U) (q : query U)
    (r : call_result U) :
  __call__ q s = (s', Ok r) ->
  exists c f values,
    interpolate s = (s', Ok f)
    /\ f c = Ok values
    /\ call_values r = np.flatten values.
Proof.
  intro Hc.
  unfold __call__ in Hc. unfold bind at 1, get in Hc.
  unfold bind at 1, lift in Hc.
  destruct (convert_query s q) as [[u dom]|e]; [|inversion Hc].
  cbn [fst snd] in Hc.
  unfold bind at 1 in Hc.
  destruct (check_domain_min s dom u) as [[]|e]; [|inversion Hc].
  unfold bind at 1 in Hc.
  destruct (check_domain_max s dom u) as [[]|e]; [|inversion Hc].
  unfold bind at 1 in Hc.
  destruct (interpolate s) as [s1 [f|e]] eqn:Ei; [|inversion Hc].
  unfold bind at 1 in Hc.
  destruct (f (asarray_domain dom)) as [values|e] eqn:Ef; [|inversion Hc].
  unfold bind at 1, get in Hc. unfold bind at 1 in Hc.
  destruct (is_single_value s1 values) as [single|e]; [|inversion Hc].
  exists (asarray_domain dom), f, values.
  destruct single.
  - unfold ret in Hc. inversion Hc; subst s' r.
    split; [reflexivity|]. split; [exact Ef | reflexivity].
  - unfold bind in Hc.
    destruct (domain_class dom u) as [d|e]; [|inversion Hc].
    unfold ret in Hc. inversion Hc; subst s' r.
    split; [reflexivity|]. split; [exact Ef | reflexivity].
Qed.

(** X6. Every value a call returns respects the scalar clip bounds of the
    signal. *)
Theorem call_respects_clip_bounds :
  forall (s s' : Signal U) (q : query U) (r : call_result U)
         (lo hi : option Q),
    signal_min s = scalar_bound lo ->
    signal_max s = scalar_bound hi ->
    ordered_bounds lo hi ->
    __call__ q s = (s', Ok r) ->
    Forall (respects lo hi) (call_values r).
Proof.
  intros s s' q r lo hi Hlo Hhi Ho Hc.
  destruct (call_returns_interpolated _ _ _ _ Hc)
    as (c & f & values & Ei & Ef & ->).
  destruct (interpolate_is_clip_wrapper _ _ _ Ei) as (interp & ->).
  destruct (interpolate_state _ _ _ Ei) as (kw & cache & Hs').
  unfold clip_wrapper in Ef.
  destruct (interp c) as [v0|e]; [|discriminate]. cbn [rbind] in Ef.
  assert (Hmin : signal_min s' = signal_min s) by (rewrite Hs'; reflexivity).
  assert (Hmax : signal_max s' = signal_max s) by (rewrite Hs'; reflexivity).
  rewrite Hmin, Hmax, Hlo, Hhi in Ef.
  exact (proj1 (clip_values_scalar _ _ _ _ Ho Ef)).
Qed.

(** X7. With a lower bound above the upper one, every value a call returns is
    the upper bound. *)
Theorem crossed_clip_bounds_give_upper :
  forall (s s' : Signal U) (q : query U) (r : call_result U) (l h : Q),
    signal_min s = Some (np.BScalar l) ->
    signal_max s = Some (np.BScalar h) ->
    h < l ->
    __call__ q s = (s', Ok r) ->
    Forall (fun x => x = h) (call_values r).
Proof.
  intros s s' q r l h Hlo Hhi Hlt Hc.
  destruct (call_returns_interpolated _ _ _ _ Hc)
    as (c & f & values & Ei & Ef & ->).
  destruct (interpolate_is_clip_wrapper _ _ _ Ei) as (interp & ->).
  destruct (interpolate_state _ _ _ Ei) as (kw & cache & Hs').
  unfold clip_wrapper in Ef.
  destruct (interp c) as [v0|e]; [|discriminate]. cbn [rbind] in Ef.
  assert (Hmin : signal_min s' = signal_min s) by (rewrite Hs'; reflexivity).
  assert (Hmax : signal_max s' = signal_max s) by (rewrite Hs'; reflexivity).
  rewrite Hmin, Hmax, Hlo, Hhi in Ef.
  cbn in Ef. injection Ef as <-.
  rewrite amap_amap, flatten_amap.
  apply Forall_forall. intros y Hy.
  apply in_map_iff in Hy. destruct Hy as (x & <- & _).
  unfold np.minimum.
  destruct (Qle_bool (np.maximum x l) h) eqn:E; [|reflexivity].
  exfalso. apply Qle_bool_iff in E.
  apply (Qlt_not_le _ _ Hlt).
  eapply Qle_trans; [apply maximum_ge_r | exact E].
Qed.

End Clipping.

Section ListBounds.

Context {U : Type} `{UnitSystem U}.

Import scipy signal.

(** A list-like clip value that [_check_clip_value] accepts has one entry
    per channel. *)
Lemma check_clip_value_length (s : Signal U) (l : list Q) :
  _check_clip_value s (Some (np.BList l)) = Ok tt ->
  other_len s = Ok (length l).
Proof.
  unfold _check_clip_value.
  destruct (other_len s) as [n|e]; [|discriminate]. cbn [rbind].
  destruct (Nat.eqb (ndim s) 2);
    destruct (Nat.eqb (length l) n) eqn:E; try discriminate;
    apply Nat.eqb_eq in E; subst n; reflexivity.
Qed.

Lemma broadcast1_single_r {A B C} (f : A -> B -> C) (a : list A) (y : B) :
  exists r, np.broadcast1 f a [y] = Ok r /\ (length a <> 0%nat -> length r = length a).
Proof.
  unfold np.broadcast1. destruct a as [|x [|x' a]].
  - cbn. exists []. split; [reflexivity | intro E; contradiction].
  - exists [f x y]. split; reflexivity.
  - eexists. split; [reflexivity|]. intros _. cbn. rewrite length_map.
    reflexivity.
Qed.

(** Broadcasting an array against a sequence of [n] entries succeeds when
    the last axis of the array has [n] entries or the sequence has one
    entry; the last axis of the result has [n] entries again. *)
Lemma broadcast_bound_list (f : Q -> Q -> Q) (v : np.ndarray) (l : list Q) :
  length l = 1%nat \/ last_axis_is (length l) v ->
  exists v',
    np.broadcast_bound f v (np.BList l) = Ok v'
    /\ (last_axis_is (length l) v -> last_axis_is (length l) v').
Proof.
  intros Hfit. unfold np.broadcast_bound.
  destruct v as [x|xs|rows].
  - eexists. split; [reflexivity|]. intros _. cbn. apply length_map.
  - destruct Hfit as [H1|Hn].
    + destruct l as [|y [|y' l]]; try discriminate H1.
      destruct (broadcast1_single_r f xs y) as (r & Er & Hr).
      rewrite Er. cbn [rbind]. eexists. split; [reflexivity|].
      cbn. intro Hxs. rewrite Hr; [exact Hxs|]. rewrite Hxs. discriminate.
    + cbn in Hn. rewrite (broadcast1_same_length f xs l Hn). cbn [rbind].
      eexists. split; [reflexivity|]. intros _. cbn.
      rewrite zip_with_length; assumption.
  - destruct Hfit as [H1|Hn].
    + destruct l as [|y [|y' l]]; try discriminate H1.
      unfold np.broadcast_rows.
      assert (Hall : exists rs,
                 mapM (fun r => np.broadcast1 f r [y]) rows = Ok rs
                 /\ (Forall (fun r => length r = 1%nat) rows ->
                     Forall (fun r => length r = 1%nat) rs)).
      { induction rows as [|r rows IH]; cbn [mapM].
        - exists []. split; [reflexivity | intros _; constructor].
        - destruct (broadcast1_single_r f r y) as (r' & Er & Hr).
          rewrite Er. destruct IH as (rs & Ers & Hrs). rewrite Ers.
          exists (r' :: rs). split; [reflexivity|].
          intro HF. inversion HF; subst. constructor.
          + rewrite Hr; [assumption|]. lia.
          + apply Hrs. assumption. }
      destruct Hall as (rs & Ers & Hrs). rewrite Ers. cbn [rbind].
      eexists. split; [reflexivity|]. exact Hrs.
    + cbn in Hn. rewrite (broadcast_rows_same_length f rows l Hn).
      cbn [rbind]. eexists. split; [reflexivity|]. intros _. cbn.
      apply Forall_forall. intros r' Hr'.
      apply in_map_iff in Hr'. destruct Hr' as (r & <- & Hin).
      rewrite Forall_forall in Hn.
      rewrite zip_with_length; apply Hn; assumption.
Qed.

Lemma amap_last_axis (f : Q -> Q) (n : nat) (v : np.ndarray) :
  last_axis_is n v -> last_axis_is n (np.amap f v).
Proof.
  destruct v as [x|xs|rows]; cbn; [trivial | |].
  - rewrite length_map. trivial.
  - intro HF. apply Forall_forall. intros r' Hr'.
    apply in_map_iff in Hr'. destruct Hr' as (r & <- & Hin).
    rewrite length_map. rewrite Forall_forall in HF. apply HF. exact Hin.
Qed.

(** One operand of [np.clip] that [_check_clip_value] accepted. *)
Lemma checked_bound_broadcasts (s : Signal U) (f : Q -> Q -> Q)
    (n : nat) (v : np.ndarray) (b : np.bound) :
  other_len s = Ok n ->
  _check_clip_value s (Some b) = Ok tt ->
  n = 1%nat \/ last_axis_is n v ->
  exists v',
    np.broadcast_bound f v b = Ok v'
    /\ (n = 1%nat \/ last_axis_is n v').
Proof.
  intros Hn Hc Hfit. destruct b as [q|l].
  - eexists. split; [reflexivity|].
    destruct Hfit as [H1|Hv]; [left; exact H1 | right].
    apply amap_last_axis. exact Hv.
  - apply check_clip_value_length in Hc. rewrite Hn in Hc.
    injection Hc as ->.
    destruct (broadcast_bound_list f v l Hfit) as (v' & Ev & Hv').
    exists v'. split; [exact Ev|].
    destruct Hfit as [H1|Hv]; [left; exact H1 | right; apply Hv'; exact Hv].
Qed.

(** X8. Clip values that passed [_check_clip_value] can be applied to every
    array whose last axis has one entry per channel: [_clip_values]
    returns. *)
Theorem checked_clip_values_apply :
  forall (s : Signal U) (n : nat) (v : np.ndarray),
    _check_clip_value s (signal_min s) = Ok tt ->
    _check_clip_value s (signal_max s) = Ok tt ->
    other_len s = Ok n ->
    n = 1%nat \/ last_axis_is n v ->
    exists v', _clip_values v (signal_min s) (signal_max s) = Ok v'.
Proof.
  intros s n v Hmin Hmax Hn Hfit.
  unfold _clip_values, np.clip.
  destruct (signal_min s) as [lo|], (signal_max s) as [hi|].
  - destruct (checked_bound_broadcasts s np.maximum n v lo Hn Hmin Hfit)
      as (v1 & E1 & Hfit1).
    rewrite E1. cbn [rbind].
    destruct (checked_bound_broadcasts s np.minimum n v1 hi Hn Hmax Hfit1)
      as (v2 & E2 & _).
    exists v2. exact E2.
  - destruct (checked_bound_broadcasts s np.maximum n v lo Hn Hmin Hfit)
      as (v1 & E1 & _).
    rewrite E1. exists v1. reflexivity.
  - cbn [rbind].
    destruct (checked_bound_broadcasts s np.minimum n v hi Hn Hmax Hfit)
      as (v2 & E2 & _).
    exists v2. exact E2.
  - exists v. reflexivity.
Qed.

(** Along axis 1 the default interpolator returns one row per channel
    and one column per query coordinate. *)
Lemma interp1d_rows_shape (x : list Q) (rows : list (list Q)) (kw : kwargs)
    (f : interpolant) (qs : list Q) (v : np.ndarray) :
  axis_of kw (np.Arr2 rows) = 1%nat ->
  interp1d x (np.Arr2 rows) kw = Ok f ->
  f (C1 qs) = Ok v ->
  exists vs,
    v = np.Arr2 vs
    /\ length vs = length rows
    /\ Forall (fun r => length r = length qs) vs.
Proof.
  intros Hax Hf Hv. unfold interp1d in Hf. rewrite Hax in Hf.
  cbn [np.slices] in Hf.
  destruct (negb (same_length x rows)); [discriminate|].
  destruct (Nat.ltb (length x) 2); [discriminate|].
  injection Hf as <-.
  destruct (mapM (fun ch => mapM (evaluate x ch (wants_extrapolate kw)) qs) rows)
    as [vs|e] eqn:Em; [|discriminate].
  cbn [rbind] in Hv. injection Hv as <-.
  exists vs. split; [reflexivity|]. split.
  - eapply mapM_length. exact Em.
  - apply mapM_Forall2 in Em.
    clear -Em. induction Em as [|ch r rows vs Hr _ IH]; constructor.
    + eapply mapM_length. exact Hr.
    + exact IH.
Qed.

(** A sequence of [n] entries does not broadcast against a row of another
    length, unless one of the two has a single entry. *)
Lemma broadcast1_mismatch {A B C} (f : A -> B -> C) (a : list A) (b : list B) :
  length a <> length b -> length a <> 1%nat -> length b <> 1%nat ->
  np.broadcast1 f a b
  = Raise (ValueError "operands could not be broadcast together").
Proof.
  intros Hk Ha Hb. unfold np.broadcast1.
  destruct a as [|x [|x' a]]; destruct b as [|y [|y' b]];
    cbn in *; try congruence.
  destruct (Nat.eqb (length a) (length b)) eqn:E; [|reflexivity].
  apply Nat.eqb_eq in E. congruence.
Qed.

(** With an empty cache, what [interpolate] hands out wraps the
    interpolant that the interpolator builds from the present domain and
    values. *)
Lemma interpolate_empty_cache (s s' : Signal U) (f : interpolant) :
  _interpolate s = None ->
  interpolate s = (s', Ok f) ->
  exists interp,
    _interpolator s (dom_magnitude (_domain s)) (_values s) (call_kwargs s)
    = Ok interp
    /\ f = clip_wrapper s' interp.
Proof.
  intro Ec.
  unfold interpolate, cached_interpolant, interpolator_kwargs.
  unfold bind, get, ret, lift, modify. rewrite Ec.
  cbn [interpolator set_interpolator_kwargs _interpolator domain _domain
         magnitude _values _interpolator_kwargs domain_axis _domain_axis].
  unfold call_kwargs, domain_axis.
  destruct (_interpolator s _ _ _) as [interp|e]; intro E; inversion E; subst.
  exists interp. split; reflexivity.
Qed.

(** What a call on plain coordinates returns was interpolated at these
    coordinates. *)
Lemma call_on_coords (s s' : Signal U) (c : coords) (r : call_result U) :
  __call__ (QCoords c) s = (s', Ok r) ->
  exists f values, interpolate s = (s', Ok f) /\ f c = Ok values.
Proof.
  intro Hc.
  unfold __call__ in Hc. unfold bind at 1, get in Hc.
  unfold bind at 1, lift in Hc. cbn [convert_query fst snd] in Hc.
  unfold bind at 1 in Hc.
  destruct (check_domain_min s _ _) as [[]|e]; [|inversion Hc].
  unfold bind at 1 in Hc.
  destruct (check_domain_max s _ _) as [[]|e]; [|inversion Hc].
  unfold bind at 1 in Hc.
  destruct (interpolate s) as [s1 [f|e]] eqn:Ei; [|inversion Hc].
  unfold bind at 1 in Hc. cbn [asarray_domain] in Hc.
  destruct (f c) as [values|e] eqn:Ef; [|inversion Hc].
  unfold bind at 1, get in Hc. unfold bind at 1 in Hc.
  destruct (is_single_value s1 values) as [single|e]; [|inversion Hc].
  exists f, values.
  destruct single.
  - unfold ret in Hc. inversion Hc; subst s' r. split; [reflexivity | exact Ef].
  - unfold bind in Hc.
    destruct (domain_class _ _) as [d|e]; [|inversion Hc].
    unfold ret in Hc. inversion Hc; subst s' r.
    split; [reflexivity | exact Ef].
Qed.

(** X9. A signal whose channels lie along the rows ([domain_axis = 1]), with
    the default interpolator and a list-like [signal_min] that
    [_check_clip_value] accepted (one entry per channel), cannot be
    resampled: a call with [k] coordinates never returns when there are at
    least two channels and [k] is neither 1 nor the number of channels. *)
Theorem list_clip_along_rows_blocks_calls :
  forall (s : Signal U) (rows : list (list Q)) (l qs : list Q),
    magnitude s = np.Arr2 rows ->
    domain_axis s = 1%nat ->
    _interpolator s = interp1d ->
    _interpolate s = None ->
    signal_min s = Some (np.BList l) ->
    _check_clip_value s (signal_min s) = Ok tt ->
    (2 <= length rows)%nat ->
    length qs <> 1%nat ->
    length qs <> length rows ->
    is_ok (snd (__call__ (QCoords (C1 qs)) s)) = false.
Proof.
  intros s rows l qs Hmag Hax Hint Hcache Hmin Hcheck Hrows Hq1 Hqn.
  rewrite Hmin in Hcheck. apply check_clip_value_length in Hcheck.
  assert (Hl : length l = length rows).
  { unfold other_len, other_axis, ndim, domain_axis, shape_at in Hcheck.
    unfold magnitude in Hmag. rewrite Hmag in Hcheck.
    unfold domain_axis in Hax. rewrite Hax in Hcheck. cbn in Hcheck.
    injection Hcheck as E. symmetry. exact E. }
  destruct (__call__ (QCoords (C1 qs)) s) as [s' [r|e]] eqn:Hc;
    [|reflexivity].
  exfalso.
  destruct (call_on_coords _ _ _ _ Hc) as (f & values & Ei & Ef).
  destruct (interpolate_empty_cache _ _ _ Hcache Ei) as (interp & Einterp & ->).
  destruct (interpolate_state _ _ _ Ei) as (kw & cache & Hs').
  unfold magnitude in Hmag. rewrite Hint, Hmag in Einterp.
  assert (Haxis : axis_of (call_kwargs s) (np.Arr2 rows) = 1%nat).
  { unfold axis_of, call_kwargs. rewrite kwargs_get_set, Hax. reflexivity. }
  unfold clip_wrapper in Ef.
  destruct (interp (C1 qs)) as [v|e] eqn:Ev; [|discriminate].
  destruct (interp1d_rows_shape _ _ _ _ _ _ Haxis Einterp Ev)
    as (vs & -> & Hlen & Hcols).
  cbn [rbind] in Ef.
  assert (Hmin' : signal_min s' = Some (np.BList l))
    by (rewrite Hs'; exact Hmin).
  rewrite Hmin' in Ef.
  destruct vs as [|r0 vs]; [cbn in Hlen; lia|].
  inversion Hcols as [|? ? Hr0 _]; subst.
  unfold _clip_values, np.clip, np.broadcast_bound, np.broadcast_rows in Ef.
  cbn [mapM] in Ef.
  rewrite (broadcast1_mismatch np.maximum r0 l) in Ef by lia.
  cbn in Ef. discriminate.
Qed.

End ListBounds.

(** ** Linear interpolation stays within the samples *)

Section LinearSegments.

Context {U : Type} `{UnitSystem U}.

Import scipy signal.

(** [searchsorted] on ascending abscissae: the entries before the index
    returned are below [q], the entry at it is not. *)
Lemma searchsorted_spec :
  forall x q,
    (searchsorted x q <= length x)%nat
    /\ (forall j, (j < searchsorted x q)%nat -> nth j x 0 < q)
    /\ ((searchsorted x q < length x)%nat -> q <= nth (searchsorted x q) x 0).
Proof.
  induction x as [|x0 x IH]; intro q; cbn [searchsorted length].
  - split; [lia|]. split; [intros j Hj; lia | intro Hj; lia].
  - destruct (Qlt_bool x0 q) eqn:E.
    + apply Qlt_bool_iff in E. destruct (IH q) as (Hle & Hlt & Hge).
      split; [lia|]. split.
      * intros [|j] Hj; cbn [nth]; [exact E | apply Hlt; lia].
      * intro Hj. cbn [nth]. apply Hge. lia.
    + apply Qlt_bool_false_iff in E.
      split; [lia|]. split; [intros j Hj; lia|].
      intros _. exact E.
Qed.

Lemma last_is_nth : forall (x : list Q), last x 0 = nth (length x - 1) x 0.
Proof.
  induction x as [|x0 [|x1 x] IH]; try reflexivity.
  change (last (x0 :: x1 :: x) 0) with (last (x1 :: x) 0).
  rewrite IH. cbn [length Nat.sub nth]. rewrite Nat.sub_0_r. reflexivity.
Qed.

(** A point on the segment between two samples lies between the
    samples. *)
Lemma segment_within (xl xh yl yh q lo hi : Q) :
  xl < xh -> xl <= q -> q <= xh ->
  lo <= yl -> yl <= hi -> lo <= yh -> yh <= hi ->
  lo <= (yh - yl) / (xh - xl) * (q - xl) + yl
  /\ (yh - yl) / (xh - xl) * (q - xl) + yl <= hi.
Proof.
  intros Hx Hq1 Hq2 Hl1 Hh1 Hl2 Hh2.
  set (t := (q - xl) / (xh - xl)).
  assert (Hd : 0 < xh - xl) by lra.
  assert (Ht0 : 0 <= t).
  { unfold t. apply Qle_shift_div_l; [exact Hd|]. lra. }
  assert (Ht1 : t <= 1).
  { unfold t. apply Qle_shift_div_r; [exact Hd|]. lra. }
  assert (E : (yh - yl) / (xh - xl) * (q - xl) + yl == yl + t * (yh - yl)).
  { unfold t. field. lra. }
  rewrite E.
  assert (H1 : 0 <= t * (yh - lo)) by (apply Qmult_le_0_compat; lra).
  assert (H2 : 0 <= (1 - t) * (yl - lo)) by (apply Qmult_le_0_compat; lra).
  assert (H3 : 0 <= t * (hi - yh)) by (apply Qmult_le_0_compat; lra).
  assert (H4 : 0 <= (1 - t) * (hi - yl)) by (apply Qmult_le_0_compat; lra).
  split; nra.
Qed.

(** Within the range of the abscissae, linear interpolation gives a value
    between values of the series. *)
Lemma call_linear_within (x y : list Q) (q lo hi : Q) :
  ascending x -> (2 <= length x)%nat -> length y = length x ->
  hd 0 x <= q -> q <= last x 0 ->
  (forall v, In v y -> lo <= v /\ v <= hi) ->
  lo <= call_linear x y q /\ call_linear x y q <= hi.
Proof.
  intros Ha Hn Hlen Hq0 Hq1 Hy.
  destruct (searchsorted_spec x q) as (Hle & Hlt & Hge).
  unfold call_linear.
  set (k := searchsorted x q) in *.
  set (ih := Nat.min (Nat.max k 1) (length x - 1)).
  assert (Hih : (1 <= ih)%nat /\ (ih < length x)%nat) by (unfold ih; lia).
  assert (Hxl : nth (ih - 1) x 0 <= q).
  { destruct (Nat.eq_dec k 0) as [Hk|Hk].
    - replace (ih - 1)%nat with 0%nat by (unfold ih; lia).
      destruct x; [cbn in Hn; lia | exact Hq0].
    - apply Qlt_le_weak. apply Hlt. unfold ih. lia. }
  assert (Hxh : q <= nth ih x 0).
  { destruct (Nat.eq_dec k 0) as [Hk|Hk].
    - replace ih with 1%nat by (unfold ih; lia).
      assert (H0 : q <= nth 0 x 0) by (rewrite <- Hk; apply Hge; lia).
      pose proof (ascending_nth_lt x 0 Ha ltac:(lia)) as H01. lra.
    - destruct (Nat.lt_ge_cases k (length x)) as [Hk'|Hk'].
      + replace ih with k by (unfold ih; lia). apply Hge. exact Hk'.
      + replace ih with (length x - 1)%nat by (unfold ih; lia).
        rewrite <- last_is_nth. exact Hq1. }
  assert (Hxx : nth (ih - 1) x 0 < nth ih x 0).
  { replace ih with (S (ih - 1)) at 2 by lia.
    apply ascending_nth_lt; [exact Ha | lia]. }
  assert (Hyl : In (nth (ih - 1) y 0) y) by (apply nth_In; lia).
  assert (Hyh : In (nth ih y 0) y) by (apply nth_In; lia).
  destruct (Hy _ Hyl) as [Hl1 Hh1]. destruct (Hy _ Hyh) as [Hl2 Hh2].
  apply segment_within; assumption.
Qed.

End LinearSegments.

Section CallWithin.

Context {U : Type} `{UnitSystem U}.

Import scipy signal.

Lemma evaluate_within (x ch : list Q) (q v lo hi : Q) :
  ascending x -> (2 <= length x)%nat -> length ch = length x ->
  Forall (fun y => lo <= y /\ y <= hi) ch ->
  evaluate x ch false q = Ok v ->
  lo <= v /\ v <= hi.
Proof.
  intros Ha Hn Hlen Hch. unfold evaluate, out_of_bounds. cbn [negb andb].
  destruct (Qlt_bool q (hd 0 x)) eqn:E1; [discriminate|].
  destruct (Qlt_bool (last x 0) q) eqn:E2; [discriminate|].
  cbn [orb]. intro E. injection E as <-.
  apply Qlt_bool_false_iff in E1. apply Qlt_bool_false_iff in E2.
  apply call_linear_within; try assumption.
  rewrite Forall_forall in Hch. exact Hch.
Qed.

Lemma mapM_post {A B} (f : A -> result B) (P : A -> Prop) (R : B -> Prop) :
  (forall a b, P a -> f a = Ok b -> R b) ->
  forall l bs, Forall P l -> mapM f l = Ok bs -> Forall R bs.
Proof.
  intros Hf l bs Hl Hm. apply mapM_Forall2 in Hm.
  induction Hm as [|a b l bs Hab _ IH]; constructor.
  - inversion Hl; subst. eapply Hf; eassumption.
  - apply IH. inversion Hl; assumption.
Qed.

Lemma Forall_concat {A} (P : A -> Prop) (ls : list (list A)) :
  Forall (Forall P) ls -> Forall P (concat ls).
Proof.
  induction 1 as [|l ls Hl _ IH]; cbn; [constructor|].
  apply Forall_app. split; assumption.
Qed.

Lemma same_length_Forall (x : list Q) (chs : list (list Q)) :
  same_length x chs = true -> Forall (fun ch => length ch = length x) chs.
Proof.
  unfold same_length. intro E. apply Forall_forall. intros ch Hch.
  rewrite forallb_forall in E. apply Nat.eqb_eq. apply E. exact Hch.
Qed.

(** What the linear interpolant of [interp1d], built without
    extrapolation over ascending abscissae, returns lies between bounds of
    the interpolated series. *)
Lemma interp1d_within (x : list Q) (y : np.ndarray) (kw : kwargs)
    (interp : interpolant) (c : coords) (v : np.ndarray) (lo hi : Q) :
  wants_extrapolate kw = false ->
  ascending x ->
  Forall (Forall (fun y => lo <= y /\ y <= hi))
         (match y with
          | np.Arr0 _ => []
          | np.Arr1 ys => [ys]
          | np.Arr2 rows => np.slices rows (axis_of kw y)
          end) ->
  interp1d x y kw = Ok interp ->
  interp c = Ok v ->
  Forall (fun y => lo <= y /\ y <= hi) (np.flatten v).
Proof.
  intros Hex Ha Hch. unfold interp1d. rewrite Hex.
  destruct y as [y0|ys|rows]; [discriminate| |].
  - destruct (Nat.eqb (length ys) (length x)) eqn:El; cbn [negb]; [|discriminate].
    apply Nat.eqb_eq in El.
    destruct (Nat.ltb (length x) 2) eqn:En; [discriminate|].
    apply Nat.ltb_ge in En.
    intro E. injection E as <-.
    inversion Hch as [|? ? Hys _]; subst.
    destruct c as [q|qs].
    + destruct (evaluate x ys false q) as [w|e] eqn:Ev; [|discriminate].
      cbn [rbind]. intro E. injection E as <-. cbn [np.flatten].
      constructor; [|constructor]. eapply evaluate_within; eassumption.
    + destruct (mapM (evaluate x ys false) qs) as [w|e] eqn:Ev; [|discriminate].
      cbn [rbind]. intro E. injection E as <-. cbn [np.flatten].
      eapply (mapM_post _ (fun _ => True)); [| |exact Ev].
      * intros q b _ Hb. eapply evaluate_within; eassumption.
      * apply Forall_forall. intros; exact I.
  - set (axis := axis_of kw (np.Arr2 rows)) in *.
    set (chs := np.slices rows axis) in *.
    destruct (same_length x chs) eqn:El; cbn [negb]; [|discriminate].
    apply same_length_Forall in El.
    destruct (Nat.ltb (length x) 2) eqn:En; [discriminate|].
    apply Nat.ltb_ge in En.
    intro E. injection E as <-.
    assert (Hboth : Forall (fun ch => length ch = length x
                                      /\ Forall (fun y => lo <= y /\ y <= hi) ch) chs).
    { apply Forall_forall. intros ch Hin. rewrite Forall_forall in El, Hch.
      split; [apply El | apply Hch]; exact Hin. }
    assert (Hq : forall q w, mapM (fun ch => evaluate x ch false q) chs = Ok w ->
                             Forall (fun y => lo <= y /\ y <= hi) w).
    { intros q w Ew. eapply mapM_post; [|exact Hboth|exact Ew].
      intros ch b [Hl Hc] Hb. eapply evaluate_within; eassumption. }
    destruct c as [q|qs].
    + destruct (mapM _ chs) as [w|e] eqn:Ev; [|discriminate].
      cbn [rbind]. intro E. injection E as <-. cbn [np.flatten].
      eapply Hq. exact Ev.
    + destruct axis.
      * destruct (mapM _ qs) as [w|e] eqn:Ev; [|discriminate].
        cbn [rbind]. intro E. injection E as <-. cbn [np.flatten].
        apply Forall_concat.
        eapply (mapM_post _ (fun _ => True)); [| |exact Ev].
        -- intros q b _ Hb. eapply Hq. exact Hb.
        -- apply Forall_forall. intros; exact I.
      * destruct (mapM _ chs) as [w|e] eqn:Ev; [|discriminate].
        cbn [rbind]. intro E. injection E as <-. cbn [np.flatten].
        apply Forall_concat.
        eapply mapM_post; [|exact Hboth|exact Ev].
        intros ch b [Hl Hc] Hb. cbn beta in Hb.
        eapply (mapM_post _ (fun _ => True)); [| |exact Hb].
        -- intros q b' _ Hb'. eapply evaluate_within; eassumption.
        -- apply Forall_forall. intros; exact I.
Qed.

Lemma axis_of_call_kwargs (s : Signal U) (rows : list (list Q)) :
  axis_of (call_kwargs s) (np.Arr2 rows) = domain_axis s.
Proof.
  unfold axis_of, call_kwargs. rewrite kwargs_get_set.
  destruct (Z.of_nat (domain_axis s) <? 0)%Z eqn:E.
  - apply Z.ltb_lt in E. lia.
  - apply Nat2Z.id.
Qed.

(** X10. Resampling never overshoots: with the linear interpolator of
    [interp1d] ([kind] absent or ['linear'], no [bounds_error=False]), no
    extrapolation, no clip bounds, an empty cache and an ascending domain,
    every value a call returns lies between bounds of the samples.  (With
    another [kind] scipy fits splines, which overshoot, and with
    [bounds_error=False] it fills in values of its own.) *)
Theorem call_stays_within_samples :
  forall (s s' : Signal U) (q : query U) (r : call_result U) (lo hi : Q),
    _interpolator s = interp1d ->
    _interpolate s = None ->
    linear_options (_interpolator_kwargs s) = true ->
    wants_extrapolate (_interpolator_kwargs s) = false ->
    signal_min s = None ->
    signal_max s = None ->
    ascending (dom_magnitude (domain s)) ->
    Forall (Forall (fun y => lo <= y /\ y <= hi)) (channels s) ->
    __call__ q s = (s', Ok r) ->
    Forall (fun v => lo <= v /\ v <= hi) (call_values r).
Proof.
  intros s s' q r lo hi Hi Hc Hlin Hex Hmin Hmax Ha Hch Hcall.
  destruct (call_returns_interpolated _ _ _ _ Hcall)
    as (c & f & values & Ei & Ef & ->).
  destruct (interpolate_empty_cache _ _ _ Hc Ei) as (interp & Eb & ->).
  destruct (interpolate_state _ _ _ Ei) as (kw & cache & Hs').
  unfold clip_wrapper in Ef.
  destruct (interp c) as [v0|e] eqn:Ev; [|discriminate]. cbn [rbind] in Ef.
  assert (Hmin' : signal_min s' = None) by (rewrite Hs'; exact Hmin).
  assert (Hmax' : signal_max s' = None) by (rewrite Hs'; exact Hmax).
  rewrite Hmin', Hmax' in Ef. cbn [_clip_values] in Ef. injection Ef as <-.
  rewrite Hi in Eb.
  eapply interp1d_within; [| exact Ha | | exact Eb | exact Ev].
  - unfold wants_extrapolate, call_kwargs.
    rewrite kwargs_get_set_other by discriminate. exact Hex.
  - unfold channels, magnitude in Hch.
    destruct (_values s) as [y0|ys|rows]; [constructor | exact Hch |].
    rewrite axis_of_call_kwargs. exact Hch.
Qed.

End CallWithin.

(** ** Boundaries of a signal *)

Section Extremes.

Context {U : Type} `{UnitSystem U}.

Import scipy signal.

Lemma extremes_of_min_max (ch : list Q) (lo hi : Q) :
  np.min (np.Arr1 ch) = Ok lo -> np.max (np.Arr1 ch) = Ok hi ->
  extremes_of ch [lo; hi].
Proof.
  intros Hlo Hhi.
  destruct (np_min_spec _ _ Hlo) as [Hin Hle].
  destruct (np_max_spec _ _ Hhi) as [Hin' Hge].
  exists lo, hi. repeat split; auto.
Qed.

Lemma pairs_are_extremes :
  forall (chs : list (list Q)) (los his : list Q),
    Forall2 (fun ch lo => np.min (np.Arr1 ch) = Ok lo) chs los ->
    Forall2 (fun ch hi => np.max (np.Arr1 ch) = Ok hi) chs his ->
    Forall2 extremes_of chs
      (List.map (fun j => [nth j los 0; nth j his 0]) (seq 0 (length los))).
Proof.
  induction chs as [|ch chs IH]; intros los his Elo Ehi.
  - inversion Elo; subst. constructor.
  - inversion Elo as [|? lo ? los' Hlo Hlos]; subst.
    inversion Ehi as [|? hi ? his' Hhi Hhis]; subst.
    cbn [length seq List.map nth]. constructor.
    + apply extremes_of_min_max; assumption.
    + rewrite <- seq_shift, map_map. cbn [nth].
      apply IH; assumption.
Qed.

(** [boundaries] returns, for every channel, the pair of its lowest and
    its highest value: both are values of the channel and every value of
    the channel lies between them. *)
Lemma boundaries_extremes (s : Signal U) (b : np.ndarray) :
  boundaries s = Ok b ->
  Forall2 extremes_of (channels s) (boundary_rows b).
Proof.
  intros Hb. unfold boundaries, np.min_axis, np.max_axis in Hb.
  unfold channels. destruct (magnitude s) as [x|ys|rows].
  - discriminate.
  - cbn [np.reduce_axis] in Hb. destruct (domain_axis s); [|discriminate].
    destruct (np.min (np.Arr1 ys)) as [lo|e] eqn:Elo; [|discriminate].
    destruct (np.max (np.Arr1 ys)) as [hi|e] eqn:Ehi; [|discriminate].
    cbn in Hb. injection Hb as <-. cbn [boundary_rows].
    constructor; [|constructor].
    apply extremes_of_min_max; assumption.
  - cbn [np.reduce_axis] in Hb.
    destruct (Nat.ltb (domain_axis s) 2); [|discriminate].
    destruct (mapM (fun ch => np.min (np.Arr1 ch))
                (np.slices rows (domain_axis s))) as [los|e] eqn:Elo;
      [|discriminate].
    destruct (mapM (fun ch => np.max (np.Arr1 ch))
                (np.slices rows (domain_axis s))) as [his|e] eqn:Ehi;
      [|discriminate].
    cbn in Hb. injection Hb as <-. cbn [boundary_rows].
    apply mapM_Forall2 in Elo. apply mapM_Forall2 in Ehi.
    unfold np.columns, np.ncols, np.column. cbn [hd List.map].
    apply pairs_are_extremes; assumption.
Qed.

Lemma mapM_defined {A B} (f : A -> result B) (l : list A) :
  (forall a, In a l -> exists b, f a = Ok b) -> exists bs, mapM f l = Ok bs.
Proof.
  intro Hf. apply mapM_total. apply Forall_forall. exact Hf.
Qed.

(** Every channel of a well-shaped signal has as many entries as the
    domain. *)
Lemma channels_length (s : Signal U) :
  well_shaped s ->
  Forall (fun ch => length ch = length (dom_magnitude (domain s)))
    (channels s).
Proof.
  unfold well_shaped, channels. destruct (magnitude s) as [x|ys|rows].
  - intros [].
  - intros [_ Hl]. constructor; [exact Hl | constructor].
  - intros [(Hax & Hl & _)|(Hax & Hl)]; rewrite Hax; cbn [np.slices].
    + unfold np.columns. apply Forall_forall. intros ch Hch.
      apply in_map_iff in Hch. destruct Hch as (j & <- & _).
      rewrite column_length. exact Hl.
    + exact Hl.
Qed.

(** X11. For a well-shaped signal over a non-empty domain [boundaries]
    returns, and it returns for every channel the pair of its lowest and
    its highest value: both are values of the channel and every value of
    the channel lies between them. *)
Theorem boundaries_are_channel_extremes :
  forall s : Signal U,
    well_shaped s ->
    dom_magnitude (domain s) <> [] ->
    exists b,
      boundaries s = Ok b
      /\ Forall2 extremes_of (channels s) (boundary_rows b).
Proof.
  intros s Hws Hne.
  assert (Hb : exists b, boundaries s = Ok b).
  { pose proof (channels_length s Hws) as Hch.
    assert (Hmin : forall ch, In ch (channels s) ->
                     exists m, np.min (np.Arr1 ch) = Ok m).
    { intros ch Hin. apply np_min_defined. cbn.
      rewrite Forall_forall in Hch. specialize (Hch ch Hin).
      destruct ch; [|discriminate].
      destruct (dom_magnitude (domain s)); [congruence | discriminate]. }
    assert (Hmax : forall ch, In ch (channels s) ->
                     exists m, np.max (np.Arr1 ch) = Ok m).
    { intros ch Hin. apply np_max_defined. cbn.
      rewrite Forall_forall in Hch. specialize (Hch ch Hin).
      destruct ch; [|discriminate].
      destruct (dom_magnitude (domain s)); [congruence | discriminate]. }
    unfold boundaries, np.min_axis, np.max_axis.
    unfold well_shaped in Hws. unfold channels in Hmin, Hmax.
    destruct (magnitude s) as [x|ys|rows].
    - destruct Hws.
    - destruct Hws as [Hax _]. rewrite Hax. cbn [np.reduce_axis].
      destruct (Hmin ys (or_introl eq_refl)) as [lo ->].
      destruct (Hmax ys (or_introl eq_refl)) as [hi ->].
      eexists. reflexivity.
    - assert (Hlt : Nat.ltb (domain_axis s) 2 = true).
      { apply Nat.ltb_lt. destruct Hws as [(-> & _)|(-> & _)]; lia. }
      cbn [np.reduce_axis]. rewrite Hlt.
      destruct (mapM_defined _ _ Hmin) as [los ->].
      destruct (mapM_defined _ _ Hmax) as [his ->].
      eexists. reflexivity. }
  destruct Hb as [b Hb]. exists b. split; [exact Hb|].
  apply boundaries_extremes. exact Hb.
Qed.

End Extremes.

(** ** Integrals *)

Section Integrals.

Context {U : Type} `{UnitSystem U}.

Import scipy signal.

(** The differences of a sequence add up to the last entry minus the
    first. *)
Lemma sum_diff :
  forall (x : list Q) (x0 : Q),
    np.sum (np.diff (x0 :: x)) == last (x0 :: x) 0 - x0.
Proof.
  induction x as [|x1 x IH]; intro x0.
  - cbn. ring.
  - change (np.diff (x0 :: x1 :: x)) with ((x1 - x0) :: np.diff (x1 :: x)).
    change (last (x0 :: x1 :: x) 0) with (last (x1 :: x) 0).
    cbn [np.sum fold_right]. fold (np.sum (np.diff (x1 :: x))).
    rewrite IH. ring.
Qed.

(** The trapezoids under a constant series. *)
Lemma trapezoids_constant (c : Q) :
  forall x ys,
    length ys = length x ->
    Forall (fun y => y == c) ys ->
    np.sum (np.zip_with (fun d s => d * s / 2) (np.diff x) (np.pair_sums ys))
    == c * np.sum (np.diff x).
Proof.
  induction x as [|x0 [|x1 x] IH]; intros ys Hl Hc.
  - cbn. ring.
  - cbn. ring.
  - destruct ys as [|y0 [|y1 ys]]; try discriminate Hl.
    inversion Hc as [|? ? Hy0 Hc']; subst.
    inversion Hc' as [|? ? Hy1 _]; subst.
    change (np.diff (x0 :: x1 :: x)) with ((x1 - x0) :: np.diff (x1 :: x)).
    change (np.pair_sums (y0 :: y1 :: ys))
      with ((y1 + y0) :: np.pair_sums (y1 :: ys)).
    cbn [np.zip_with np.sum fold_right].
    fold (np.sum (np.diff (x1 :: x))).
    fold (np.sum (np.zip_with (fun d s => d * s / 2) (np.diff (x1 :: x))
                    (np.pair_sums (y1 :: ys)))).
    rewrite (IH (y1 :: ys)); [|cbn in *; lia | exact Hc'].
    rewrite Hy0, Hy1. field.
Qed.

Lemma diff_length : forall x, length (np.diff x) = (length x - 1)%nat.
Proof.
  induction x as [|x0 [|x1 x] IH]; try reflexivity.
  change (np.diff (x0 :: x1 :: x)) with ((x1 - x0) :: np.diff (x1 :: x)).
  cbn [length] in *. rewrite IH. lia.
Qed.

Lemma pair_sums_length : forall y, length (np.pair_sums y) = (length y - 1)%nat.
Proof.
  induction y as [|y0 [|y1 y] IH]; try reflexivity.
  change (np.pair_sums (y0 :: y1 :: y))
    with ((y1 + y0) :: np.pair_sums (y1 :: y)).
  cbn [length] in *. rewrite IH. lia.
Qed.

(** The trapezoidal integral of a constant series is the constant times
    the span of the abscissae. *)
Lemma trapz1_constant (c : Q) (x ys : list Q) :
  length ys = length x ->
  Forall (fun y => y == c) ys ->
  exists v, np.trapz1 ys x = Ok v /\ v == c * (last x 0 - hd 0 x).
Proof.
  intros Hl Hc. unfold np.trapz1.
  rewrite broadcast1_same_length
    by (rewrite diff_length, pair_sums_length, Hl; reflexivity).
  cbn [rbind]. eexists. split; [reflexivity|].
  rewrite (trapezoids_constant c x ys Hl Hc).
  destruct x as [|x0 x].
  - cbn. ring.
  - rewrite sum_diff. reflexivity.
Qed.

(** The entries of [integral] are the trapezoidal integrals of the
    channels. *)
Lemma integral_channels (s : Signal U) (q : Quantity U np.ndarray) :
  integral s = Ok q ->
  mapM (fun ch => np.trapz1 ch (dom_magnitude (domain s))) (channels s)
  = Ok (np.flatten (q_magnitude q)).
Proof.
  unfold integral, np.trapz, channels.
  destruct (magnitude s) as [x|ys|rows]; [discriminate | |].
  - cbn [mapM]. destruct (np.trapz1 ys _) as [v|e]; [|discriminate].
    cbn. intro E. injection E as <-. reflexivity.
  - destruct (mapM _ _) as [vs|e]; [|discriminate].
    cbn. intro E. injection E as <-. reflexivity.
Qed.

Lemma integral_defined (s : Signal U) (vs : list Q) :
  np.ndim (magnitude s) <> 0%nat ->
  mapM (fun ch => np.trapz1 ch (dom_magnitude (domain s))) (channels s)
  = Ok vs ->
  exists q,
    integral s = Ok q
    /\ np.flatten (q_magnitude q) = vs
    /\ q_units q = unit_mul (units s) (dom_units (domain s)).
Proof.
  unfold integral, np.trapz, channels.
  destruct (magnitude s) as [x|ys|rows]; [cbn; congruence | |]; intros _.
  - cbn [mapM]. destruct (np.trapz1 ys _) as [v|e]; [|discriminate].
    intro E. injection E as <-. eexists. split; [reflexivity|].
    split; reflexivity.
  - intros ->. eexists. split; [reflexivity|]. split; reflexivity.
Qed.

Lemma well_shaped_ndim (s : Signal U) :
  well_shaped s -> np.ndim (magnitude s) <> 0%nat.
Proof.
  unfold well_shaped. destruct (magnitude s); [intros [] | discriminate..].
Qed.

(** X12. A signal whose channels are constant integrates, channel by channel,
    to the constant times the span of the domain; the integral carries
    the product of the units of the signal and of the domain. *)
Theorem integral_of_constant_channels :
  forall (s : Signal U) (cs : list Q),
    well_shaped s ->
    Forall2 (fun ch c => Forall (fun y => y == c) ch) (channels s) cs ->
    exists q,
      integral s = Ok q
      /\ q_units q = unit_mul (units s) (dom_units (domain s))
      /\ Forall2 (fun c v =>
                    v == c * (dom_end (domain s) - dom_start (domain s)))
           cs (np.flatten (q_magnitude q)).
Proof.
  intros s cs Hws Hcs.
  pose proof (channels_length s Hws) as Hlen.
  assert (Hm : exists vs,
             mapM (fun ch => np.trapz1 ch (dom_magnitude (domain s)))
               (channels s) = Ok vs
             /\ Forall2 (fun c v =>
                           v == c * (dom_end (domain s) - dom_start (domain s)))
                  cs vs).
  { revert Hlen. induction Hcs as [|ch c chs cs Hc _ IH]; intro Hlen.
    - exists []. split; [reflexivity | constructor].
    - inversion Hlen as [|? ? Hl Hlen']; subst.
      destruct (IH Hlen') as (vs & Evs & Hvs).
      destruct (trapz1_constant c _ ch Hl Hc) as (v & Ev & Hv).
      cbn [mapM]. rewrite Ev, Evs.
      exists (v :: vs). split; [reflexivity|].
      constructor; [exact Hv | exact Hvs]. }
  destruct Hm as (vs & Evs & Hvs).
  destruct (integral_defined s vs (well_shaped_ndim s Hws) Evs)
    as (q & Eq & Hflat & Hu).
  exists q. split; [exact Eq|]. split; [exact Hu|].
  rewrite Hflat. exact Hvs.
Qed.

(** *** Sign of the integral *)

Lemma zip_with_In {A B C} (f : A -> B -> C) :
  forall a b z,
    In z (np.zip_with f a b) -> exists x y, In x a /\ In y b /\ z = f x y.
Proof.
  induction a as [|x a IH]; intros [|y b] z Hz; cbn in Hz; try contradiction.
  destruct Hz as [<-|Hz].
  - exists x, y. cbn. auto.
  - destruct (IH b z Hz) as (x' & y' & Hx & Hy & ->).
    exists x', y'. cbn. auto.
Qed.

(** Every entry of a broadcast result combines an entry of each
    operand. *)
Lemma broadcast1_In {A B C} (f : A -> B -> C) (a : list A) (b : list B)
    (r : list C) :
  np.broadcast1 f a b = Ok r ->
  forall z, In z r -> exists x y, In x a /\ In y b /\ z = f x y.
Proof.
  intros Hb z Hz. unfold np.broadcast1 in Hb.
  assert (Hl : forall x, r = List.map (f x) b ->
                 exists x' y, In x' [x] /\ In y b /\ z = f x' y).
  { intros x ->. apply in_map_iff in Hz. destruct Hz as (y & <- & Hy).
    exists x, y. cbn. auto. }
  assert (Hr : forall y, r = List.map (fun x => f x y) a ->
                 exists x y', In x a /\ In y' [y] /\ z = f x y').
  { intros y ->. apply in_map_iff in Hz. destruct Hz as (x & <- & Hx).
    exists x, y. cbn. auto. }
  assert (Hzip : r = np.zip_with f a b ->
                 exists x y, In x a /\ In y b /\ z = f x y).
  { intros ->. apply zip_with_In. exact Hz. }
  destruct a as [|x [|x' a]].
  - destruct b as [|y [|y' b]].
    + injection Hb as <-. contradiction.
    + injection Hb as <-. contradiction.
    + cbn in Hb. discriminate.
  - injection Hb as <-. apply Hl. reflexivity.
  - destruct b as [|y [|y' b]].
    + cbn in Hb. discriminate.
    + injection Hb as <-. apply Hr. reflexivity.
    + destruct (Nat.eqb _ _); [|discriminate].
      injection Hb as <-. apply Hzip. reflexivity.
Qed.

Lemma diff_ascending : forall x, ascending x -> Forall (fun d => 0 < d) (np.diff x).
Proof.
  induction x as [|x0 [|x1 x] IH]; intro Ha; try constructor.
  - destruct Ha as [Hlt _]. lra.
  - apply IH. exact (ascending_tail _ _ Ha).
Qed.

Lemma pair_sums_nonneg :
  forall y, Forall (fun v => 0 <= v) y -> Forall (fun v => 0 <= v) (np.pair_sums y).
Proof.
  induction y as [|y0 [|y1 y] IH]; intro Hy; try constructor.
  - inversion Hy as [|? ? H0 Hy']; subst. inversion Hy' as [|? ? H1 _]; subst.
    lra.
  - apply IH. inversion Hy; assumption.
Qed.

Lemma sum_nonneg : forall l, Forall (fun v => 0 <= v) l -> 0 <= np.sum l.
Proof.
  induction 1 as [|v l Hv _ IH]; cbn; [lra|].
  fold (np.sum l). lra.
Qed.

(** Over ascending abscissae the trapezoidal integral of a non-negative
    series is non-negative. *)
Lemma trapz1_nonneg (ys x : list Q) (v : Q) :
  ascending x ->
  Forall (fun y => 0 <= y) ys ->
  np.trapz1 ys x = Ok v ->
  0 <= v.
Proof.
  intros Ha Hy Ht. unfold np.trapz1 in Ht.
  destruct (np.broadcast1 _ _ _) as [p|e] eqn:Eb; [|discriminate].
  cbn [rbind] in Ht. injection Ht as <-.
  apply sum_nonneg. apply Forall_forall. intros z Hz.
  destruct (broadcast1_In _ _ _ _ Eb z Hz) as (d & t & Hd & Hs & ->).
  pose proof (diff_ascending x Ha) as Hpos.
  pose proof (pair_sums_nonneg ys Hy) as Hnn.
  rewrite Forall_forall in Hpos, Hnn.
  specialize (Hpos d Hd). specialize (Hnn t Hs).
  assert (Hdt : 0 <= d * t) by (apply Qmult_le_0_compat; lra).
  apply Qle_shift_div_l; [reflexivity|].
  rewrite Qmult_0_l. exact Hdt.
Qed.

(** The entries of the channels are entries of the value array, or the
    padding of a short row. *)
Lemma channels_nonneg (s : Signal U) :
  Forall (fun v => 0 <= v) (np.flatten (magnitude s)) ->
  Forall (Forall (fun v => 0 <= v)) (channels s).
Proof.
  unfold channels. destruct (magnitude s) as [x|ys|rows]; cbn [np.flatten].
  - constructor.
  - intro Hy. constructor; [exact Hy | constructor].
  - intro Hr.
    assert (Hrows : Forall (Forall (fun v => 0 <= v)) rows).
    { induction rows as [|r rows IH]; constructor.
      - cbn in Hr. apply Forall_app in Hr. tauto.
      - apply IH. cbn in Hr. apply Forall_app in Hr. tauto. }
    destruct (domain_axis s); cbn [np.slices]; [|exact Hrows].
    unfold np.columns, np.column. apply Forall_forall. intros ch Hch.
    apply in_map_iff in Hch. destruct Hch as (j & <- & _).
    apply Forall_forall. intros v Hv.
    apply in_map_iff in Hv. destruct Hv as (r & <- & Hr').
    rewrite Forall_forall in Hrows. specialize (Hrows r Hr').
    destruct (nth_in_or_default j r 0) as [Hin | ->]; [|lra].
    rewrite Forall_forall in Hrows. apply Hrows. exact Hin.
Qed.

(** Whenever [integral] returns for a non-negative signal over an
    ascending domain, every entry is non-negative. *)
Lemma integral_nonneg (s : Signal U) (q : Quantity U np.ndarray) :
  ascending (dom_magnitude (domain s)) ->
  Forall (fun v => 0 <= v) (np.flatten (magnitude s)) ->
  integral s = Ok q ->
  Forall (fun v => 0 <= v) (np.flatten (q_magnitude q)).
Proof.
  intros Ha Hnn Hq. apply integral_channels in Hq.
  pose proof (channels_nonneg s Hnn) as Hch.
  apply mapM_Forall2 in Hq. revert Hch.
  induction Hq as [|ch v chs vs Hv _ IH]; intro Hch; constructor.
  - inversion Hch; subst. eapply trapz1_nonneg; eassumption.
  - apply IH. inversion Hch; assumption.
Qed.



End Integrals.

(** ** Mapping intensities to control inputs *)

Section MappedWithinBoundaries.

Context {U : Type} `{UnitSystem U}.

Import signal MeasuredSpectraContainer.

Variable iso : Q -> Q -> bool -> list Q -> list Q -> result (list Q).
Variable inverse : list Q -> list Q -> Q * Q -> list Q -> result (list Q).

Lemma apply_mapper_frame (x : list (list Q)) (idx : nat) (c c' : Container U) r :
  apply_mapper x idx c = (c', r) ->
  _container c' = _container c /\ _mapper c' = _mapper c.
Proof.
  unfold apply_mapper, bind, get, lift, modify.
  destruct (getitem _ idx) as [mapper|e]; intro E.
  - destruct (mapper (np.column idx x)); inversion E; subst; split; reflexivity.
  - inversion E; subst. split; reflexivity.
Qed.

Lemma for_each_apply_mapper_frame (x : list (list Q)) :
  forall (idxs : list nat) (c c' : Container U) r,
    for_each (apply_mapper x) idxs c = (c', r) ->
    _container c' = _container c /\ _mapper c' = _mapper c.
Proof.
  induction idxs as [|idx idxs IH]; intros c c' r E.
  - cbn in E. inversion E; subst. split; reflexivity.
  - cbn [for_each] in E. unfold bind at 1 in E.
    destruct (apply_mapper x idx c) as [c1 [out|e]] eqn:E1.
    + destruct (apply_mapper_frame _ _ _ _ _ E1) as [Hc1 Hm1].
      unfold bind at 1 in E.
      destruct (for_each (apply_mapper x) idxs c1) as [c2 [outs|e]] eqn:E2.
      * destruct (IH _ _ _ E2) as [Hc2 Hm2].
        unfold ret in E. inversion E; subst.
        split; congruence.
      * destruct (IH _ _ _ E2) as [Hc2 Hm2].
        inversion E; subst. split; congruence.
    + destruct (apply_mapper_frame _ _ _ _ _ E1) as [Hc1 Hm1].
      inversion E; subst. split; assumption.
Qed.

(** [_mapper_func] keeps the elements of the container. *)
Lemma mapper_func_container (x : list (list Q)) (c c' : Container U) r :
  _mapper_func iso inverse x c = (c', r) ->
  _container c' = _container c.
Proof.
  unfold _mapper_func. unfold bind at 1, get. unfold bind at 1.
  destruct (_mapper c) as [ms|].
  - unfold ret at 1. unfold bind at 1.
    destruct (for_each _ _ c) as [c1 [outs|e]] eqn:E1; intro E;
      destruct (for_each_apply_mapper_frame _ _ _ _ _ E1) as [Hc _];
      unfold ret in E; inversion E; subst; exact Hc.
  - unfold bind at 1, lift.
    destruct (mapM _ _) as [mappers|e].
    + unfold modify. unfold bind at 1.
      destruct (for_each _ _ _) as [c1 [outs|e]] eqn:E1; intro E;
        destruct (for_each_apply_mapper_frame _ _ _ _ _ E1) as [Hc _];
        unfold ret in E; inversion E; subst; exact Hc.
    + intro E. inversion E; subst. reflexivity.
Qed.

Lemma fill_nan_length :
  forall (a : list np.float) (fallback : list Q),
    length a = length fallback -> length (fill_nan a fallback) = length a.
Proof.
  induction a as [|x a IH]; intros [|f fallback] Hl; cbn in *; try lia.
  rewrite IH; lia.
Qed.

(** The boundary arrays hold one entry per element. *)
Lemma lower_boundary_length (c : Container U) (lo : list Q) :
  lower_boundary c = Ok lo -> length lo = length (_container c).
Proof.
  unfold lower_boundary.
  destruct (zero_is_lower c) as [mask|e] eqn:Em; [|discriminate].
  cbn [rbind]. intro E.
  assert (Hlen : forall (zb mb : list np.float) (st : list Q),
             length st = length mask ->
             length (fill_nan
                       (np.mask_assign
                          (np.mask_assign (repeat (np.fin 0) (length mask))
                             mask zb)
                          (List.map negb mask) mb) st)
             = length mask).
  { intros zb mb st Hst.
    rewrite fill_nan_length; rewrite !mask_assign_length, repeat_length;
      congruence. }
  apply mapM_length in Em.
  destruct mask as [|m mask]; [discriminate|].
  destruct (zero_boundary c) as [zb|e]; [|discriminate]. cbn [rbind] in E.
  destruct (max_boundary c) as [mb|e]; [|discriminate]. cbn [rbind] in E.
  destruct (starts c) as [st|e] eqn:Es; [|discriminate]. cbn [rbind] in E.
  apply mapM_length in Es.
  injection E as <-. rewrite <- Em.
  exact (Hlen (List.map np.float_of_object zb)
           (List.map np.float_of_object mb) st (eq_trans Es (eq_sym Em))).
Qed.

Lemma upper_boundary_length (c : Container U) (hi : list Q) :
  upper_boundary c = Ok hi -> length hi = length (_container c).
Proof.
  unfold upper_boundary.
  destruct (zero_is_lower c) as [mask|e] eqn:Em; [|discriminate].
  cbn [rbind]. intro E.
  assert (Hlen : forall (zb mb : list np.float) (en : list Q),
             length en = length mask ->
             length (fill_nan
                       (np.mask_assign
                          (np.mask_assign (repeat (np.fin 0) (length mask))
                             (List.map negb mask) zb)
                          mask mb) en)
             = length mask).
  { intros zb mb en Hen.
    rewrite fill_nan_length; rewrite !mask_assign_length, repeat_length;
      congruence. }
  apply mapM_length in Em.
  destruct mask as [|m mask]; [discriminate|].
  destruct (zero_boundary c) as [zb|e]; [|discriminate]. cbn [rbind] in E.
  destruct (max_boundary c) as [mb|e]; [|discriminate]. cbn [rbind] in E.
  destruct (ends c) as [en|e] eqn:Es; [|discriminate]. cbn [rbind] in E.
  apply mapM_length in Es.
  injection E as <-. rewrite <- Em.
  exact (Hlen (List.map np.float_of_object zb)
           (List.map np.float_of_object mb) en (eq_trans Es (eq_sym Em))).
Qed.

(** Entry [j] of a broadcast result combines the entries of the operands
    at [j], an operand with a single entry giving that entry. *)
Lemma broadcast1_nth_error {A B C} (f : A -> B -> C) (a : list A) (b : list B)
    (r : list C) :
  np.broadcast1 f a b = Ok r ->
  (length b <> 1%nat -> length r = length b)
  /\ forall j z,
       nth_error r j = Some z ->
       exists x y,
         nth_error a (if Nat.eqb (length a) 1 then 0%nat else j) = Some x
         /\ nth_error b (if Nat.eqb (length b) 1 then 0%nat else j) = Some y
         /\ z = f x y.
Proof.
  intro Hb. unfold np.broadcast1 in Hb.
  assert (Hzip : length a = length b -> r = np.zip_with f a b ->
                 forall j z, nth_error r j = Some z ->
                   exists x y, nth_error a j = Some x /\ nth_error b j = Some y
                               /\ z = f x y).
  { intros Hl -> j z Hz.
    assert (Hj : (j < length (np.zip_with f a b))%nat)
      by (apply nth_error_Some; congruence).
    rewrite zip_with_length in Hj by exact Hl.
    destruct (nth_error a j) as [x|] eqn:Ex;
      [|apply nth_error_None in Ex; lia].
    destruct (nth_error b j) as [y|] eqn:Ey;
      [|apply nth_error_None in Ey; lia].
    rewrite (zip_with_nth_error f a b j x y Ex Ey) in Hz.
    injection Hz as <-. exists x, y. auto. }
  destruct a as [|x [|x' a]].
  - destruct b as [|y [|y' b]].
    + injection Hb as <-. split; [reflexivity|]. intros [|j] z Hz; discriminate.
    + injection Hb as <-. split; [cbn; congruence|].
      intros [|j] z Hz; discriminate.
    + cbn in Hb. discriminate.
  - injection Hb as <-. split; [intros _; apply length_map|].
    intros j z Hz. rewrite nth_error_map in Hz.
    destruct (nth_error b j) as [y|] eqn:Ey; [|discriminate].
    injection Hz as <-. exists x, y. cbn [length Nat.eqb nth_error].
    split; [reflexivity|]. split; [|reflexivity].
    destruct (Nat.eqb (length b) 1) eqn:E1; [|exact Ey].
    apply Nat.eqb_eq in E1. destruct b as [|y0 [|y1 b]]; try discriminate E1.
    destruct j as [|j]; [exact Ey|]. destruct j; discriminate.
  - destruct b as [|y [|y' b]].
    + cbn in Hb. discriminate.
    + assert (Hr : r = List.map (fun x0 => f x0 y) (x :: x' :: a))
        by (injection Hb as <-; reflexivity).
      clear Hb. rewrite Hr. split; [cbn; congruence|].
      intros j z Hz. rewrite nth_error_map in Hz.
      destruct (nth_error (x :: x' :: a) j) as [x0|] eqn:Ex; [|discriminate].
      injection Hz as <-. exists x0, y. cbn [length Nat.eqb nth_error].
      split; [exact Ex|]. split; reflexivity.
    + destruct (Nat.eqb (length (x :: x' :: a)) (length (y :: y' :: b))) eqn:El;
        [|discriminate].
      apply Nat.eqb_eq in El.
      assert (Hr : r = np.zip_with f (x :: x' :: a) (y :: y' :: b))
        by (injection Hb as <-; reflexivity).
      clear Hb.
      split; [intros _; rewrite Hr; rewrite zip_with_length; assumption|].
      intros j z Hz. cbn [length Nat.eqb].
      exact (Hzip El Hr j z Hz).
Qed.

(** One row clipped from below and then from above lies within the
    boundaries. *)
Lemma clipped_row_within (lo hi row r1 r2 : list Q) :
  length lo = length hi ->
  Forall2 Qle lo hi ->
  np.broadcast1 np.maximum row lo = Ok r1 ->
  np.broadcast1 np.minimum r1 hi = Ok r2 ->
  forall j v, nth_error r2 j = Some v -> within lo hi (boundary_index lo j) v.
Proof.
  intros Hlen Hle E1 E2 j v Hv.
  destruct (broadcast1_nth_error _ _ _ _ E1) as [Hl1 Hn1].
  destruct (broadcast1_nth_error _ _ _ _ E2) as [_ Hn2].
  destruct (Hn2 j v Hv) as (x1 & h & Hx1 & Hh & ->).
  destruct (Hn1 _ x1 Hx1) as (x & l & _ & Hl & ->).
  unfold boundary_index.
  assert (Hidx : (if Nat.eqb (length lo) 1 then 0%nat
                  else if Nat.eqb (length r1) 1 then 0%nat else j)
                 = (if Nat.eqb (length lo) 1 then 0%nat else j)).
  { destruct (Nat.eqb (length lo) 1) eqn:E; [reflexivity|].
    apply Nat.eqb_neq in E. rewrite (Hl1 E).
    apply Nat.eqb_neq in E. rewrite E. reflexivity. }
  rewrite Hidx in Hl. rewrite <- Hlen in Hh.
  exists l, h. split; [exact Hl|]. split; [exact Hh|].
  assert (Hlh : l <= h).
  { clear -Hle Hl Hh. revert Hl Hh.
    generalize (if Nat.eqb (length lo) 1 then 0%nat else j) as k.
    induction Hle as [|l0 h0 lo hi H0 _ IH]; intros [|k] Hl Hh;
      cbn in *; try discriminate.
    - congruence.
    - eapply IH; eassumption. }
  split.
  - destruct (minimum_cases (np.maximum x l) h) as [E|E]; rewrite E.
    + apply maximum_ge_r.
    + exact Hlh.
  - apply minimum_le_r.
Qed.

(** What [_post_mapping] returns is 2-dimensional and lies within the
    control-input boundaries. *)
Lemma post_mapping_within (c : Container U) (x : np.ndarray) (units : bool)
    (q : Quantity U np.ndarray) (lo hi : list Q) :
  lower_boundary c = Ok lo ->
  upper_boundary c = Ok hi ->
  Forall2 Qle lo hi ->
  _post_mapping c x units = Ok q ->
  exists rows,
    q_magnitude q = np.Arr2 rows
    /\ forall row j v,
         In row rows -> nth_error row j = Some v ->
         within lo hi (boundary_index lo j) v.
Proof.
  intros Hlo Hhi Hle Hp. unfold _post_mapping in Hp.
  destruct (if units then label_units c else Ok unit_none) as [u|e];
    [|discriminate].
  cbn [rbind] in Hp. rewrite Hlo, Hhi in Hp. cbn [rbind] in Hp.
  destruct (np.broadcast_rows np.maximum (np.atleast_2d x) lo) as [r1s|e] eqn:E1;
    [|discriminate].
  cbn [rbind] in Hp.
  destruct (np.broadcast_rows np.minimum r1s hi) as [r2s|e] eqn:E2;
    [|discriminate].
  cbn [rbind] in Hp. injection Hp as <-.
  exists r2s. split; [reflexivity|].
  assert (Hlen : length lo = length hi).
  { rewrite (lower_boundary_length _ _ Hlo), (upper_boundary_length _ _ Hhi).
    reflexivity. }
  unfold np.broadcast_rows in E1, E2.
  apply mapM_Forall2 in E1. apply mapM_Forall2 in E2.
  intros row j v Hin Hv.
  apply In_nth_error in Hin. destruct Hin as [i Hi].
  assert (Hr1 : exists r1, nth_error r1s i = Some r1
                           /\ np.broadcast1 np.minimum r1 hi = Ok row).
  { clear -E2 Hi. revert i Hi.
    induction E2 as [|r1 r2 r1s r2s Hb _ IH]; intros [|i] Hi; cbn in *;
      try discriminate.
    - injection Hi as <-. exists r1. auto.
    - apply IH. exact Hi. }
  destruct Hr1 as (r1 & Hi1 & Eb2).
  assert (Hr0 : exists r0, np.broadcast1 np.maximum r0 lo = Ok r1).
  { clear -E1 Hi1. revert i Hi1.
    induction E1 as [|r0 r1' r0s r1s Hb _ IH]; intros [|i] Hi; cbn in *;
      try discriminate.
    - injection Hi as <-. exists r0. exact Hb.
    - eapply IH. exact Hi. }
  destruct Hr0 as (r0 & Eb1).
  exact (clipped_row_within lo hi r0 r1 row Hlen Hle Eb1 Eb2 j v Hv).
Qed.

(** X14. Whatever the fitted mappers return, [map] returns a 2-dimensional
    array whose entries lie within the control-input boundaries of their
    channel. *)
Theorem map_returns_inputs_within_boundaries :
  forall (c c' : Container U) (values : np.ndarray) (units : bool)
         (q : Quantity U np.ndarray) (lo hi : list Q),
    lower_boundary c = Ok lo ->
    upper_boundary c = Ok hi ->
    Forall2 Qle lo hi ->
    map iso inverse values units c = (c', Ok q) ->
    exists rows,
      q_magnitude q = np.Arr2 rows
      /\ forall row j v,
           In row rows -> nth_error row j = Some v ->
           within lo hi (boundary_index lo j) v.
Proof.
  intros c c' values units q lo hi Hlo Hhi Hle Hm.
  unfold map in Hm. unfold bind at 1, get in Hm.
  unfold bind at 1, lift in Hm.
  destruct (_pre_mapping c values) as [v|e]; [|inversion Hm].
  unfold bind at 1 in Hm.
  destruct (Nat.ltb (np.ndim v) 3); [|inversion Hm].
  unfold ret at 1 in Hm. unfold bind at 1 in Hm.
  destruct (_mapper_func iso inverse (np.atleast_2d v) c) as [c1 [x|e]] eqn:Ef;
    [|inversion Hm].
  pose proof (mapper_func_container _ _ _ _ Ef) as Hc1.
  unfold bind at 1 in Hm.
  destruct (if Nat.eqb (np.ndim v) 1
            then (r <- getitem x 0 ;; Ok (np.Arr1 r))%result
            else Ok (np.Arr2 x)) as [x'|e]; [|inversion Hm].
  unfold bind, get in Hm.
  destruct (_post_mapping c1 x' units) as [q'|e] eqn:Ep; inversion Hm; subst.
  assert (Hlo1 : lower_boundary c' = Ok lo).
  { rewrite <- Hlo. unfold lower_boundary, zero_is_lower, zero_boundary,
      max_boundary, starts. rewrite Hc1. reflexivity. }
  assert (Hhi1 : upper_boundary c' = Ok hi).
  { rewrite <- Hhi. unfold upper_boundary, zero_is_lower, zero_boundary,
      max_boundary, ends. rewrite Hc1. reflexivity. }
  exact (post_mapping_within c' x' units q lo hi Hlo1 Hhi1 Hle Ep).
Qed.

End MappedWithinBoundaries.

Section LabelUnits.

Context {U : Type} `{UnitSystem U}.

Import signal MeasuredSpectraContainer.

(** X15. [label_units] returns [u] exactly when the container is not empty and
    the labels of every element are a domain in units [u]. *)
Theorem label_units_is_common_unit :
  forall (c : Container U) (u : U),
    label_units c = Ok u
    <-> (_container c <> []
         /\ Forall (fun ele =>
                      exists d, labels ele = LabelsDomain d /\ dom_units d = u)
              (_container c)).
Proof.
  intros c u. unfold label_units. split.
  - destruct (mapM labels_domain (_container c)) as [ds|e] eqn:Ed;
      [|discriminate].
    cbn [rbind]. apply mapM_Forall2 in Ed.
    destruct ds as [|d0 ds]; cbn [List.map]; [discriminate|].
    destruct (forallb (unit_eqb (dom_units d0)) (List.map dom_units ds)) eqn:Ea;
      [|discriminate].
    intro E. injection E as <-.
    split; [inversion Ed; discriminate|].
    assert (Hall : Forall (fun d => dom_units d = dom_units d0) (d0 :: ds)).
    { constructor; [reflexivity|].
      apply Forall_forall. intros d Hd.
      rewrite forallb_forall in Ea.
      symmetry. apply unit_eqb_eq. apply Ea. apply in_map. exact Hd. }
    revert Hall. generalize (dom_units d0) as u.
    induction Ed as [|ele d eles ds' Hd _ IH]; intros u Hall; constructor.
    + inversion Hall; subst. exists d. split; [|reflexivity].
      unfold labels_domain in Hd. destruct (labels ele); try discriminate.
      injection Hd as ->. reflexivity.
    + apply IH. inversion Hall; assumption.
  - intros [Hne Hall].
    assert (Hd : exists ds,
               mapM labels_domain (_container c) = Ok ds
               /\ Forall (fun d => dom_units d = u) ds
               /\ length ds = length (_container c)).
    { clear Hne. induction Hall as [|ele eles (d & Hl & Hu) _ IH].
      - exists []. repeat split; constructor.
      - destruct IH as (ds & Eds & Hds & Hlen).
        exists (d :: ds). cbn [mapM]. unfold labels_domain at 1.
        rewrite Hl, Eds. split; [reflexivity|].
        split; [constructor; assumption | cbn; congruence]. }
    destruct Hd as (ds & Eds & Hds & Hlen). rewrite Eds. cbn [rbind].
    destruct ds as [|d0 ds].
    + destruct (_container c); [congruence | discriminate].
    + cbn [List.map]. inversion Hds as [|? ? Hu0 Hds']; subst.
      assert (Ea : forallb (unit_eqb (dom_units d0)) (List.map dom_units ds)
                   = true).
      { apply forallb_forall. intros v Hv.
        apply in_map_iff in Hv. destruct Hv as (d & <- & Hd).
        rewrite Forall_forall in Hds'. rewrite (Hds' d Hd).
        apply unit_eqb_eq. reflexivity. }
      rewrite Ea. reflexivity.
Qed.

End LabelUnits.

Section IntensityBounds.

Context {U : Type} `{UnitSystem U}.

Import signal MeasuredSpectraContainer.

Variable iso : Q -> Q -> bool -> list Q -> list Q -> result (list Q).
Variable inverse : list Q -> list Q -> Q * Q -> list Q -> result (list Q).

(** A traversal fails when the function fails on one of the items. *)
Lemma mapM_raises {A B} (f : A -> result B) (l : list A) (a : A) :
  In a l -> is_ok (f a) = false -> is_ok (mapM f l) = false.
Proof.
  intros Hin Ha. induction l as [|a0 l IH]; [contradiction|].
  cbn [mapM]. destruct (f a0) as [b0|e] eqn:E0; [|reflexivity].
  destruct Hin as [->|Hin]; [rewrite E0 in Ha; discriminate|].
  specialize (IH Hin). destruct (mapM f l); [discriminate | reflexivity].
Qed.

(** [bounds] cannot be computed when an element has no zero boundary:
    the array of zero boundaries then holds [None], which [np.isnan]
    rejects. *)
Lemma bounds_needs_zero_boundaries (c : Container U) (ele : Signal U) :
  In ele (_container c) ->
  MeasuredSpectrum.zero_boundary ele = Ok None ->
  is_ok (bounds c) = false.
Proof.
  intros Hin Hz. unfold bounds.
  destruct (intensities_list c) as [signals|e]; [|reflexivity].
  cbn [rbind].
  destruct (mapM _ signals) as [extremes|e]; [|reflexivity]. cbn [rbind].
  destruct (zero_boundary c) as [zb|e] eqn:Ezb; [|reflexivity]. cbn [rbind].
  assert (Hnone : In None zb).
  { unfold zero_boundary in Ezb.
    apply In_nth_error in Hin. destruct Hin as [i Hi].
    destruct (mapM_nth_error _ _ _ Ezb i ele Hi) as (b & Hb & Eb).
    rewrite Hz in Eb. injection Eb as <-.
    eapply nth_error_In. exact Hb. }
  assert (Hnan : is_ok (isnan_array zb) = false).
  { unfold isnan_array. eapply mapM_raises; [exact Hnone | reflexivity]. }
  destruct (isnan_array zb); [discriminate | reflexivity].
Qed.

(** X16. A container with an element that has no zero boundary cannot map
    any value: [map] raises before a mapper is fitted, and the elements
    and the mapper cache of the container are as before. *)
Theorem map_needs_every_zero_boundary :
  forall (c : Container U) (ele : Signal U) (values : np.ndarray)
         (units : bool),
    In ele (_container c) ->
    MeasuredSpectrum.zero_boundary ele = Ok None ->
    exists e, map iso inverse values units c = (c, Raise e).
Proof.
  intros c ele values units Hin Hz.
  pose proof (bounds_needs_zero_boundaries c ele Hin Hz) as Hb.
  unfold map, bind, get, lift, _pre_mapping.
  destruct (bounds c) as [b|e]; [discriminate|].
  exists e. reflexivity.
Qed.

(** *** Order of the intensity bounds *)

Lemma mask_assign_Forall2 {A B} (R : A -> B -> Prop) :
  forall (dst : list A) (mask : list bool) (src : list A) (hs : list B),
    Forall2 R dst hs -> Forall2 R src hs ->
    Forall2 R (np.mask_assign dst mask src) hs.
Proof.
  induction dst as [|d dst IH]; intros mask src hs Hd Hs.
  - inversion Hd; subst. constructor.
  - destruct mask as [|m mask]; [exact Hd|].
    destruct src as [|v src]; [exact Hd|].
    inversion Hd; subst. inversion Hs; subst.
    cbn [np.mask_assign]. constructor.
    + destruct m; assumption.
    + apply IH; assumption.
Qed.

(** The intensities of an element without negative values over ascending
    wavelengths are not negative. *)
Lemma intensities_nonneg (c : Container U) (signals : list (list Q * list Q)) :
  Forall (fun ele =>
            ascending (dom_magnitude (domain ele))
            /\ Forall (fun v => 0 <= v) (np.flatten (magnitude ele)))
    (_container c) ->
  intensities_list c = Ok signals ->
  Forall (fun xy => Forall (fun v => 0 <= v) (snd xy)) signals.
Proof.
  intros Hc Hs. unfold intensities_list in Hs. apply mapM_Forall2 in Hs.
  revert Hc. induction Hs as [|ele xy eles signals Hxy _ IH]; intro Hc;
    constructor.
  - inversion Hc as [|? ? [Ha Hnn] _]; subst.
    destruct (integral ele) as [i|e] eqn:Ei; [|discriminate].
    cbn [rbind] in Hxy.
    destruct (labels_domain ele) as [d|e]; [|discriminate].
    cbn [rbind] in Hxy. injection Hxy as <-. cbn [snd].
    exact (integral_nonneg ele i Ha Hnn Ei).
  - apply IH. inversion Hc; assumption.
Qed.

(** X17. For spectra without negative values over ascending wavelengths the
    intensity bounds of every channel are ordered and not negative:
    [0 <= lower <= upper]. *)
Theorem intensity_bounds_are_ordered :
  forall (c : Container U) (lo hi : list Q),
    Forall (fun ele =>
              ascending (dom_magnitude (domain ele))
              /\ Forall (fun v => 0 <= v) (np.flatten (magnitude ele)))
      (_container c) ->
    bounds c = Ok (lo, hi) ->
    Forall2 (fun l h => 0 <= l /\ l <= h) lo hi.
Proof.
  intros c lo hi Hc Hb. unfold bounds in Hb.
  destruct (intensities_list c) as [signals|e] eqn:Es; [|discriminate].
  cbn [rbind] in Hb.
  pose proof (intensities_nonneg c signals Hc Es) as Hnn.
  destruct (mapM _ signals) as [extremes|e] eqn:Ee; [|discriminate].
  cbn [rbind] in Hb.
  destruct (zero_boundary c) as [zb|e]; [|discriminate]. cbn [rbind] in Hb.
  destruct (isnan_array zb) as [nans|e]; [|discriminate]. cbn [rbind] in Hb.
  assert (Hex : Forall (fun e => 0 <= fst e /\ fst e <= snd e) extremes).
  { apply mapM_Forall2 in Ee. clear -Ee Hnn. revert Hnn.
    induction Ee as [|xy e signals extremes He _ IH]; intro Hnn; constructor.
    - inversion Hnn as [|? ? Hxy _]; subst.
      destruct (np.min (np.Arr1 (snd xy))) as [l|?] eqn:El; [|discriminate].
      destruct (np.max (np.Arr1 (snd xy))) as [h|?] eqn:Eh; [|discriminate].
      cbn [rbind] in He. injection He as <-. cbn [fst snd].
      destruct (np_min_spec _ _ El) as [Hin Hle].
      destruct (np_max_spec _ _ Eh) as [_ Hge].
      cbn [np.flatten] in *. rewrite Forall_forall in Hxy.
      split; [apply Hxy; exact Hin | apply Hge; exact Hin].
    - apply IH. inversion Hnn; assumption. }
  assert (H1 : Forall2 (fun l h => 0 <= l /\ l <= h)
                 (List.map fst extremes) (List.map snd extremes)).
  { clear -Hex. induction Hex as [|e extremes He _ IH]; cbn; constructor;
      assumption. }
  assert (H0 : Forall2 (fun l h => 0 <= l /\ l <= h)
                 (List.map (fun _ => 0) extremes) (List.map snd extremes)).
  { clear -Hex. induction Hex as [|e extremes [He0 He1] _ IH]; cbn;
      constructor; [|assumption].
    split; [apply Qle_refl | eapply Qle_trans; eassumption]. }
  assert (Hgoal : forall mask : list bool,
             Forall2 (fun l h => 0 <= l /\ l <= h)
               (np.mask_assign (List.map fst extremes) mask
                  (List.map (fun _ => 0) extremes))
               (List.map snd extremes))
    by (intro mask; apply mask_assign_Forall2; assumption).
  destruct extremes as [|e0 extremes]; [discriminate|].
  injection Hb as <- <-.
  exact (Hgoal (List.map negb nans)).
Qed.

(** *** The cache of fitted mappers *)

(** With mappers in the cache, [_mapper_func] does not fit. *)
Lemma mapper_func_cached (x : list (list Q)) (c : Container U)
    (ms : list mapper_t)
    (iso' : Q -> Q -> bool -> list Q -> list Q -> result (list Q))
    (inverse' : list Q -> list Q -> Q * Q -> list Q -> result (list Q)) :
  _mapper c = Some ms ->
  _mapper_func iso' inverse' x c = _mapper_func iso inverse x c.
Proof.
  intro Hm. unfold _mapper_func, bind, get. rewrite Hm. reflexivity.
Qed.

(** [_mapper_func] returns only with mappers in the cache, one per
    element when it fitted them. *)
Lemma mapper_func_fills_cache (x : list (list Q)) (c c' : Container U)
    (y : list (list Q)) :
  _mapper_func iso inverse x c = (c', Ok y) ->
  exists ms,
    _mapper c' = Some ms
    /\ (_mapper c = None -> length ms = length (_container c)).
Proof.
  unfold _mapper_func. unfold bind at 1, get. unfold bind at 1.
  destruct (_mapper c) as [ms|] eqn:Em.
  - unfold ret at 1. unfold bind at 1.
    destruct (for_each _ _ c) as [c1 [outs|e]] eqn:E1; intro E;
      [|inversion E].
    destruct (for_each_apply_mapper_frame _ _ _ _ _ E1) as [_ Hm1].
    unfold ret in E. inversion E; subst.
    exists ms. split; [congruence | discriminate].
  - unfold bind at 1, lift.
    destruct (mapM _ _) as [mappers|e] eqn:Emap; [|intro E; inversion E].
    unfold modify. unfold bind at 1.
    destruct (for_each _ _ _) as [c1 [outs|e]] eqn:E1; intro E;
      [|inversion E].
    destruct (for_each_apply_mapper_frame _ _ _ _ _ E1) as [_ Hm1].
    unfold ret in E. inversion E; subst.
    exists mappers. split; [exact Hm1|]. intros _.
    apply mapM_length in Emap. rewrite enumerate_length in Emap. exact Emap.
Qed.

(** X18. After [map] has returned the mappers are in the cache, one per
    element when this call fitted them, and later calls of [map] use them:
    their outcome does not depend on the regression or on the
    interpolation any more. *)
Theorem map_fits_once :
  forall (c c' : Container U) (values : np.ndarray) (units : bool)
         (q : Quantity U np.ndarray),
    map iso inverse values units c = (c', Ok q) ->
    (exists ms,
       _mapper c' = Some ms
       /\ (_mapper c = None -> length ms = length (_container c)))
    /\ forall iso' inverse' values' units',
         map iso' inverse' values' units' c'
         = map iso inverse values' units' c'.
Proof.
  intros c c' values units q Hm.
  assert (Hcache : exists ms,
             _mapper c' = Some ms
             /\ (_mapper c = None -> length ms = length (_container c))).
  { unfold map in Hm. unfold bind at 1, get in Hm.
    unfold bind at 1, lift in Hm.
    destruct (_pre_mapping c values) as [v|e]; [|inversion Hm].
    unfold bind at 1 in Hm.
    destruct (Nat.ltb (np.ndim v) 3); [|inversion Hm].
    unfold ret at 1 in Hm. unfold bind at 1 in Hm.
    destruct (_mapper_func iso inverse (np.atleast_2d v) c) as [c1 [x|e]] eqn:Ef;
      [|inversion Hm].
    destruct (mapper_func_fills_cache _ _ _ _ Ef) as (ms & Hms & Hlen).
    unfold bind at 1 in Hm.
    destruct (if Nat.eqb (np.ndim v) 1
              then (r <- getitem x 0 ;; Ok (np.Arr1 r))%result
              else Ok (np.Arr2 x)) as [x'|e]; [|inversion Hm].
    unfold bind, get in Hm.
    destruct (_post_mapping c1 x' units) as [q'|e]; inversion Hm; subst.
    exists ms. split; assumption. }
  split; [exact Hcache|].
  destruct Hcache as (ms & Hms & _).
  intros iso' inverse' values' units'.
  unfold map, bind, get, lift.
  destruct (_pre_mapping c' values') as [v|e]; [|reflexivity].
  destruct (Nat.ltb (np.ndim v) 3); [|reflexivity].
  unfold ret.
  rewrite (mapper_func_cached (np.atleast_2d v) c' ms iso' inverse' Hms).
  reflexivity.
Qed.

End IntensityBounds.

(** ** The constructor of a measured spectrum *)

Lemma attrs_get_set (k : string) (v : signal.attrval) :
  forall d, signal.attrs_get k (signal.attrs_set k v d) = Some v.
Proof.
  induction d as [|[k' v'] d IH]; simpl.
  - rewrite String.eqb_refl. reflexivity.
  - destruct (String.eqb k k') eqn:E; simpl.
    + rewrite String.eqb_refl. reflexivity.
    + rewrite E. exact IH.
Qed.

Lemma attrs_get_set_other (k k' : string) (v : signal.attrval) :
  k <> k' ->
  forall d, signal.attrs_get k (signal.attrs_set k' v d) = signal.attrs_get k d.
Proof.
  intros Hk. induction d as [|[k0 v0] d IH]; simpl.
  - destruct (String.eqb k k') eqn:E; [|reflexivity].
    apply String.eqb_eq in E. contradiction.
  - destruct (String.eqb k' k0) eqn:E0; simpl.
    + apply String.eqb_eq in E0. subst k0.
      destruct (String.eqb k k') eqn:E; [|reflexivity].
      apply String.eqb_eq in E. contradiction.
    + destruct (String.eqb k k0); [reflexivity | exact IH].
Qed.

Section Constructor.

Context {U : Type} `{UnitSystem U}.

Import scipy signal MeasuredSpectrum.

(** The part of a signal that the label handling of the constructor does
    not touch. *)
Lemma labels_into_domain_frame (lu : option U) (s s' : Signal U) :
  labels_into_domain lu s = (s', Ok tt) ->
  (exists d, s' = set_labels (LabelsDomain d) s).
Proof.
  unfold labels_into_domain. unfold bind at 1, get.
  unfold bind at 1, lift.
  destruct (label_numbers (labels s)) as [numbers|e]; [|discriminate].
  unfold bind at 1.
  destruct (domain_class _ _) as [d|e]; [|discriminate].
  unfold bind at 1, modify.
  destruct (negb (consecutive (np.argsort numbers))).
  - unfold bind at 1, get. unfold bind at 1, lift.
    destruct (other_axis _) as [ax|]; [|discriminate].
    unfold bind at 1. cbn [np.take_along_axis]. discriminate.
  - unfold ret. intro E. inversion E; subst. exists d. reflexivity.
Qed.

Lemma set_labels_same (s : Signal U) : set_labels (labels s) s = s.
Proof. destruct s; reflexivity. Qed.

(** The label handling of the constructor, when it succeeds, replaces the
    labels by a domain and changes nothing else. *)
Lemma init_labels_phase (lu : option U) (s s1 : Signal U) :
  (if negb (is_domain (labels s))
   then try_except (labels_into_domain lu)
          (fun _ => raise (DreyeError
             "Labels must be domain or be able to be made into domain."))
   else match labels s, lu with
        | LabelsDomain d, Some u =>
            (d' <- lift (dom_to d u) ;; modify (set_labels (LabelsDomain d')))%method
        | _, _ => ret tt
        end) s = (s1, Ok tt) ->
  exists d, s1 = set_labels (LabelsDomain d) s.
Proof.
  destruct (labels s) as [|l|d] eqn:El; cbn [is_domain negb].
  - unfold try_except.
    destruct (labels_into_domain lu s) as [s2 [[]|e]] eqn:E2.
    + intro E. inversion E; subst. eapply labels_into_domain_frame. exact E2.
    + discriminate.
  - unfold try_except.
    destruct (labels_into_domain lu s) as [s2 [[]|e]] eqn:E2.
    + intro E. inversion E; subst. eapply labels_into_domain_frame. exact E2.
    + discriminate.
  - destruct lu as [u|].
    + unfold bind, lift, modify. destruct (dom_to d u) as [d'|e]; [|discriminate].
      intro E. inversion E; subst. exists d'. reflexivity.
    + unfold ret. intro E. inversion E; subst. exists d.
      rewrite <- El. symmetry. apply set_labels_same.
Qed.


Lemma setitem_view (d : Domain U) (s st : Signal U) (a : attrs_dict)
    (k : string) (v : attrval) :
  attrs_view d s st a ->
  exists st',
    attrs_setitem k v st = (st', Ok tt)
    /\ st' = set_attrs (Some (attrs_set k v a)) (set_labels (LabelsDomain d) s)
    /\ attrs_view d s st' (attrs_set k v a).
Proof.
  intros (Ha & Hl & Hs).
  exists (set_attrs (Some (attrs_set k v a)) st).
  split; [unfold attrs_setitem, modify; rewrite Ha; reflexivity|].
  split; [apply Hs|].
  split; [reflexivity|]. split; [exact Hl|].
  intro a'. rewrite <- (Hs a'). reflexivity.
Qed.

Lemma opt_setitem_view {X} (d : Domain U) (s st : Signal U) (a : attrs_dict)
    (k : string) (f : X -> attrval) (o : option X) :
  attrs_view d s st a ->
  exists st',
    (match o with
     | Some v => attrs_setitem k (f v)
     | None => ret tt
     end) st = (st', Ok tt)
    /\ attrs_view d s st'
         (match o with Some v => attrs_set k (f v) a | None => a end).
Proof.
  intro Hv. destruct o as [v|].
  - destruct (setitem_view d s st a k (f v) Hv) as (st' & E & _ & Hv').
    exists st'. split; assumption.
  - exists st. split; [reflexivity | exact Hv].
Qed.

Lemma view_get_or_none (d : Domain U) (s st : Signal U) (a : attrs_dict)
    (k : string) :
  attrs_view d s st a ->
  attrs_get_or_none st k
  = match attrs_get k a with Some v => v | None => ANone end.
Proof. intros (Ha & _). unfold attrs_get_or_none. rewrite Ha. reflexivity. Qed.

Ltac attrs_simpl :=
  repeat (rewrite attrs_get_set
          || (rewrite attrs_get_set_other by (intro; discriminate))).

(** The state the constructor leaves when it returns. *)
Lemma init_returns (zb mb : option np.float) (zil : option bool)
    (lu : option U) (s s' : Signal U) :
  __init__ zb mb zil lu s = (s', Ok tt) ->
  ndim s = 2%nat
  /\ name s <> None
  /\ exists d a,
       s' = set_attrs (Some a) (set_labels (LabelsDomain d) s)
       /\ (exists z, attrs_get "_zero_boundary" a = Some z)
       /\ (exists m, attrs_get "_max_boundary" a = Some m)
       /\ (exists v, attrs_get "_zero_is_lower" a = Some v /\ v <> ANone)
       /\ (forall v, zb = Some v ->
             attrs_get "_zero_boundary" a = Some (AFloat v))
       /\ (forall v, mb = Some v ->
             attrs_get "_max_boundary" a = Some (AFloat v))
       /\ (zb = None ->
           attrs_get "_zero_boundary" a
           = Some (attrs_get_or_none s "_zero_boundary"))
       /\ (mb = None ->
           attrs_get "_max_boundary" a
           = Some (attrs_get_or_none s "_max_boundary"))
       /\ (forall b, zil = Some b ->
             attrs_get "_zero_is_lower" a = Some (ABool b))
       /\ (zil = None ->
           attrs_get_or_none s "_zero_is_lower" = ANone ->
           exists z m,
             attrs_get "_zero_boundary" a = Some (AFloat z)
             /\ attrs_get "_max_boundary" a = Some (AFloat m)
             /\ attrs_get "_zero_is_lower" a = Some (ABool (float_lt z m))).
Proof.
  intro E. unfold __init__ in E.
  unfold bind at 1, get in E. unfold bind at 1 in E.
  destruct (Nat.eqb (ndim s) 2) eqn:End; cbn [negb] in E;
    [|inversion E].
  apply Nat.eqb_eq in End.
  unfold ret at 1 in E. unfold bind at 1 in E.
  match type of E with
  | context [let (_, _) := ?phase s in _] =>
      destruct (phase s) as [s1 [[]|e]] eqn:Ep; [|inversion E]
  end.
  destruct (init_labels_phase lu s s1 Ep) as [d Hs1].
  unfold bind at 1, get in E. unfold bind at 1 in E.
  assert (Hname : name s1 = name s) by (rewrite Hs1; reflexivity).
  rewrite Hname in E.
  destruct (name s) as [nm|] eqn:En; [|inversion E].
  unfold ret at 1 in E.
  split; [exact End|]. split; [discriminate|].
  exists d.
  assert (V1 : attrs_view d s s1 (attrs s)).
  { rewrite Hs1. split; [reflexivity|]. split; reflexivity. }
  clear Ep Hs1 Hname.
  (* the three optional entries *)
  unfold bind at 1 in E.
  destruct (opt_setitem_view d s s1 _ "_zero_boundary" AFloat zb V1)
    as (s2 & E2 & V2).
  rewrite E2 in E. clear E2.
  unfold bind at 1 in E.
  destruct (opt_setitem_view d s s2 _ "_max_boundary" AFloat mb V2)
    as (s3 & E3 & V3).
  rewrite E3 in E. clear E3.
  unfold bind at 1 in E.
  destruct (opt_setitem_view d s s3 _ "_zero_is_lower" ABool zil V3)
    as (s4 & E4 & V4).
  rewrite E4 in E. clear E4.
  set (a4 := match zil with
             | Some v => attrs_set "_zero_is_lower" (ABool v) _
             | None => _
             end) in V4.
  (* conversion of the boundaries *)
  unfold bind at 1, get in E. unfold bind at 1, lift in E.
  rewrite (proj1 (proj2 V4)) in E.
  unfold bind at 1 in E. unfold _convert_get_val_opt in E.
  destruct (setitem_view d s s4 a4 "_zero_boundary"
              (attrs_get_or_none s4 "_zero_boundary") V4)
    as (s5 & E5 & _ & V5).
  rewrite E5 in E. clear E5.
  unfold bind at 1, get in E. unfold bind at 1 in E.
  destruct (setitem_view d s s5 _ "_max_boundary"
              (attrs_get_or_none s5 "_max_boundary") V5)
    as (s6 & E6 & Hs6 & V6).
  rewrite E6 in E. clear E6.
  unfold bind at 1, get in E. unfold bind at 1 in E.
  rewrite !(view_get_or_none d s s6 _ _ V6) in E.
  rewrite (view_get_or_none d s s5 _ _ V5) in E, Hs6, V6.
  rewrite (view_get_or_none d s s4 _ _ V4) in E, Hs6, V6.
  rewrite !(attrs_get_set_other "_max_boundary" "_zero_boundary") in E, Hs6, V6
    by (intro; discriminate).
  rewrite !(attrs_get_set_other "_zero_is_lower" "_max_boundary") in E
    by (intro; discriminate).
  rewrite !(attrs_get_set_other "_zero_is_lower" "_zero_boundary") in E
    by (intro; discriminate).
  rewrite !(attrs_get_set_other "_zero_boundary" "_max_boundary") in E
    by (intro; discriminate).
  rewrite !attrs_get_set in E.
  remember (match attrs_get "_zero_boundary" a4 with
            | Some v => v | None => ANone end) as zbv eqn:Hzbv.
  remember (match attrs_get "_max_boundary" a4 with
            | Some v => v | None => ANone end) as mbv eqn:Hmbv.
  remember (match attrs_get "_zero_is_lower" a4 with
            | Some v => v | None => ANone end) as flag eqn:Hfl.
  clear V1 V2 V3 V4 V5.
  assert (F1 : forall v, zb = Some v -> zbv = AFloat v).
  { intros v ->. subst zbv a4. destruct mb, zil; attrs_simpl; reflexivity. }
  assert (F2 : forall v, mb = Some v -> mbv = AFloat v).
  { intros v ->. subst mbv a4. destruct zil; attrs_simpl; reflexivity. }
  assert (F5 : zb = None -> zbv = attrs_get_or_none s "_zero_boundary").
  { intros ->. subst zbv a4. unfold attrs_get_or_none.
    destruct mb, zil; attrs_simpl; reflexivity. }
  assert (F6 : mb = None -> mbv = attrs_get_or_none s "_max_boundary").
  { intros ->. subst mbv a4. unfold attrs_get_or_none.
    destruct zb, zil; attrs_simpl; reflexivity. }
  assert (F3 : forall b, zil = Some b -> flag = ABool b).
  { intros b ->. subst flag a4. attrs_simpl. reflexivity. }
  assert (F4 : zil = None -> flag = attrs_get_or_none s "_zero_is_lower").
  { intros ->. subst flag a4. unfold attrs_get_or_none.
    destruct zb, mb; attrs_simpl; reflexivity. }
  assert (G1 : attrs_get "_zero_boundary"
                 (attrs_set "_max_boundary" mbv
                    (attrs_set "_zero_boundary" zbv a4)) = Some zbv)
    by (attrs_simpl; reflexivity).
  assert (G2 : attrs_get "_max_boundary"
                 (attrs_set "_max_boundary" mbv
                    (attrs_set "_zero_boundary" zbv a4)) = Some mbv)
    by (attrs_simpl; reflexivity).
  assert (G3 : attrs_get "_zero_is_lower"
                 (attrs_set "_max_boundary" mbv
                    (attrs_set "_zero_boundary" zbv a4))
               = attrs_get "_zero_is_lower" a4)
    by (attrs_simpl; reflexivity).
  remember (attrs_set "_max_boundary" mbv (attrs_set "_zero_boundary" zbv a4))
    as a6 eqn:Ha6.
  clear Ha6 Hzbv Hmbv. clearbody a4.
  destruct (is_none flag) eqn:Efl; cbn [andb] in E.
  - (* the flag is derived from the boundaries *)
    destruct (is_none mbv || is_none zbv) eqn:Eb; [inversion E|].
    unfold ret at 1 in E.
    destruct zbv as [|z|]; try (inversion E; fail).
    destruct mbv as [|m|]; try (inversion E; fail).
    destruct (setitem_view d s s6 a6 "_zero_is_lower"
                (ABool (float_lt z m)) V6) as (s7 & E7 & Hs7 & _).
    rewrite E7 in E. injection E as E'. subst s'. clear E7.
    exists (attrs_set "_zero_is_lower" (ABool (float_lt z m)) a6).
    split; [exact Hs7|].
    split; [exists (AFloat z); attrs_simpl; exact G1|].
    split; [exists (AFloat m); attrs_simpl; exact G2|].
    split; [exists (ABool (float_lt z m)); attrs_simpl;
            split; [reflexivity | discriminate]|].
    split; [intros v Hv; attrs_simpl; rewrite G1, (F1 v Hv); reflexivity|].
    split; [intros v Hv; attrs_simpl; rewrite G2, (F2 v Hv); reflexivity|].
    split; [intros Hv; attrs_simpl; rewrite G1, (F5 Hv); reflexivity|].
    split; [intros Hv; attrs_simpl; rewrite G2, (F6 Hv); reflexivity|].
    split.
    + intros b Hb. rewrite (F3 b Hb) in Efl. discriminate.
    + intros _ _. exists z, m. attrs_simpl.
      split; [exact G1|]. split; [exact G2 | reflexivity].
  - (* the flag was given or stored *)
    unfold ret in E. injection E as E'. subst s'.
    exists a6. split; [exact Hs6|].
    split; [exists zbv; exact G1|].
    split; [exists mbv; exact G2|].
    assert (Hflag : attrs_get "_zero_is_lower" a4 = Some flag /\ flag <> ANone).
    { destruct (attrs_get "_zero_is_lower" a4) as [v|]; subst flag;
        [|discriminate].
      split; [reflexivity|]. intros ->. discriminate. }
    destruct Hflag as [Hget Hne].
    split; [exists flag; rewrite G3; split; assumption|].
    split; [intros v Hv; rewrite G1, (F1 v Hv); reflexivity|].
    split; [intros v Hv; rewrite G2, (F2 v Hv); reflexivity|].
    split; [intros Hv; rewrite G1, (F5 Hv); reflexivity|].
    split; [intros Hv; rewrite G2, (F6 Hv); reflexivity|].
    split.
    + intros b Hb. rewrite G3, Hget, (F3 b Hb). reflexivity.
    + intros Hz Hs. rewrite (F4 Hz), Hs in Efl. discriminate.
Qed.

(** X19. When the constructor of [MeasuredSpectrum] returns, the instance is
    2-dimensional and named, its labels are a domain, [attrs] holds both
    boundaries and a polarity flag that is not [None], and the values, the
    domain and the units are those [super().__init__] left. *)
Theorem constructor_establishes_attributes :
  forall (zb mb : option np.float) (zil : option bool) (lu : option U)
         (s s' : Signal U),
    __init__ zb mb zil lu s = (s', Ok tt) ->
    ndim s' = 2%nat
    /\ name s' <> None
    /\ (exists d, labels s' = LabelsDomain d)
    /\ (exists v, attrs_get "_zero_is_lower" (attrs s') = Some v /\ v <> ANone)
    /\ (exists z, attrs_get "_zero_boundary" (attrs s') = Some z)
    /\ (exists m, attrs_get "_max_boundary" (attrs s') = Some m)
    /\ _values s' = _values s /\ _domain s' = _domain s /\ _units s' = _units s.
Proof.
  intros zb mb zil lu s s' E.
  destruct (init_returns _ _ _ _ _ _ E)
    as (Hnd & Hname & d & a & -> & Hz & Hm & Hf & _).
  split; [exact Hnd|]. split; [exact Hname|].
  split; [exists d; reflexivity|].
  split; [exact Hf|]. split; [exact Hz|]. split; [exact Hm|].
  repeat split.
Qed.

(** X20. The polarity the constructor stores when both boundaries are given:
    the flag [zero_is_lower] if it is given, otherwise, for an instance
    whose [attrs] hold no flag yet, whether the zero boundary is below the
    max boundary. *)
Theorem constructor_polarity :
  forall (z m : np.float) (zil : option bool) (lu : option U)
         (s s' : Signal U),
    __init__ (Some z) (Some m) zil lu s = (s', Ok tt) ->
    (zil = None -> attrs_get_or_none s "_zero_is_lower" = ANone) ->
    zero_is_lower s'
    = Ok (match zil with Some b => b | None => float_lt z m end)
    /\ zero_boundary s' = Ok (Some z)
    /\ max_boundary s' = Ok (Some m).
Proof.
  intros z m zil lu s s' E Hfresh.
  destruct (init_returns _ _ _ _ _ _ E)
    as (_ & _ & d & a & -> & _ & _ & _ & Hz & Hm & _ & _ & Hgiven & Hderived).
  specialize (Hz z eq_refl). specialize (Hm m eq_refl).
  unfold zero_is_lower, zero_boundary, max_boundary, boundary_attr.
  cbn [attrs set_attrs _attrs].
  rewrite Hz, Hm. split; [|split; reflexivity].
  destruct zil as [b|].
  - rewrite (Hgiven b eq_refl). reflexivity.
  - destruct (Hderived eq_refl (Hfresh eq_refl)) as (z' & m' & Hz' & Hm' & ->).
    rewrite Hz in Hz'. rewrite Hm in Hm'.
    injection Hz' as <-. injection Hm' as <-. reflexivity.
Qed.

(** X21. Without a polarity flag the constructor needs both boundaries: for an
    instance whose [attrs] hold neither a flag nor the missing boundary
    it never returns. *)
Theorem constructor_needs_flag_or_boundaries :
  forall (zb mb : option np.float) (lu : option U) (s : Signal U),
    attrs_get_or_none s "_zero_is_lower" = ANone ->
    (zb = None /\ attrs_get_or_none s "_zero_boundary" = ANone)
    \/ (mb = None /\ attrs_get_or_none s "_max_boundary" = ANone) ->
    is_ok (snd (__init__ zb mb None lu s)) = false.
Proof.
  intros zb mb lu s Hflag Hmissing.
  destruct (__init__ zb mb None lu s) as [s' [[]|e]] eqn:E; [|reflexivity].
  exfalso.
  destruct (init_returns _ _ _ _ _ _ E)
    as (_ & _ & d & a & _ & _ & _ & _ & _ & _ & Hz & Hm & _ & Hderived).
  destruct (Hderived eq_refl Hflag) as (z' & m' & Hz' & Hm' & _).
  destruct Hmissing as [[-> Hs]|[-> Hs]].
  - rewrite (Hz eq_refl), Hs in Hz'. discriminate.
  - rewrite (Hm eq_refl), Hs in Hm'. discriminate.
Qed.

End Constructor.

(** ** Containers *)

Section ContainerProperties.

Import _AbstractContainer.

Context {Obj Attr : Type} `{Subclass Obj}.

Lemma getattr_setattr (key : string) (v : option Attr) :
  forall d, getattr key (setattr key v d) = Some v.
Proof.
  induction d as [|[k v'] d IH]; simpl.
  - rewrite String.eqb_refl. reflexivity.
  - destruct (String.eqb key k) eqn:E; simpl.
    + rewrite String.eqb_refl. reflexivity.
    + rewrite E. exact IH.
Qed.

Lemma getattr_setattr_other (key key' : string) (v : option Attr) :
  key <> key' ->
  forall d, getattr key (setattr key' v d) = getattr key d.
Proof.
  intros Hk. induction d as [|[k0 v0] d IH]; simpl.
  - destruct (String.eqb key key') eqn:E; [|reflexivity].
    apply String.eqb_eq in E. contradiction.
  - destruct (String.eqb key' k0) eqn:E0; simpl.
    + apply String.eqb_eq in E0. subst k0.
      destruct (String.eqb key key') eqn:E; [|reflexivity].
      apply String.eqb_eq in E. contradiction.
    + destruct (String.eqb key k0); [reflexivity | exact IH].
Qed.

(** Setting every key of a list to [None] leaves each of them [None]. *)
Lemma reset_keys (keys : list string) :
  forall (d : list (string * option Attr)) key,
    In key keys \/ getattr key d = Some None ->
    getattr key (fold_left (fun d k => setattr k None d) keys d)
    = Some None.
Proof.
  induction keys as [|k keys IH]; intros d key Hk; cbn [fold_left].
  - destruct Hk as [[]|Hk]. exact Hk.
  - apply IH. destruct (String.eqb key k) eqn:E.
    + apply String.eqb_eq in E. subst k. right. apply getattr_setattr.
    + apply String.eqb_neq in E.
      destruct Hk as [[->|Hk]|Hk]; [congruence | left; exact Hk |].
      right. rewrite getattr_setattr_other by exact E. exact Hk.
Qed.

(** [_init_attrs] returns, keeps the elements and empties the caches. *)
Lemma init_attrs_resets (c : Container Obj Attr) :
  exists c',
    _init_attrs c = (c', Ok tt)
    /\ _container c' = _container c
    /\ caches_empty c'.
Proof.
  eexists. split; [reflexivity|]. split; [reflexivity|].
  intros key Hk. cbn. apply reset_keys. left. exact Hk.
Qed.

Lemma check_list_instances (arg : container_arg Obj) (items : list Obj) :
  _check_list arg = Ok items ->
  arg = ListLike items
  /\ Forall (fun ele => isinstance_allowed ele = true) items.
Proof.
  unfold _check_list, _are_instances. destruct arg as [l|]; [|discriminate].
  destruct (forallb isinstance_allowed l) eqn:E; [|discriminate].
  intro Hl. injection Hl as <-. split; [reflexivity|].
  apply Forall_forall. apply forallb_forall. exact E.
Qed.

(** What [append] does. *)
Lemma append_outcome (v : Obj) (c : Container Obj Attr) :
  (isinstance_allowed v = false
   /\ exists e, append v c = (c, Raise e))
  \/ (isinstance_allowed v = true
      /\ exists c',
           append v c = (c', Ok tt)
           /\ _container c' = _container c ++ [v]
           /\ caches_empty c').
Proof.
  unfold append, _check_ele. unfold bind at 1, lift.
  destruct (isinstance_allowed v) eqn:Ev; cbn [negb].
  - right. split; [reflexivity|].
    unfold bind, modify. cbv beta iota.
    destruct (init_attrs_resets
                (mkContainer (_container c ++ [v]) (attributes c)))
      as (c' & E & Hc & He).
    exists c'. rewrite E. split; [reflexivity|]. split; assumption.
  - left. split; [reflexivity|]. eexists. reflexivity.
Qed.

(** What [extend] does. *)
Lemma extend_outcome (arg : container_arg Obj) (c : Container Obj Attr) :
  (exists e, _check_list arg = Raise e /\ extend arg c = (c, Raise e))
  \/ (exists items c',
        arg = ListLike items
        /\ Forall (fun ele => isinstance_allowed ele = true) items
        /\ extend arg c = (c', Ok tt)
        /\ _container c' = _container c ++ items
        /\ caches_empty c').
Proof.
  unfold extend. unfold bind at 1, lift.
  destruct (_check_list arg) as [items|e] eqn:Ec.
  - right. destruct (check_list_instances _ _ Ec) as [-> Hall].
    unfold bind, modify. cbv beta iota.
    destruct (init_attrs_resets
                (mkContainer (_container c ++ items) (attributes c)))
      as (c' & E & Hc & He).
    exists items, c'. rewrite E.
    split; [reflexivity|]. split; [exact Hall|]. split; [reflexivity|].
    split; assumption.
  - left. exists e. split; reflexivity.
Qed.

(** What [pop] does. *)
Lemma pop_outcome (index : Z) (c : Container Obj Attr) :
  (exists e, list_pop (_container c) index = Raise e
             /\ pop index c = (c, Raise e))
  \/ (exists v rest c',
        list_pop (_container c) index = Ok (v, rest)
        /\ pop index c = (c', Ok v)
        /\ _container c' = rest
        /\ caches_empty c').
Proof.
  unfold pop, bind, get, lift, modify. cbv beta iota.
  destruct (list_pop (_container c) index) as [[v rest]|e] eqn:Ep.
  - right. cbn [fst snd].
    destruct (init_attrs_resets (mkContainer rest (attributes c)))
      as (c' & E & Hc & He).
    exists v, rest, c'. rewrite E.
    split; [reflexivity|]. split; [reflexivity|]. split; assumption.
  - left. exists e. split; reflexivity.
Qed.

Lemma position_bound (n : nat) (index : Z) (k : nat) :
  position n index = Some k -> (k < n)%nat.
Proof.
  unfold position.
  destruct (index <? 0)%Z;
    match goal with
    | |- context [(?a && ?b)%bool] => destruct (a && b)%bool eqn:E
    end; try discriminate;
    intro Hk; injection Hk as <-;
    apply andb_true_iff in E; destruct E as [E1 E2];
    apply Z.leb_le in E1; apply Z.ltb_lt in E2; lia.
Qed.

(** [list.pop] returns the item at the position of the index and the
    other items in their order. *)
Lemma list_pop_spec (l : list Obj) (index : Z) (v : Obj) (rest : list Obj) :
  list_pop l index = Ok (v, rest)
  <-> exists k,
        position (length l) index = Some k
        /\ nth_error l k = Some v
        /\ rest = firstn k l ++ skipn (S k) l.
Proof.
  unfold list_pop. split.
  - destruct l as [|x l]; [discriminate|].
    destruct (position (length (x :: l)) index) as [k|] eqn:Ek; [|discriminate].
    destruct (nth_error (x :: l) k) as [v'|] eqn:En; [|discriminate].
    intro E. injection E as <- <-. exists k.
    split; [reflexivity|]. split; [exact En | reflexivity].
  - intros (k & Hp & Hn & ->).
    destruct l as [|x l]; [destruct k; discriminate|].
    rewrite Hp, Hn. reflexivity.
Qed.

Lemma Forall_remove {A} (P : A -> Prop) (l : list A) (k : nat) (x : A) :
  nth_error l k = Some x ->
  Forall P l -> Forall P (firstn k l ++ skipn (S k) l).
Proof.
  intros Hk Hl. rewrite <- (firstn_skipn_middle k l Hk) in Hl.
  apply Forall_app in Hl. destruct Hl as [H1 H2].
  apply Forall_app. split; [exact H1|]. inversion H2; assumption.
Qed.

(** X22. Whatever is offered to it, a container holds only instances of the
    allowed class: the constructor establishes this, and [append],
    [extend] and [pop] keep it, whether they return or raise. *)
Theorem container_holds_only_instances :
  (forall (arg : container_arg Obj) (c : Container Obj Attr),
     __init__ arg = Ok c -> holds_instances c)
  /\ (forall (m : mutation) (c : Container Obj Attr),
        holds_instances c -> holds_instances (fst (mutate m c))).
Proof.
  split.
  - intros arg c E. unfold __init__ in E.
    destruct (_check_list arg) as [items|e] eqn:Ec; [|discriminate].
    cbn [rbind] in E. injection E as <-.
    exact (proj2 (check_list_instances _ _ Ec)).
  - intros m c Hc. unfold holds_instances in *. destruct m as [v|arg|i]; cbn [mutate].
    + destruct (append_outcome v c) as [(_ & e & ->)|(Hv & c' & -> & Hc' & _)];
        cbn [fst]; [exact Hc|].
      rewrite Hc'. apply Forall_app. split; [exact Hc|].
      constructor; [exact Hv | constructor].
    + destruct (extend_outcome arg c)
        as [(e & _ & ->)|(items & c' & _ & Hall & -> & Hc' & _)];
        cbn [fst]; [exact Hc|].
      rewrite Hc'. apply Forall_app. split; assumption.
    + destruct (pop_outcome i c)
        as [(e & _ & ->)|(v & rest & c' & Hp & -> & Hc' & _)];
        cbn [fst]; [exact Hc|].
      rewrite Hc'. apply list_pop_spec in Hp.
      destruct Hp as (k & _ & Hk & ->).
      eapply Forall_remove; [exact Hk | exact Hc].
Qed.

(** X23. [append], [extend] and [pop] either raise and leave the container as
    it was, or return and leave every cached attribute [None]. *)
Theorem container_mutation_resets_caches :
  forall (m : mutation) (c : Container Obj Attr),
    (exists e, mutate m c = (c, Some e))
    \/ (exists c', mutate m c = (c', None) /\ caches_empty c').
Proof.
  intros m c. destruct m as [v|arg|i]; cbn [mutate].
  - destruct (append_outcome v c) as [(_ & e & ->)|(_ & c' & -> & _ & He)].
    + left. exists e. reflexivity.
    + right. exists c'. split; [reflexivity | exact He].
  - destruct (extend_outcome arg c)
      as [(e & _ & ->)|(items & c' & _ & _ & -> & _ & He)].
    + left. exists e. reflexivity.
    + right. exists c'. split; [reflexivity | exact He].
  - destruct (pop_outcome i c)
      as [(e & _ & ->)|(v & rest & c' & _ & -> & _ & He)].
    + left. exists e. reflexivity.
    + right. exists c'. split; [reflexivity | exact He].
Qed.

Lemma position_last (n : nat) : position (S n) (-1) = Some n.
Proof.
  unfold position. cbn [Z.ltb Z.compare].
  replace (-1 + Z.of_nat (S n))%Z with (Z.of_nat n) by lia.
  assert (E1 : (0 <=? Z.of_nat n)%Z = true) by (apply Z.leb_le; lia).
  assert (E2 : (Z.of_nat n <? Z.of_nat (S n))%Z = true)
    by (apply Z.ltb_lt; lia).
  rewrite E1, E2. cbn [andb]. rewrite Nat2Z.id. reflexivity.
Qed.

(** X24. Appending an allowed element and popping (the last item, the default
    of [pop]) gives the element back and leaves the elements of the
    container as they were. *)
Theorem append_then_pop :
  forall (v : Obj) (c : Container Obj Attr),
    isinstance_allowed v = true ->
    exists c1 c2,
      append v c = (c1, Ok tt)
      /\ pop (-1) c1 = (c2, Ok v)
      /\ _container c2 = _container c.
Proof.
  intros v c Hv.
  destruct (append_outcome v c) as [(Hf & _)|(_ & c1 & E1 & Hc1 & _)];
    [congruence|].
  assert (Hp : list_pop (_container c1) (-1) = Ok (v, _container c)).
  { rewrite Hc1. apply list_pop_spec. exists (length (_container c)).
    split; [|split].
    - rewrite length_app. cbn [length]. rewrite Nat.add_1_r.
      apply position_last.
    - rewrite nth_error_app2 by lia. rewrite Nat.sub_diag. reflexivity.
    - rewrite firstn_app, Nat.sub_diag, firstn_all. cbn [firstn].
      rewrite app_nil_r.
      rewrite skipn_all2 by (rewrite length_app; cbn; lia).
      rewrite app_nil_r. reflexivity. }
  destruct (pop_outcome (-1) c1)
    as [(e & Hf & _)|(v' & rest & c2 & Hp' & E2 & Hc2 & _)];
    [rewrite Hp in Hf; discriminate|].
  rewrite Hp in Hp'. injection Hp' as <- <-.
  exists c1, c2. split; [exact E1|]. split; [exact E2 | exact Hc2].
Qed.

(** X25. [pop] returns what indexing with the same index returns, and raises
    when indexing raises; when it returns the container has one element
    less. *)
Theorem pop_agrees_with_getitem :
  forall (index : Z) (c : Container Obj Attr),
    match __getitem__ c index with
    | Ok v =>
        exists c',
          pop index c = (c', Ok v)
          /\ S (length (_container c')) = length (_container c)
    | Raise _ => exists e, pop index c = (c, Raise e)
    end.
Proof.
  intros index c. unfold __getitem__, container.
  destruct (pop_outcome index c)
    as [(e & Hf & E)|(v & rest & c' & Hp & E & Hc' & _)].
  - unfold list_pop in Hf.
    destruct (position (length (_container c)) index) as [k|] eqn:Ek.
    + destruct (nth_error (_container c) k) as [v|] eqn:En.
      * destruct (_container c); [destruct k; discriminate | discriminate].
      * exists e. exact E.
    + exists e. exact E.
  - apply list_pop_spec in Hp. destruct Hp as (k & Hk & Hn & ->).
    rewrite Hk, Hn. exists c'. split; [exact E|].
    rewrite Hc'. apply position_bound in Hk.
    rewrite length_app, length_firstn, length_skipn. lia.
Qed.

(** X26. [from_dict(to_dict())] rebuilds a container with the same elements
    and empty caches. *)
Theorem to_dict_then_from_dict :
  forall c : Container Obj Attr,
    holds_instances c ->
    exists c' : Container Obj Attr,
      from_dict (ListLike (to_dict c)) = Ok c'
      /\ _container c' = _container c
      /\ caches_empty c'.
Proof.
  intros c Hc. unfold from_dict, __init__, _check_list, to_dict, _are_instances.
  assert (E : forallb isinstance_allowed (_container c) = true).
  { apply forallb_forall. apply Forall_forall. exact Hc. }
  rewrite E. cbn [negb rbind].
  destruct (init_attrs_resets
              (@mkContainer Obj Attr (_container c) [])) as (c' & E' & Hc' & He).
  exists c'. rewrite E'. split; [reflexivity|]. split; assumption.
Qed.

End ContainerProperties.

(** ** Value predicates and unit conversion *)

Section ValuePredicates.

Context {U : Type} `{UnitSystem U}.

Import common.

(** X27. No value is both numeric and list-like; what is an integer is
    numeric and counts as hashable; a quantity is what its magnitude
    is. *)
Theorem value_kinds :
  forall obj : pyobj U,
    (is_numeric obj = true -> is_listlike obj = false)
    /\ (is_integer obj = true
        -> is_numeric obj = true /\ is_hashable obj = true)
    /\ (forall m u,
          obj = PyQuantity m u ->
          is_numeric obj = is_numeric (@Plain U m)
          /\ is_listlike obj = is_listlike (@Plain U m)
          /\ is_integer obj = is_integer (@Plain U m)).
Proof.
  intro obj. split; [|split].
  - unfold is_numeric, is_listlike.
    destruct (get_value obj) as [| | | | | | | | | |a]; cbn;
      try discriminate; try reflexivity.
    destruct a; cbn; try discriminate; reflexivity.
  - unfold is_hashable. intro Hi. rewrite Hi. cbn [orb].
    split; [|reflexivity].
    unfold is_integer in Hi. unfold is_numeric.
    destruct (get_value obj) as [| | | | | | | | | |a]; cbn in *;
      try discriminate; try reflexivity.
    destruct a; cbn in *; discriminate.
  - intros m u ->. repeat split.
Qed.

Lemma magnitude_to_kind (src dst : U) (m m' : plain) :
  magnitude_to src dst m = Ok m' ->
  is_numeric (@Plain U m') = is_numeric (@Plain U m)
  /\ is_listlike (@Plain U m') = is_listlike (@Plain U m).
Proof.
  unfold magnitude_to.
  destruct (unit_eqb src dst).
  { intro E. injection E as <-. split; reflexivity. }
  destruct m as [|b|z|[|x]|s|l|l|d|f|z|a];
    try (destruct (convert src dst _); [|discriminate];
         intro E; try discriminate E; injection E as <-; split; reflexivity).
  destruct a as [x|xs|rows].
  - destruct (convert src dst x); [|discriminate].
    intro E. injection E as <-. split; reflexivity.
  - destruct (mapM _ xs); [|discriminate].
    intro E. injection E as <-. split; reflexivity.
  - destruct (mapM _ rows); [|discriminate].
    intro E. injection E as <-. split; reflexivity.
Qed.

(** X28. [optional_to] returns only for what is numeric or list-like, and
    what it returns is never a quantity; without target units the
    magnitude of a quantity is returned as it is when it is numeric. *)
Theorem optional_to_strips_units :
  forall (np_asarray : plain -> plain) (obj : pyobj U) (units : option U),
    (forall r,
       optional_to np_asarray obj units = Ok r ->
       has_units r = false
       /\ (is_numeric obj = true \/ is_listlike obj = true))
    /\ (forall m u,
          obj = PyQuantity m u -> units = None -> is_numeric obj = true ->
          optional_to np_asarray obj units = Ok (Plain m)).
Proof.
  intros np_asarray obj units. split.
  - intros r Hr. unfold optional_to in Hr.
    destruct obj as [p|m u|u].
    + cbn [rbind] in Hr.
      destruct (is_numeric (Plain p)) eqn:En.
      * injection Hr as <-. split; [reflexivity | left; reflexivity].
      * destruct (is_listlike (Plain p)) eqn:El; [|discriminate].
        injection Hr as <-. split; [reflexivity | right; reflexivity].
    + assert (Hm : exists m',
                 (match units with
                  | None => Ok (Plain m)
                  | Some units =>
                      (m' <- magnitude_to u units m ;; Ok (Plain m'))%result
                  end) = Ok (@Plain U m')
                 /\ is_numeric (@Plain U m') = is_numeric (@Plain U m)
                 /\ is_listlike (@Plain U m') = is_listlike (@Plain U m)).
      { destruct units as [units|].
        - destruct (magnitude_to u units m) as [m'|e] eqn:Em;
            [|discriminate].
          exists m'. split; [reflexivity|]. eapply magnitude_to_kind. exact Em.
        - exists m. repeat split. }
      destruct Hm as (m' & Em & Hn & Hl). rewrite Em in Hr.
      cbn [rbind] in Hr.
      change (is_numeric (PyQuantity m u)) with (is_numeric (@Plain U m)).
      change (is_listlike (PyQuantity m u)) with (is_listlike (@Plain U m)).
      rewrite <- Hn, <- Hl.
      destruct (is_numeric (Plain m')) eqn:En.
      * injection Hr as <-. split; [reflexivity | left; reflexivity].
      * destruct (is_listlike (Plain m')) eqn:El; [|discriminate].
        injection Hr as <-. split; [reflexivity | right; reflexivity].
    + cbn in Hr. injection Hr as <-. split; [reflexivity | left; reflexivity].
  - intros m u -> -> Hn. unfold optional_to. cbn [rbind].
    change (is_numeric (PyQuantity m u)) with (is_numeric (@Plain U m)) in Hn.
    rewrite Hn. reflexivity.
Qed.

End ValuePredicates.

(** ** The calibration spectrum *)

Section CalibrationArea.

Context {U : Type} `{UnitSystem U}.

Import signal common CalibrationSpectrum.

Lemma magnitude_to_numeric (src dst : U) (m m' : plain) :
  magnitude_to src dst m = Ok m' ->
  is_numeric (@Plain U m) = true ->
  is_numeric (@Plain U m') = true.
Proof.
  intros E Hn. rewrite (proj1 (magnitude_to_kind _ _ _ _ E)). exact Hn.
Qed.

Lemma area_quantity (eff : pyobj U) (au : U) (q : pyobj U) :
  is_numeric eff = true ->
  (if has_units eff then quantity_to eff au else times_units eff au) = Ok q ->
  exists m u,
    q = PyQuantity m u /\ is_numeric (PyQuantity m u) = true
    /\ ((forall u0, eff <> PyUnit u0) -> u = au).
Proof.
  intros Enum Eq. destruct eff as [p|m u|u]; cbn [has_units] in Eq.
  - unfold times_units in Eq.
    destruct p as [|b|z|x|st|l|l|d|f|z|a]; try discriminate;
      injection Eq as <-; eexists; eexists;
      (split; [reflexivity|]); (split; [|reflexivity]);
      try reflexivity; exact Enum.
  - unfold quantity_to in Eq.
    destruct (magnitude_to u au m) as [m'|e] eqn:Em; [|discriminate].
    injection Eq as <-. exists m', au.
    split; [reflexivity|]. split; [|reflexivity].
    exact (magnitude_to_numeric _ _ _ _ Em Enum).
  - cbn in Eq. injection Eq as <-. eexists. eexists.
    split; [reflexivity|]. split; [reflexivity|].
    intro Hu. exfalso. exact (Hu u eq_refl).
Qed.

(** X29. The constructor of [CalibrationSpectrum] raises when no area is
    given and the values are not a calibration spectrum.  When it
    returns, the instance is 1-dimensional and [attrs] holds under
    ['_area'] a numeric quantity, which [area] returns, in [area_units]
    unless the area was given as a bare unit.  Nothing else of the signal
    is written: its fields are those [super().__init__] left, except that
    the dictionary [attrs] exists now, with the entries it had. *)
Theorem calibration_area_is_quantity :
  forall (values_is_calibration : bool) (area : pyobj U) (area_units : U)
         (s : Instance U),
    (is_None area = true -> values_is_calibration = false ->
     __init__ values_is_calibration area area_units s
     = (s, Raise (DreyeError
                    "Must provide 'area' argument to initialize CalibrationSpectrum.")))
    /\ (forall s',
          __init__ values_is_calibration area area_units s = (s', Ok tt) ->
          ndim (base s') = 1%nat
          /\ base s' = set_attrs (Some (entries (base s))) (base s)
          /\ exists m u,
               CalibrationSpectrum.area s' = (s', Ok (PyQuantity m u))
               /\ is_numeric (PyQuantity m u) = true
               /\ (is_None area = false ->
                   (forall u0, area <> PyUnit u0) -> u = area_units)).
Proof.
  intros vc area au s. split.
  - intros Hn ->. unfold __init__, bind. rewrite Hn. reflexivity.
  - intros s' E. unfold __init__ in E. unfold bind at 1 in E.
    destruct (is_None area && negb vc); [inversion E|].
    unfold ret at 1 in E. unfold bind at 1 in E.
    (* the area the constructor goes on with, and the state then *)
    assert (Hread : exists s1 eff,
               (if is_None area then attrs_get_area area else ret area) s
               = (s1, Ok eff)
               /\ _area s1 = _area s
               /\ set_attrs (Some (entries (base s1))) (base s1)
                  = set_attrs (Some (entries (base s))) (base s)
               /\ ndim (base s1) = ndim (base s)
               /\ (is_None area = false -> eff = area)).
    { destruct (is_None area).
      - unfold attrs_get_area, attrs, bind, modify, get, ret.
        eexists. eexists. split; [reflexivity|].
        split; [reflexivity|]. split; [reflexivity|].
        split; [reflexivity | discriminate].
      - unfold ret. exists s, area. repeat split. }
    destruct Hread as (s1 & eff & Er & Ha1 & Hb1 & Hn1 & Heff).
    rewrite Er in E. unfold bind at 1, lift in E.
    destruct (is_numeric eff) eqn:Enum; cbn [negb] in E; [|inversion E].
    destruct (if has_units eff then quantity_to eff au
              else times_units eff au) as [q|e] eqn:Eq; [|inversion E].
    destruct (area_quantity eff au q Enum Eq) as (m & u & -> & Hnum & Hu).
    unfold attrs_set_area, attrs in E.
    unfold bind, modify, get in E. cbn [base _area] in E.
    rewrite Hb1 in E.
    assert (End : ndim (set_attrs (Some (entries (base s))) (base s))
                  = ndim (base s)) by reflexivity.
    rewrite End in E.
    destruct (Nat.eqb (ndim (base s)) 1) eqn:En; cbn [negb] in E;
      [|inversion E].
    unfold ret in E. injection E as <-. cbn [base].
    split; [apply Nat.eqb_eq; exact En|]. split; [reflexivity|].
    exists m, u. split; [reflexivity|]. split; [exact Hnum|].
    intros Hn Harea. apply Hu. rewrite (Heff Hn). exact Harea.
Qed.

End CalibrationArea.

(** ** The properties on the sample objects *)

Lemma interpolate_is_built_once_witness :
  let s := sample.ramp in
  let s1 := fst (signal.interpolate s) in
  let f := match snd (signal.interpolate s) with
           | Ok f => f
           | Raise e => fun _ => Raise e
           end in
  signal.interpolate s = (s1, Ok f)
  /\ signal.interpolate s1 = (s1, Ok f)
  /\ forall g, snd (signal.interpolate (signal.set_interpolator g s1)) = Ok f.
Proof.
  cbv zeta.
  assert (E : signal.interpolate sample.ramp
              = (fst (signal.interpolate sample.ramp),
                 Ok match snd (signal.interpolate sample.ramp) with
                    | Ok f => f
                    | Raise e => fun _ => Raise e
                    end)) by reflexivity.
  split; [exact E|].
  exact (interpolate_is_built_once _ _ _ E).
Defined.

Lemma call_respects_clip_bounds_witness :
  let s := sample.ramp_clipped in
  let q := signal.QCoords (scipy.C1 [0; 1 # 2; 1]) in
  let s' := fst (signal.__call__ q s) in
  let r := match snd (signal.__call__ q s) with
           | Ok r => r
           | Raise _ => signal.Bare (mkQuantity (np.Arr0 0) (signal.units s))
           end in
  let lo := Some (1 # 4) in
  let hi := Some (3 # 4) in
  signal.signal_min s = scalar_bound lo
  /\ signal.signal_max s = scalar_bound hi
  /\ ordered_bounds lo hi
  /\ signal.__call__ q s = (s', Ok r)
  /\ Forall (respects lo hi) (call_values r).
Proof.
  cbv zeta.
  assert (Ho : ordered_bounds (Some (1 # 4)) (Some (3 # 4))).
  { intros l h El Eh. injection El as <-. injection Eh as <-.
    unfold Qle. simpl. lia. }
  assert (E : signal.__call__ (signal.QCoords (scipy.C1 [0; 1 # 2; 1]))
                sample.ramp_clipped
              = (fst (signal.__call__ (signal.QCoords (scipy.C1 [0; 1 # 2; 1]))
                        sample.ramp_clipped),
                 Ok match snd (signal.__call__
                                 (signal.QCoords (scipy.C1 [0; 1 # 2; 1]))
                                 sample.ramp_clipped) with
                    | Ok r => r
                    | Raise _ =>
                        signal.Bare (mkQuantity (np.Arr0 0)
                                       (signal.units sample.ramp_clipped))
                    end)) by reflexivity.
  split; [reflexivity|]. split; [reflexivity|]. split; [exact Ho|].
  split; [exact E|].
  exact (call_respects_clip_bounds sample.ramp_clipped _ _ _
           (Some (1 # 4)) (Some (3 # 4)) eq_refl eq_refl Ho E).
Defined.

Lemma crossed_clip_bounds_give_upper_witness :
  let s := sample.ramp_crossed in
  let q := signal.QCoords (scipy.C1 [0; 1 # 2; 1]) in
  let s' := fst (signal.__call__ q s) in
  let r := match snd (signal.__call__ q s) with
           | Ok r => r
           | Raise _ => signal.Bare (mkQuantity (np.Arr0 0) (signal.units s))
           end in
  signal.signal_min s = Some (np.BScalar (3 # 4))
  /\ signal.signal_max s = Some (np.BScalar (1 # 4))
  /\ 1 # 4 < 3 # 4
  /\ signal.__call__ q s = (s', Ok r)
  /\ Forall (fun x => x = 1 # 4) (call_values r).
Proof.
  cbv zeta.
  assert (Hlt : 1 # 4 < 3 # 4) by reflexivity.
  assert (E : signal.__call__ (signal.QCoords (scipy.C1 [0; 1 # 2; 1]))
                sample.ramp_crossed
              = (fst (signal.__call__ (signal.QCoords (scipy.C1 [0; 1 # 2; 1]))
                        sample.ramp_crossed),
                 Ok match snd (signal.__call__
                                 (signal.QCoords (scipy.C1 [0; 1 # 2; 1]))
                                 sample.ramp_crossed) with
                    | Ok r => r
                    | Raise _ =>
                        signal.Bare (mkQuantity (np.Arr0 0)
                                       (signal.units sample.ramp_crossed))
                    end)) by reflexivity.
  split; [reflexivity|]. split; [reflexivity|]. split; [exact Hlt|].
  split; [exact E|].
  exact (crossed_clip_bounds_give_upper sample.ramp_crossed _ _ _
           (3 # 4) (1 # 4) eq_refl eq_refl Hlt E).
Defined.

Lemma checked_clip_values_apply_witness :
  let s := sample.columns_with_channel_bounds in
  let v := np.Arr2 [[1; 20]; [-3; 5]] in
  signal._check_clip_value s (signal.signal_min s) = Ok tt
  /\ signal._check_clip_value s (signal.signal_max s) = Ok tt
  /\ signal.other_len s = Ok 2%nat
  /\ last_axis_is 2 v
  /\ exists v', signal._clip_values v (signal.signal_min s) (signal.signal_max s)
                = Ok v'.
Proof.
  cbv zeta.
  assert (Hv : last_axis_is 2 (np.Arr2 [[1; 20]; [-3; 5]])).
  { repeat constructor. }
  split; [reflexivity|]. split; [reflexivity|]. split; [reflexivity|].
  split; [exact Hv|].
  exact (checked_clip_values_apply sample.columns_with_channel_bounds 2 _
           eq_refl eq_refl eq_refl (or_intror Hv)).
Defined.

Lemma list_clip_along_rows_blocks_calls_witness :
  let s := sample.rows_with_channel_bounds in
  let qs := [400; 500; 600] in
  signal.magnitude s = np.Arr2 [[1; 2; 3]; [4; 5; 6]]
  /\ signal.domain_axis s = 1%nat
  /\ signal._interpolator s = scipy.interp1d
  /\ signal._interpolate s = None
  /\ signal.signal_min s = Some (np.BList [0; 0])
  /\ signal._check_clip_value s (signal.signal_min s) = Ok tt
  /\ is_ok (snd (signal.__call__ (signal.QCoords (scipy.C1 qs)) s)) = false.
Proof.
  cbv zeta.
  repeat (split; [reflexivity|]).
  apply (list_clip_along_rows_blocks_calls sample.rows_with_channel_bounds
           [[1; 2; 3]; [4; 5; 6]] [0; 0] [400; 500; 600]);
    try reflexivity; simpl; lia.
Defined.

Lemma call_stays_within_samples_witness :
  let s := sample.two_channels in
  let q := signal.QCoords (scipy.C1 [450; 550]) in
  let s' := fst (signal.__call__ q s) in
  let r := match snd (signal.__call__ q s) with
           | Ok r => r
           | Raise _ => signal.Bare (mkQuantity (np.Arr0 0) (signal.units s))
           end in
  signal._interpolator s = scipy.interp1d
  /\ signal._interpolate s = None
  /\ scipy.linear_options (signal._interpolator_kwargs s) = true
  /\ scipy.wants_extrapolate (signal._interpolator_kwargs s) = false
  /\ signal.signal_min s = None
  /\ signal.signal_max s = None
  /\ ascending (signal.dom_magnitude (signal.domain s))
  /\ Forall (Forall (fun y => 1 <= y /\ y <= 6)) (channels s)
  /\ signal.__call__ q s = (s', Ok r)
  /\ Forall (fun v => 1 <= v /\ v <= 6) (call_values r).
Proof.
  cbv zeta.
  assert (Ha : ascending (signal.dom_magnitude (signal.domain sample.two_channels))).
  { simpl. repeat split. }
  assert (Hch : Forall (Forall (fun y => 1 <= y /\ y <= 6))
                  (channels sample.two_channels)).
  { repeat constructor; discriminate. }
  assert (E : signal.__call__ (signal.QCoords (scipy.C1 [450; 550]))
                sample.two_channels
              = (fst (signal.__call__ (signal.QCoords (scipy.C1 [450; 550]))
                        sample.two_channels),
                 Ok match snd (signal.__call__
                                 (signal.QCoords (scipy.C1 [450; 550]))
                                 sample.two_channels) with
                    | Ok r => r
                    | Raise _ =>
                        signal.Bare (mkQuantity (np.Arr0 0)
                                       (signal.units sample.two_channels))
                    end)) by reflexivity.
  repeat (split; [reflexivity|]).
  split; [exact Ha|]. split; [exact Hch|]. split; [exact E|].
  exact (call_stays_within_samples sample.two_channels _ _ _ 1 6 eq_refl
           eq_refl eq_refl eq_refl eq_refl eq_refl Ha Hch E).
Defined.

Lemma boundaries_are_channel_extremes_witness :
  let s := sample.two_channels in
  well_shaped s
  /\ signal.dom_magnitude (signal.domain s) <> []
  /\ exists b, signal.boundaries s = Ok b
               /\ Forall2 extremes_of (channels s) (boundary_rows b).
Proof.
  cbv zeta.
  assert (Hw : well_shaped sample.two_channels).
  { left. repeat split. repeat constructor. }
  assert (Hd : signal.dom_magnitude (signal.domain sample.two_channels) <> [])
    by discriminate.
  split; [exact Hw|]. split; [exact Hd|].
  exact (boundaries_are_channel_extremes _ Hw Hd).
Defined.

Lemma integral_of_constant_channels_witness :
  let s := sample.flat in
  well_shaped s
  /\ Forall2 (fun ch c => Forall (fun y => y == c) ch) (channels s) [2]
  /\ exists q,
       signal.integral s = Ok q
       /\ q_units q = unit_mul (signal.units s) (signal.dom_units (signal.domain s))
       /\ Forall2
            (fun c v => v == c * (signal.dom_end (signal.domain s)
                                  - signal.dom_start (signal.domain s)))
            [2] (np.flatten (q_magnitude q)).
Proof.
  cbv zeta.
  assert (Hw : well_shaped sample.flat) by (split; reflexivity).
  assert (Hc : Forall2 (fun ch c => Forall (fun y => y == c) ch)
                 (channels sample.flat) [2]).
  { repeat constructor. }
  split; [exact Hw|]. split; [exact Hc|].
  exact (integral_of_constant_channels _ _ Hw Hc).
Defined.


Lemma map_returns_inputs_within_boundaries_witness :
  let c := MeasuredSpectraContainer.__init__ [sample.rising_led_zero] in
  let values := np.Arr1 [100] in
  let run := MeasuredSpectraContainer.map sample.identity_regression
               sample.identity_mapper values false c in
  let q := match snd run with
           | Ok q => q
           | Raise _ => mkQuantity (np.Arr0 0) volt
           end in
  let lo := [0] in
  let hi := [5] in
  MeasuredSpectraContainer.lower_boundary c = Ok lo
  /\ MeasuredSpectraContainer.upper_boundary c = Ok hi
  /\ Forall2 Qle lo hi
  /\ run = (fst run, Ok q)
  /\ exists rows,
       q_magnitude q = np.Arr2 rows
       /\ forall row j v,
            In row rows -> nth_error row j = Some v ->
            within lo hi (boundary_index lo j) v.
Proof.
  cbv zeta.
  assert (Hb : Forall2 Qle [0] [5]) by (repeat constructor; discriminate).
  assert (E : MeasuredSpectraContainer.map sample.identity_regression
                sample.identity_mapper (np.Arr1 [100]) false
                (MeasuredSpectraContainer.__init__ [sample.rising_led_zero])
              = (fst (MeasuredSpectraContainer.map sample.identity_regression
                        sample.identity_mapper (np.Arr1 [100]) false
                        (MeasuredSpectraContainer.__init__ [sample.rising_led_zero])),
                 Ok match snd (MeasuredSpectraContainer.map
                                 sample.identity_regression
                                 sample.identity_mapper (np.Arr1 [100]) false
                                 (MeasuredSpectraContainer.__init__
                                    [sample.rising_led_zero])) with
                    | Ok q => q
                    | Raise _ => mkQuantity (np.Arr0 0) volt
                    end)) by reflexivity.
  split; [reflexivity|]. split; [reflexivity|]. split; [exact Hb|].
  split; [exact E|].
  exact (map_returns_inputs_within_boundaries sample.identity_regression
           sample.identity_mapper
           (MeasuredSpectraContainer.__init__ [sample.rising_led_zero])
           _ _ _ _ [0] [5] eq_refl eq_refl Hb E).
Defined.

Lemma map_needs_every_zero_boundary_witness :
  let c := MeasuredSpectraContainer.__init__ [sample.rising_led] in
  In sample.rising_led (MeasuredSpectraContainer._container c)
  /\ MeasuredSpectrum.zero_boundary sample.rising_led = Ok None
  /\ exists e,
       MeasuredSpectraContainer.map sample.identity_regression
         sample.identity_mapper (np.Arr1 [100]) false c
       = (c, Raise e).
Proof.
  cbv zeta.
  assert (Hin : In sample.rising_led
                  (MeasuredSpectraContainer._container
                     (MeasuredSpectraContainer.__init__ [sample.rising_led])))
    by (left; reflexivity).
  split; [exact Hin|]. split; [reflexivity|].
  exact (map_needs_every_zero_boundary sample.identity_regression
           sample.identity_mapper _ _ (np.Arr1 [100]) false Hin eq_refl).
Defined.

Lemma intensity_bounds_are_ordered_witness :
  let c := MeasuredSpectraContainer.__init__ [sample.rising_led_zero] in
  Forall (fun ele =>
            ascending (signal.dom_magnitude (signal.domain ele))
            /\ Forall (fun v => 0 <= v) (np.flatten (signal.magnitude ele)))
         (MeasuredSpectraContainer._container c)
  /\ MeasuredSpectraContainer.bounds c = Ok ([0], [1600 # 4])
  /\ Forall2 (fun l h => 0 <= l /\ l <= h) [0] [1600 # 4].
Proof.
  cbv zeta.
  assert (Hc : Forall (fun ele =>
                 ascending (signal.dom_magnitude (signal.domain ele))
                 /\ Forall (fun v => 0 <= v) (np.flatten (signal.magnitude ele)))
                 (MeasuredSpectraContainer._container
                    (MeasuredSpectraContainer.__init__ [sample.rising_led_zero]))).
  { constructor; [|constructor]. split.
    - simpl. repeat split.
    - repeat constructor; discriminate. }
  split; [exact Hc|]. split; [reflexivity|].
  exact (intensity_bounds_are_ordered _ [0] [1600 # 4] Hc eq_refl).
Defined.

Lemma map_fits_once_witness :
  let c := MeasuredSpectraContainer.__init__ [sample.rising_led_zero] in
  let values := np.Arr1 [100] in
  let run := MeasuredSpectraContainer.map sample.identity_regression
               sample.identity_mapper values false c in
  let c' := fst run in
  let q := match snd run with
           | Ok q => q
           | Raise _ => mkQuantity (np.Arr0 0) volt
           end in
  run = (c', Ok q)
  /\ (exists ms,
        MeasuredSpectraContainer._mapper c' = Some ms
        /\ (MeasuredSpectraContainer._mapper c = None ->
            length ms = length (MeasuredSpectraContainer._container c)))
  /\ forall iso' inverse' values' units',
       MeasuredSpectraContainer.map iso' inverse' values' units' c'
       = MeasuredSpectraContainer.map sample.identity_regression
           sample.identity_mapper values' units' c'.
Proof.
  cbv zeta.
  assert (E : MeasuredSpectraContainer.map sample.identity_regression
                sample.identity_mapper (np.Arr1 [100]) false
                (MeasuredSpectraContainer.__init__ [sample.rising_led_zero])
              = (fst (MeasuredSpectraContainer.map sample.identity_regression
                        sample.identity_mapper (np.Arr1 [100]) false
                        (MeasuredSpectraContainer.__init__ [sample.rising_led_zero])),
                 Ok match snd (MeasuredSpectraContainer.map
                                 sample.identity_regression
                                 sample.identity_mapper (np.Arr1 [100]) false
                                 (MeasuredSpectraContainer.__init__
                                    [sample.rising_led_zero])) with
                    | Ok q => q
                    | Raise _ => mkQuantity (np.Arr0 0) volt
                    end)) by reflexivity.
  split; [exact E|].
  exact (map_fits_once _ _ _ _ _ _ _ E).
Defined.

Lemma constructor_establishes_attributes_witness :
  let s := sample.sorted_labels in
  let run := MeasuredSpectrum.__init__ None None (Some true) None s in
  let s' := fst run in
  run = (s', Ok tt)
  /\ signal.ndim s' = 2%nat
  /\ signal.name s' <> None
  /\ (exists d, signal.labels s' = signal.LabelsDomain d)
  /\ (exists v, signal.attrs_get "_zero_is_lower" (MeasuredSpectrum.attrs s')
                = Some v /\ v <> signal.ANone)
  /\ (exists z, signal.attrs_get "_zero_boundary" (MeasuredSpectrum.attrs s')
                = Some z)
  /\ (exists m, signal.attrs_get "_max_boundary" (MeasuredSpectrum.attrs s')
                = Some m)
  /\ signal._values s' = signal._values s
  /\ signal._domain s' = signal._domain s
  /\ signal._units s' = signal._units s.
Proof.
  cbv zeta.
  assert (E : MeasuredSpectrum.__init__ None None (Some true) None
                sample.sorted_labels
              = (fst (MeasuredSpectrum.__init__ None None (Some true) None
                        sample.sorted_labels), Ok tt)) by reflexivity.
  split; [exact E|].
  exact (constructor_establishes_attributes _ _ _ _ _ _ E).
Defined.

Lemma constructor_polarity_witness :
  let s := sample.sorted_labels in
  let z := np.fin 0 in
  let m := np.fin 5 in
  let run := MeasuredSpectrum.__init__ (Some z) (Some m) None None s in
  let s' := fst run in
  run = (s', Ok tt)
  /\ MeasuredSpectrum.attrs_get_or_none s "_zero_is_lower" = signal.ANone
  /\ MeasuredSpectrum.zero_is_lower s' = Ok (MeasuredSpectrum.float_lt z m)
  /\ MeasuredSpectrum.zero_boundary s' = Ok (Some z)
  /\ MeasuredSpectrum.max_boundary s' = Ok (Some m).
Proof.
  cbv zeta.
  assert (E : MeasuredSpectrum.__init__ (Some (np.fin 0)) (Some (np.fin 5))
                None None sample.sorted_labels
              = (fst (MeasuredSpectrum.__init__ (Some (np.fin 0))
                        (Some (np.fin 5)) None None sample.sorted_labels),
                 Ok tt)) by reflexivity.
  split; [exact E|]. split; [reflexivity|].
  exact (constructor_polarity _ _ None _ _ _ E (fun _ => eq_refl)).
Defined.

Lemma constructor_needs_flag_or_boundaries_witness :
  let s := sample.sorted_labels in
  MeasuredSpectrum.attrs_get_or_none s "_zero_is_lower" = signal.ANone
  /\ MeasuredSpectrum.attrs_get_or_none s "_zero_boundary" = signal.ANone
  /\ is_ok (snd (MeasuredSpectrum.__init__ None (Some (np.fin 5)) None None s))
     = false.
Proof.
  cbv zeta.
  split; [reflexivity|]. split; [reflexivity|].
  exact (constructor_needs_flag_or_boundaries None (Some (np.fin 5)) None
           sample.sorted_labels eq_refl (or_introl (conj eq_refl eq_refl))).
Defined.

(** Containers of measured spectra. *)
#[local] Existing Instance MeasuredSpectraContainer.subclass.

Lemma append_then_pop_witness :
  let c : _AbstractContainer.Container (signal.Signal metric) unit :=
    _AbstractContainer.mkContainer [sample.rising_led_zero] [] in
  let v := sample.rising_led in
  _AbstractContainer.isinstance_allowed v = true
  /\ exists c1 c2,
       _AbstractContainer.append v c = (c1, Ok tt)
       /\ _AbstractContainer.pop (-1) c1 = (c2, Ok v)
       /\ _AbstractContainer._container c2 = _AbstractContainer._container c.
Proof.
  cbv zeta.
  split; [reflexivity|].
  exact (append_then_pop sample.rising_led
           (_AbstractContainer.mkContainer [sample.rising_led_zero] [])
           eq_refl).
Defined.

Lemma to_dict_then_from_dict_witness :
  let c : _AbstractContainer.Container (signal.Signal metric) unit :=
    _AbstractContainer.mkContainer [sample.rising_led_zero; sample.rising_led]
      [] in
  holds_instances c
  /\ exists c' : _AbstractContainer.Container (signal.Signal metric) unit,
       _AbstractContainer.from_dict
         (_AbstractContainer.ListLike (_AbstractContainer.to_dict c)) = Ok c'
       /\ _AbstractContainer._container c' = _AbstractContainer._container c
       /\ caches_empty c'.
Proof.
  cbv zeta.
  assert (Hc : holds_instances
                 (_AbstractContainer.mkContainer (Attr := unit)
                    [sample.rising_led_zero; sample.rising_led] [])).
  { repeat constructor. }
  split; [exact Hc|].
  exact (to_dict_then_from_dict _ Hc).
Defined.

Lemma container_holds_only_instances_witness :
  let c : _AbstractContainer.Container (signal.Signal metric) unit :=
    _AbstractContainer.mkContainer [sample.rising_led_zero]
      (List.map (fun key => (key, None))
         (@_AbstractContainer._init_keys (signal.Signal metric) _)) in
  _AbstractContainer.__init__ (_AbstractContainer.ListLike [sample.rising_led_zero])
  = Ok c
  /\ holds_instances c
  /\ holds_instances (fst (mutate (Append sample.falling_led) c))
  /\ holds_instances (fst (mutate (Extend _AbstractContainer.NotListLike) c))
  /\ holds_instances (fst (mutate (Pop 5) c)).
Proof.
  cbv zeta.
  assert (E : _AbstractContainer.__init__
                (_AbstractContainer.ListLike [sample.rising_led_zero])
              = Ok (_AbstractContainer.mkContainer (Attr := unit)
                      [sample.rising_led_zero]
                      (List.map (fun key => (key, None))
                         (@_AbstractContainer._init_keys
                            (signal.Signal metric) _)))) by reflexivity.
  split; [exact E|].
  pose proof (container_holds_only_instances
                (Obj := signal.Signal metric) (Attr := unit)) as [Hi Hm].
  pose proof (Hi _ _ E) as Hc.
  split; [exact Hc|].
  split; [exact (Hm _ _ Hc)|]. split; [exact (Hm _ _ Hc) | exact (Hm _ _ Hc)].
Defined.

Lemma optional_to_strips_units_witness :
  let obj := common.PyQuantity (common.PyFloat (np.fin 2)) nanometre in
  common.is_numeric obj = true
  /\ common.optional_to (fun a => a) obj None
     = Ok (common.Plain (common.PyFloat (np.fin 2)))
  /\ common.has_units (@common.Plain metric (common.PyFloat (np.fin 2))) = false.
Proof.
  cbv zeta.
  pose proof (optional_to_strips_units (fun a => a)
                (common.PyQuantity (common.PyFloat (np.fin 2)) nanometre) None)
    as [Hr Hq].
  pose proof (Hq _ _ eq_refl eq_refl eq_refl) as E.
  split; [reflexivity|]. split; [exact E|].
  exact (proj1 (Hr _ E)).
Defined.

Lemma calibration_area_is_quantity_witness :
  let s := CalibrationSpectrum.mkInstance sample.ramp None in
  let area := common.Plain (common.PyFloat (np.fin 2)) in
  let s' := fst (CalibrationSpectrum.__init__ false area nanometre s) in
  CalibrationSpectrum.__init__ false area nanometre s = (s', Ok tt)
  /\ CalibrationSpectrum.is_None area = false
  /\ (forall u0, area <> common.PyUnit u0)
  /\ signal.ndim (CalibrationSpectrum.base s') = 1%nat
  /\ CalibrationSpectrum.base s'
     = signal.set_attrs (Some []) (CalibrationSpectrum.base s)
  /\ exists m,
       CalibrationSpectrum.area s' = (s', Ok (common.PyQuantity m nanometre))
       /\ common.is_numeric (common.PyQuantity m nanometre) = true.
Proof.
  cbv zeta.
  assert (E : CalibrationSpectrum.__init__ false
                (common.Plain (common.PyFloat (np.fin 2))) nanometre
                (CalibrationSpectrum.mkInstance sample.ramp None)
              = (fst (CalibrationSpectrum.__init__ false
                        (common.Plain (common.PyFloat (np.fin 2))) nanometre
                        (CalibrationSpectrum.mkInstance sample.ramp None)),
                 Ok tt)) by reflexivity.
  assert (Hu : forall u0 : metric,
             common.Plain (common.PyFloat (np.fin 2)) <> common.PyUnit u0)
    by (intros u0; discriminate).
  split; [exact E|]. split; [reflexivity|]. split; [exact Hu|].
  destruct (proj2 (calibration_area_is_quantity false _ nanometre _) _ E)
    as (Hn & Hb & m & u & Ha & Hnum & Hunits).
  split; [exact Hn|]. split; [exact Hb|].
  pose proof (Hunits eq_refl Hu) as Eu. subst u.
  exists m. split; [exact Ha | exact Hnum].
Defined.
